(** * batchdecrypt.py: a shallow embedding and its verified properties

    The program discovers playlist/key pairs in [inputfiles], downloads the
    segments each playlist lists, decrypts them with openssl, and joins them
    with ffmpeg.  Python [bytes] values are Rocq strings, one character per
    byte.  A Python [str] is kept as the bytes of its UTF-8 form, a byte
    that belongs to no well-formed sequence standing for itself, as Python
    keeps such bytes of a file name; the operations that look at single
    characters ([\d], [strip], [int], the dot of a pattern) read it character
    by character.  The filesystem is an association list in enumeration
    order; standard output, HTTP requests and subprocess calls are recorded
    as a chronological list of events. *)

From Stdlib Require Import String Ascii List NArith ZArith Lia Bool Arith.
From Stdlib Require Import Sorting.Sorted Sorting.Permutation.
From Stdlib Require Import DecimalNat DecimalString.
Import ListNotations.
Open Scope string_scope.
Open Scope list_scope.
Open Scope nat_scope.

Set Implicit Arguments.

(** String concatenation, written [+] in the source. *)
Infix "+++" := String.append (right associativity, at level 60).

(** ** Python string operations used by the program *)

Module Py.

Definition nl : ascii := ascii_of_nat 10.
Definition cr : ascii := ascii_of_nat 13.

(** *** Characters

    The value of a byte, and the bytes that continue a UTF-8 sequence. *)
Definition code (c : ascii) : N := N_of_ascii c.

Definition between (lo n hi : N) : bool := ((lo <=? n) && (n <=? hi))%N.

Definition is_cont (c : ascii) : bool := between 128 (code c) 191.

(** The well-formed sequences of two, three and four bytes. *)
Definition seq2 (a b : ascii) : bool := between 194 (code a) 223 && is_cont b.

Definition second3 (a b : ascii) : bool :=
  ((code a =? 224)%N && between 160 (code b) 191)
  || ((between 225 (code a) 236 || between 238 (code a) 239) && is_cont b)
  || ((code a =? 237)%N && between 128 (code b) 159).

Definition second4 (a b : ascii) : bool :=
  ((code a =? 240)%N && between 144 (code b) 191)
  || (between 241 (code a) 243 && is_cont b)
  || ((code a =? 244)%N && between 128 (code b) 143).

Definition seq3 (a b c : ascii) : bool := second3 a b && is_cont c.

Definition seq4 (a b c d : ascii) : bool :=
  second4 a b && is_cont c && is_cont d.

(** The characters of a [str], each as the bytes that encode it.  A byte
    that starts no well-formed sequence is a character of its own. *)
Fixpoint chars (s : string) : list string :=
  match s with
  | EmptyString => []
  | String a r1 =>
      match r1 with
      | String b r2 =>
          if seq2 a b then String a (String b "") :: chars r2
          else
            match r2 with
            | String c r3 =>
                if seq3 a b c
                then String a (String b (String c "")) :: chars r3
                else
                  match r3 with
                  | String d r4 =>
                      if seq4 a b c d
                      then String a (String b (String c (String d "")))
                           :: chars r4
                      else String a "" :: chars r1
                  | EmptyString => String a "" :: chars r1
                  end
            | EmptyString => String a "" :: chars r1
            end
      | EmptyString => [String a ""]
      end
  end.

(** [''.join(l)] *)
Fixpoint join (l : list string) : string :=
  match l with
  | [] => EmptyString
  | c :: r => c +++ join r
  end.

(** A single character in its well-formed encoding. *)
Definition is_char (c : string) : bool :=
  match c with
  | String a EmptyString => (code a <? 128)%N
  | String a (String b EmptyString) => seq2 a b
  | String a (String b (String c EmptyString)) => seq3 a b c
  | String a (String b (String c (String d EmptyString))) => seq4 a b c d
  | _ => false
  end.

(** [ord(c)]: the code point of a character; a byte that is a character of
    its own has the code point Python gives it, U+DC80 to U+DCFF. *)
Definition ord (c : string) : N :=
  match c with
  | String a EmptyString =>
      if (code a <? 128)%N then code a else (56320 + code a)%N
  | String a (String b EmptyString) =>
      ((code a - 192) * 64 + (code b - 128))%N
  | String a (String b (String c EmptyString)) =>
      ((code a - 224) * 4096 + (code b - 128) * 64 + (code c - 128))%N
  | String a (String b (String c (String d EmptyString))) =>
      ((code a - 240) * 262144 + (code b - 128) * 4096
       + (code c - 128) * 64 + (code d - 128))%N
  | _ => 0%N
  end.

(** The decimal digits of Unicode 14.0, the characters [\d] matches and
    [int] reads: each entry is the code point of a digit zero, which the
    digits one to nine follow. *)
Definition digit_zeros : list N :=
  [48; 1632; 1776; 1984; 2406; 2534; 2662; 2790; 2918; 3046; 3174; 3302;
   3430; 3558; 3664; 3792; 3872; 4160; 4240; 6112; 6160; 6470; 6608; 6784;
   6800; 6992; 7088; 7232; 7248; 42528; 43216; 43264; 43472; 43504; 43600;
   44016; 65296; 66720; 68912; 69734; 69872; 69942; 70096; 70384; 70736;
   70864; 71248; 71360; 71472; 71904; 72016; 72784; 73040; 73120; 92768;
   92864; 93008; 120782; 120792; 120802; 120812; 120822; 123200; 123632;
   125264; 130032]%N.

Fixpoint digit_in (zeros : list N) (n : N) : option Z :=
  match zeros with
  | [] => None
  | z :: r =>
      if between z n (z + 9) then Some (Z.of_N (n - z)) else digit_in r n
  end.

(** The value of a decimal digit; [None] for any other character. *)
Definition decimal (c : string) : option Z :=
  if is_char c then digit_in digit_zeros (ord c) else None.

(** [\d] *)
Definition is_digit (c : string) : bool :=
  match decimal c with Some _ => true | None => false end.

Definition digit_val (c : string) : Z :=
  match decimal c with Some v => v | None => 0%Z end.

(** The white space of Unicode as [str.isspace] and [str.strip] know it. *)
Definition space_code (n : N) : bool :=
  between 9 n 13 || between 28 n 32 || (n =? 133)%N || (n =? 160)%N
  || (n =? 5760)%N || between 8192 n 8202 || (n =? 8232)%N || (n =? 8233)%N
  || (n =? 8239)%N || (n =? 8287)%N || (n =? 12288)%N.

Definition is_space (c : string) : bool := is_char c && space_code (ord c).

(** The white space [int] passes over: the same, but for the four
    separators U+001C to U+001F. *)
Definition int_space (c : string) : bool :=
  is_space c && negb (between 28 (ord c) 31).

(** [s.startswith(p)] *)
Definition startswith (p s : string) : bool := String.prefix p s.

(** [s.endswith(p)] *)
Fixpoint endswith (p s : string) : bool :=
  (s =? p)%string ||
  match s with
  | EmptyString => false
  | String _ r => endswith p r
  end.

(** [sub in s] *)
Fixpoint contains (sub s : string) : bool :=
  String.prefix sub s ||
  match s with
  | EmptyString => false
  | String _ r => contains sub r
  end.

Definition lower_char (c : ascii) : ascii :=
  let n := nat_of_ascii c in
  if (65 <=? n) && (n <=? 90) then ascii_of_nat (n + 32) else c.

(** [s.lower()] on the letters A to Z; other bytes stay.  The program asks
    of the result only whether it starts with [0x], and no character but
    [X] and [x] becomes [x] in lower case, none but [0] becomes [0]. *)
Fixpoint lower (s : string) : string :=
  match s with
  | EmptyString => EmptyString
  | String c r => String (lower_char c) (lower r)
  end.

Fixpoint lstrip (p : ascii -> bool) (s : string) : string :=
  match s with
  | EmptyString => EmptyString
  | String c r => if p c then lstrip p r else s
  end.

Fixpoint rstrip (p : ascii -> bool) (s : string) : string :=
  match s with
  | EmptyString => EmptyString
  | String c r =>
      let r' := rstrip p r in
      if (r' =? "")%string && p c then EmptyString else String c r'
  end.

(** Leading and trailing characters of a class taken away. *)
Fixpoint lstrip_if (p : string -> bool) (l : list string) : list string :=
  match l with
  | [] => []
  | c :: r => if p c then lstrip_if p r else l
  end.

Definition rstrip_if (p : string -> bool) (l : list string) : list string :=
  rev (lstrip_if p (rev l)).

Definition strip_if (p : string -> bool) (l : list string) : list string :=
  rstrip_if p (lstrip_if p l).

(** [s.strip()] *)
Definition strip (s : string) : string := join (strip_if is_space (chars s)).

(** [s.strip(chars)] for a one-character [chars] *)
Definition strip_char (c : ascii) (s : string) : string :=
  rstrip (Ascii.eqb c) (lstrip (Ascii.eqb c) s).

(** [s[n:]] *)
Fixpoint drop (n : nat) (s : string) : string :=
  match n, s with
  | O, _ => s
  | S _, EmptyString => EmptyString
  | S k, String _ r => drop k r
  end.

(** [s.split(sep, maxsplit)] for a non-empty [sep]; [maxsplit = None] is
    Python's default of no limit.  [skip] counts the characters of a matched
    separator still to be passed over, [cur] is the piece being built. *)
Fixpoint split_go (sep : string) (maxsplit : option nat) (skip : nat)
    (cur : string) (s : string) : list string :=
  match s with
  | EmptyString => [cur]
  | String c r =>
      match skip with
      | S k => split_go sep maxsplit k cur r
      | O =>
          match maxsplit with
          | Some O => split_go sep maxsplit 0 (cur +++ String c "") r
          | _ =>
              if String.prefix sep s
              then cur :: split_go sep (option_map Nat.pred maxsplit)
                                   (String.length sep - 1) "" r
              else split_go sep maxsplit 0 (cur +++ String c "") r
          end
      end
  end.

Definition split (sep : string) (maxsplit : option nat) (s : string)
  : list string :=
  split_go sep maxsplit 0 "" s.

(** The body of [int(s)] after white space and sign: decimal digits, single
    underscores allowed between digits.  [st] tells whether the previous
    character was a digit. *)
Fixpoint int_digits (acc : Z) (st : bool) (l : list string) : option Z :=
  match l with
  | [] => if st then Some acc else None
  | c :: r =>
      match decimal c with
      | Some v => int_digits (10 * acc + v) true r
      | None =>
          if (c =? "_")%string && st then int_digits acc false r else None
      end
  end.

(** [int(s)]; [None] stands for [ValueError]. *)
Definition int (s : string) : option Z :=
  match strip_if int_space (chars s) with
  | "-" :: r => option_map Z.opp (int_digits 0 false r)
  | "+" :: r => int_digits 0 false r
  | t => int_digits 0 false t
  end.

(** [str(n)] for a non-negative integer. *)
Definition str (n : nat) : string :=
  NilEmpty.string_of_uint (Nat.to_uint n).

(** [bytes.hex()] *)
Definition hex_digit (n : nat) : ascii :=
  if n <? 10 then ascii_of_nat (48 + n) else ascii_of_nat (87 + n).

Fixpoint hex (s : string) : string :=
  match s with
  | EmptyString => EmptyString
  | String c r =>
      let n := nat_of_ascii c in
      String (hex_digit (n / 16)) (String (hex_digit (n mod 16)) (hex r))
  end.

(** [enumerate(l)] *)
Fixpoint enumerate_from {A} (i : nat) (l : list A) : list (nat * A) :=
  match l with
  | [] => []
  | x :: r => (i, x) :: enumerate_from (S i) r
  end.

Definition enumerate {A} (l : list A) : list (nat * A) := enumerate_from 0 l.

(** Text-mode iteration over a file: lines end at LF, CR or CR LF
    (universal newlines).  The terminators are dropped here; the program
    strips every line before looking at it. *)
Fixpoint lines_go (cur : string) (s : string) : list string :=
  match s with
  | EmptyString => if (cur =? "")%string then [] else [cur]
  | String c r =>
      if Ascii.eqb c nl then cur :: lines_go "" r
      else if Ascii.eqb c cr then
        match r with
        | String c' r' =>
            if Ascii.eqb c' nl then cur :: lines_go "" r'
            else cur :: lines_go "" r
        | EmptyString => [cur]
        end
      else lines_go (cur +++ String c "") r
  end.

Definition lines (s : string) : list string := lines_go "" s.

(** [s[:n]] *)
Fixpoint take (n : nat) (s : string) : string :=
  match n, s with
  | O, _ => EmptyString
  | S _, EmptyString => EmptyString
  | S k, String c r => String c (take k r)
  end.

(** The lines of a text that are complete: a line at the end that has no
    terminator, or only a CR that a LF might still follow, is not. *)
Fixpoint complete_go (cur : string) (s : string) : list string :=
  match s with
  | EmptyString => []
  | String c r =>
      if Ascii.eqb c nl then cur :: complete_go "" r
      else if Ascii.eqb c cr then
        match r with
        | String c' r' =>
            if Ascii.eqb c' nl then cur :: complete_go "" r'
            else cur :: complete_go "" r
        | EmptyString => []
        end
      else complete_go (cur +++ String c "") r
  end.

(** Where the UTF-8 decoder gives up on [s], which begins at offset [off]
    of the data: [None] when all of [s] is well formed; otherwise the
    offset up to which the data decodes, with the offset of the byte that
    is refused, or with [None] when the data ends within a sequence. *)
Fixpoint undecodable (off : nat) (s : string) : option (nat * option nat) :=
  match s with
  | EmptyString => None
  | String a r1 =>
      if (code a <? 128)%N then undecodable (S off) r1
      else if negb (between 194 (code a) 244) then Some (off, Some off)
      else
        match r1 with
        | EmptyString => Some (off, None)
        | String b r2 =>
            if seq2 a b then undecodable (2 + off) r2
            else if negb (second3 a b || second4 a b)
            then Some (off, Some (1 + off))
            else
              match r2 with
              | EmptyString => Some (off, None)
              | String c r3 =>
                  if seq3 a b c then undecodable (3 + off) r3
                  else if negb (second4 a b && is_cont c)
                  then Some (off, Some (2 + off))
                  else
                    match r3 with
                    | EmptyString => Some (off, None)
                    | String d r4 =>
                        if seq4 a b c d then undecodable (4 + off) r4
                        else Some (off, Some (3 + off))
                    end
              end
        end
  end.

(** A text file is read and decoded in chunks of this many bytes. *)
Definition chunk_size : nat := 8 * 1024.

(** The text of a file opened in text mode, when all of it decodes;
    otherwise the lines the iteration over the file yields before
    [UnicodeDecodeError] is raised: the complete lines of what was decoded
    before the chunk with the refused byte was taken up, or before the end
    of the data was reached within a sequence. *)
Definition decode (data : string) : list string + string :=
  match undecodable 0 data with
  | None => inr data
  | Some (good, Some bad) =>
      inl (complete_go ""
             (take (Nat.min good (chunk_size * (bad / chunk_size))) data))
  | Some (good, None) => inl (complete_go "" (take good data))
  end.

(** List comparison [a < b]: lexicographic, a proper prefix is smaller. *)
Fixpoint list_lt (a b : list Z) : bool :=
  match a, b with
  | _, [] => false
  | [], _ :: _ => true
  | x :: a', y :: b' => (x <? y)%Z || ((x =? y)%Z && list_lt a' b')
  end.

End Py.

(** ** Paths and the filesystem *)

Module Os.

(** [os.path.join(a, b)] *)
Definition path_join (a b : string) : string :=
  if Py.startswith "/" b then b
  else if (a =? "")%string || Py.endswith "/" a then a +++ b
  else a +++ "/" +++ b.

(** [os.path.basename(p)]: what follows the last slash. *)
Fixpoint basename (p : string) : string :=
  match p with
  | EmptyString => EmptyString
  | String c r =>
      if Py.contains "/" r then basename r
      else if Ascii.eqb c "/" then r else p
  end.

(** The directory a relative path lives in: what precedes the last slash;
    the empty string stands for the current directory. *)
Fixpoint parent (p : string) : string :=
  match p with
  | EmptyString => EmptyString
  | String c r => if Py.contains "/" r then String c (parent r) else EmptyString
  end.

Inductive node : Type :=
  | File (data : string)
  | Dir.

(** Paths with what they hold, in the order the directory enumerates them. *)
Definition filesystem := list (string * node).

Fixpoint lookup (fs : filesystem) (p : string) : option node :=
  match fs with
  | [] => None
  | (q, n) :: r => if (q =? p)%string then Some n else lookup r p
  end.

(** [os.path.exists(p)] *)
Definition path_exists (fs : filesystem) (p : string) : bool :=
  match lookup fs p with Some _ => true | None => false end.

Definition is_dir (fs : filesystem) (p : string) : bool :=
  match lookup fs p with Some Dir => true | _ => false end.

Definition is_file (fs : filesystem) (p : string) : bool :=
  match lookup fs p with Some (File _) => true | _ => false end.

Fixpoint store (p : string) (n : node) (fs : filesystem) : filesystem :=
  match fs with
  | [] => [(p, n)]
  | (q, m) :: r =>
      if (q =? p)%string then (q, n) :: r else (q, m) :: store p n r
  end.

(** Entries of [dir] matched by the pattern [*suffix] of [glob.glob]: direct
    children whose name is not hidden and ends with [suffix]. *)
Definition glob_match (dir suffix : string) (p : string) : bool :=
  Py.startswith (dir +++ "/") p &&
  (let name := Py.drop (String.length dir + 1) p in
   negb (name =? "")%string && negb (Py.contains "/" name) &&
   negb (Py.startswith "." name) && Py.endswith suffix name).

Definition glob (fs : filesystem) (dir suffix : string) : list string :=
  if is_dir fs dir then filter (glob_match dir suffix) (map fst fs) else [].

(** [shutil.rmtree(p, ignore_errors=True)]: a directory goes with all it
    holds; on anything else the error is ignored and nothing changes. *)
Definition rmtree (p : string) (fs : filesystem) : filesystem :=
  match lookup fs p with
  | Some Dir =>
      filter (fun e => negb ((fst e =? p)%string
                             || Py.startswith (p +++ "/") (fst e))) fs
  | _ => fs
  end.

End Os.

(** ** Exceptions, events and the state the program runs in *)

(** Exceptions by class, each with what it was made from: the message,
    where the program or an index out of range makes the exception; the
    path, for an error of the operating system; the literal refused, for a
    [ValueError] of [int]; the data, for a decoding error; the command
    line, for a command that failed.  The text [str(e)] of an exception is
    not modelled. *)
Inductive exn : Type :=
  | FileNotFoundError (arg : string)
  | FileExistsError (arg : string)
  | NotADirectoryError (arg : string)
  | IsADirectoryError (arg : string)
  | ValueError (arg : string)
  | UnicodeDecodeError (arg : string)
  | IndexError (arg : string)
  | RequestException (arg : string)
  | CalledProcessError (argv : list string).

(** What the program does to the world outside: a line printed, a line
    printed that ends with the text of an exception, a request sent, a
    command run. *)
Inductive event : Type :=
  | Print (s : string)
  | PrintExn (s : string) (e : exn)
  | HttpGet (url : string)
  | Run (argv : list string).

Record world : Type := World { fs : Os.filesystem; log : list event }.

Definition with_fs (f : Os.filesystem) (w : world) : world :=
  World f (log w).

(** Computations: read and change the world, return a value or raise. *)
Definition M (A : Type) : Type := world -> (exn + A) * world.

Definition ret {A} (a : A) : M A := fun w => (inr a, w).

Definition raise {A} (e : exn) : M A := fun w => (inl e, w).

Definition bind {A B} (m : M A) (k : A -> M B) : M B :=
  fun w =>
    match m w with
    | (inr a, w') => k a w'
    | (inl e, w') => (inl e, w')
    end.

Notation "x <- m ;; k" := (bind m (fun x => k))
  (at level 61, m at next level, right associativity).
Notation "m ;;; k" := (bind m (fun _ => k))
  (at level 61, right associativity).

(** [try: m except Exception as e: handler e] *)
Definition try_except {A} (m : M A) (handler : exn -> M A) : M A :=
  fun w =>
    match m w with
    | (inr a, w') => (inr a, w')
    | (inl e, w') => handler e w'
    end.

(** [try: m finally: cleanup] *)
Definition try_finally {A} (m : M A) (cleanup : M unit) : M A :=
  fun w =>
    match m w with
    | (r, w') =>
        match cleanup w' with
        | (inr _, w'') => (r, w'')
        | (inl e, w'') => (inl e, w'')
        end
    end.

(** [for x in l: body x] *)
Fixpoint for_each {A} (l : list A) (body : A -> M unit) : M unit :=
  match l with
  | [] => ret tt
  | x :: r => body x ;;; for_each r body
  end.

Definition lift {A} (r : exn + A) : M A := fun w => (r, w).

Definition emit (e : event) : M unit :=
  fun w => (inr tt, World (fs w) (log w ++ [e])).

(** [print(s)], to a standard output that takes every string: under the C
    and C.UTF-8 locales a byte of a name that is no text is written back as
    it was. *)
Definition print (s : string) : M unit := emit (Print s).

(** [print(f"...{e}")], the exception last. *)
Definition print_exn (s : string) (e : exn) : M unit := emit (PrintExn s e).

Definition get_fs : M Os.filesystem := fun w => (inr (fs w), w).

Definition put_fs (f : Os.filesystem) : M unit :=
  fun w => (inr tt, with_fs f w).

(** [open(p, "rb").read()] *)
Definition read_file (p : string) : M string :=
  f <- get_fs ;;
  match Os.lookup f p with
  | Some (Os.File d) => ret d
  | Some Os.Dir => raise (IsADirectoryError p)
  | None => raise (FileNotFoundError p)
  end.

(** Whether a file can be created at [p]: its directory is there. *)
Definition parent_ok (f : Os.filesystem) (p : string) : bool :=
  (Os.parent p =? "")%string || Os.is_dir f (Os.parent p).

(** The error of opening [p] for writing where its directory is not
    there. *)
Definition no_parent (f : Os.filesystem) (p : string) : exn :=
  if Os.is_file f (Os.parent p) then NotADirectoryError p
  else FileNotFoundError p.

(** [open(p, "wb").write(d)] *)
Definition write_file (p d : string) : M unit :=
  f <- get_fs ;;
  match Os.lookup f p with
  | Some Os.Dir => raise (IsADirectoryError p)
  | _ =>
      if parent_ok f p then put_fs (Os.store p (Os.File d) f)
      else raise (no_parent f p)
  end.

(** [os.mkdir(p)] *)
Definition os_mkdir (p : string) : M unit :=
  f <- get_fs ;;
  match Os.lookup f p with
  | Some _ => raise (FileExistsError p)
  | None =>
      if (Os.parent p =? "")%string then put_fs (f ++ [(p, Os.Dir)])
      else match Os.lookup f (Os.parent p) with
           | Some Os.Dir => put_fs (f ++ [(p, Os.Dir)])
           | Some (Os.File _) => raise (NotADirectoryError p)
           | None => raise (FileNotFoundError p)
           end
  end.

(** [Path(p).mkdir(parents=.., exist_ok=..)], as pathlib writes it: try
    [os.mkdir]; when the parent is missing and [parents] is set, make the
    parent and try again; any other error is dropped when the path is a
    directory already and [exist_ok] is set.  [fuel] bounds the climb. *)
Fixpoint path_mkdir (fuel : nat) (parents exist_ok : bool) (p : string)
  : M unit :=
  try_except (os_mkdir p) (fun e =>
    match e with
    | FileNotFoundError _ =>
        if parents then
          match fuel with
          | O => raise e
          | S k => path_mkdir k true true (Os.parent p) ;;;
                   path_mkdir k false exist_ok p
          end
        else raise e
    | _ => f <- get_fs ;;
           if exist_ok && Os.is_dir f p then ret tt else raise e
    end).

Definition mkdir (parents exist_ok : bool) (p : string) : M unit :=
  path_mkdir (String.length p) parents exist_ok p.

(** ** [sorted(l, key=...)] *)

Section PySorted.

Variables (A K : Type).
Variable key : A -> exn + K.
Variable lt : K -> K -> bool.

(** The keys are computed first, one call per element, left to right. *)
Fixpoint keyed (l : list A) : exn + list (K * A) :=
  match l with
  | [] => inr []
  | x :: r =>
      match key x with
      | inl e => inl e
      | inr k =>
          match keyed r with
          | inl e => inl e
          | inr kr => inr ((k, x) :: kr)
          end
      end
  end.

(** Python's sort is stable and compares with [<] only.  A stable sort has
    one possible result; insertion from the right computes it. *)
Fixpoint insert (x : K * A) (l : list (K * A)) : list (K * A) :=
  match l with
  | [] => [x]
  | y :: r => if lt (fst y) (fst x) then y :: insert x r else x :: l
  end.

Definition sort_keyed (l : list (K * A)) : list (K * A) :=
  fold_right insert [] l.

Definition sorted (l : list A) : exn + list A :=
  match keyed l with
  | inl e => inl e
  | inr kl => inr (map snd (sort_keyed kl))
  end.

End PySorted.

(** ** The program *)

Definition NL : string := String Py.nl "".
Definition dquote : ascii := ascii_of_nat 34.

(** Configuration *)
Definition input_dir : string := "inputfiles".
Definition base_dir : string := "processing".
Definition max_workers : nat := 50.

(** The dictionary [find_tasks] builds for a playlist/key pair. *)
Record Task : Type := mkTask {
  base_name : string;
  version : string;
  output_file : string;
  playlist : string;
  key : string;
  downloaded_dir : string;
  decrypted_dir : string
}.

(** [\d+] at the head of the characters [l]: the digits it takes and what
    is left.  A shorter take would leave a digit where the pattern wants a
    dot. *)
Fixpoint span_digits (l : list string) : list string * list string :=
  match l with
  | [] => ([], [])
  | c :: r =>
      if Py.is_digit c
      then let (d, t) := span_digits r in (c :: d, t)
      else ([], l)
  end.

(** [(\d+\.\d+)\.m3u8$] matched at the head of [l]; [$] also matches
    before a final newline. *)
Definition match_version (l : list string) : option string :=
  let (d1, r1) := span_digits l in
  match d1, r1 with
  | _ :: _, "." :: r2 =>
      let (d2, r3) := span_digits r2 in
      match d2 with
      | _ :: _ =>
          if (Py.join r3 =? ".m3u8")%string
             || (Py.join r3 =? ".m3u8" +++ NL)%string
          then Some (Py.join d1 +++ "." +++ Py.join d2)
          else None
      | [] => None
      end
  | _, _ => None
  end.

(** [(.+?)] grows one character at a time, never over a newline, until the
    rest of the pattern matches. *)
Fixpoint re_grow (base : string) (rest : list string)
  : option (string * string) :=
  match match_version rest with
  | Some v => Some (base, v)
  | None =>
      match rest with
      | [] => None
      | c :: r =>
          if (c =? NL)%string then None else re_grow (base +++ c) r
      end
  end.

(** [re.match(r'^(.+?)(\d+\.\d+)\.m3u8$', filename)]: groups 1 and 2. *)
Definition re_match (filename : string) : option (string * string) :=
  match Py.chars filename with
  | [] => None
  | c :: r => if (c =? NL)%string then None else re_grow c r
  end.

Definition make_task (base_name version m3u8_path key_path : string) : Task :=
  {| base_name := base_name;
     version := version;
     output_file := base_name +++ " " +++ version +++ ".mp4";
     playlist := m3u8_path;
     key := key_path;
     downloaded_dir := Os.path_join base_dir ("downloaded_" +++ version);
     decrypted_dir := Os.path_join base_dir ("decrypted_" +++ version) |}.

(** [[int(n) for n in l]] *)
Fixpoint ints (l : list string) : exn + list Z :=
  match l with
  | [] => inr []
  | n :: r =>
      match Py.int n with
      | None => inl (ValueError n)
      | Some z =>
          match ints r with
          | inl e => inl e
          | inr zs => inr (z :: zs)
          end
      end
  end.

(** [lambda x: [int(n) for n in x["version"].split('.')]] *)
Definition version_key (x : Task) : exn + list Z :=
  ints (Py.split "." None (version x)).

(** The loop of [find_tasks] over the globbed paths. *)
Fixpoint find_loop (paths : list string) (tasks : list Task)
  : M (list Task) :=
  match paths with
  | [] => ret tasks
  | m3u8_path :: rest =>
      let filename := Os.basename m3u8_path in
      match re_match filename with
      | None =>
          print ("Skipping invalid filename format: " +++ filename) ;;;
          find_loop rest tasks
      | Some (base_name, version) =>
          let key_filename := base_name +++ version +++ ".bin" in
          let key_path := Os.path_join input_dir key_filename in
          f <- get_fs ;;
          if negb (Os.path_exists f key_path)
          then raise (FileNotFoundError ("Missing key file: " +++ key_filename))
          else find_loop rest
                 (tasks ++ [make_task base_name version m3u8_path key_path])
      end
  end.

Definition find_tasks : M (list Task) :=
  f <- get_fs ;;
  tasks <- find_loop (Os.glob f input_dir ".m3u8") [] ;;
  lift (sorted version_key Py.list_lt tasks).

(** [attr.split("=", 1)[1]] stripped of double quotes, then of a leading
    [0x] in either case. *)
Definition iv_of_attr (attr : string) : exn + string :=
  match nth_error (Py.split "=" (Some 1) attr) 1 with
  | None => inl (IndexError "list index out of range")
  | Some v =>
      let iv := Py.strip_char dquote v in
      inr (if Py.startswith "0x" (Py.lower iv) then Py.drop 2 iv else iv)
  end.

(** [for attr in attributes: ...] *)
Fixpoint scan_attrs (iv : option string) (attributes : list string)
  : exn + option string :=
  match attributes with
  | [] => inr iv
  | attr :: r =>
      if Py.startswith "IV=" attr
      then match iv_of_attr attr with
           | inl e => inl e
           | inr v => scan_attrs (Some v) r
           end
      else scan_attrs iv r
  end.

(** [for line in f: ...] *)
Fixpoint scan_lines (iv : option string) (segments : list string)
    (ls : list string) : exn + (option string * list string) :=
  match ls with
  | [] => inr (iv, segments)
  | raw :: r =>
      let line := Py.strip raw in
      if Py.startswith "#EXT-X-KEY" line then
        match nth_error (Py.split ":" (Some 1) line) 1 with
        | None => inl (IndexError "list index out of range")
        | Some attrs =>
            match scan_attrs iv (Py.split "," None attrs) with
            | inl e => inl e
            | inr iv' => scan_lines iv' segments r
            end
        end
      else if Py.contains ".ts?" line then scan_lines iv (segments ++ [line]) r
      else scan_lines iv segments r
  end.

(** What [parse_m3u8] does with the text of a playlist that decodes. *)
Definition parse_text (playlist_path text : string)
  : exn + (string * list string) :=
  match scan_lines None [] (Py.lines text) with
  | inl e => inl e
  | inr (iv, segments) =>
      match iv with
      | None | Some EmptyString =>
          inl (ValueError ("IV not found in " +++ playlist_path))
      | Some v => inr (v, segments)
      end
  end.

(** The playlist is opened in text mode.  When its bytes do not decode,
    the loop goes over the lines it is given before the error, and may
    raise on one of them first. *)
Definition parse_m3u8 (playlist_path : string) : M (string * list string) :=
  data <- read_file playlist_path ;;
  match Py.decode data with
  | inr text => lift (parse_text playlist_path text)
  | inl seen =>
      lift (scan_lines None [] seen) ;;;
      raise (UnicodeDecodeError data)
  end.

Definition segment_name (i : nat) : string := "segment" +++ Py.str i +++ ".ts".

(** [lambda x: int(os.path.basename(x).split("segment")[1].split(".")[0])] *)
Definition segment_key (x : string) : exn + Z :=
  match nth_error (Py.split "segment" None (Os.basename x)) 1 with
  | None => inl (IndexError "list index out of range")
  | Some t =>
      match nth_error (Py.split "." None t) 0 with
      | None => inl (IndexError "list index out of range")
      | Some d =>
          match Py.int d with
          | None => inl (ValueError d)
          | Some z => inr z
          end
      end
  end.

(** What a run of openssl comes to: the plain text, or a failure with
    what it had written of the output when it failed. *)
Inductive outcome : Type :=
  | Decrypted (plain : string)
  | Broken (written : string).

Definition openssl_argv (input_ts output_ts iv key_hex : string)
  : list string :=
  ["openssl"; "aes-128-cbc"; "-d"; "-in"; input_ts; "-out"; output_ts;
   "-nosalt"; "-iv"; iv; "-K"; key_hex].

Definition ffmpeg_argv (task_file_list output : string) : list string :=
  ["ffmpeg"; "-hide_banner"; "-loglevel"; "error"; "-f"; "concat";
   "-safe"; "0"; "-i"; task_file_list; "-c"; "copy"; output].

Section Program.

(** The collaborators the program calls but does not contain. *)

(** [requests.get(url, timeout=60)] with [raise_for_status()]: the body of
    the response, or the exception raised. *)
Variable fetch : string -> exn + string.

(** AES-128-CBC decryption as openssl performs it, from the hex key, the hex
    IV and the ciphertext. *)
Variable aes_cbc_decrypt : string -> string -> string -> outcome.

(** The bytes ffmpeg's concat demuxer produces from a filesystem and a
    command line; [None] is a non-zero exit. *)
Variable ffmpeg_concat : Os.filesystem -> list string -> option string.

(** The order in which the pool's futures complete. *)
Variable as_completed : list (nat * string) -> list (nat * string).

(** [Path(file).resolve()] and the size shown by the report. *)
Variable resolve : string -> string.
Variable size_mb : Os.node -> string.

Definition download_segment (task : Task) (i : nat) (url : string) : M unit :=
  let ts_file := Os.path_join (downloaded_dir task) (segment_name i) in
  emit (HttpGet url) ;;;
  content <- lift (fetch url) ;;
  write_file ts_file content.

(** [subprocess.run(["openssl", ...], check=True)]: openssl opens [-in],
    which a directory allows as well as a file, then opens [-out], which
    creates or empties that file, then reads, decrypts and writes; any
    failure is a non-zero exit, and what was written by then stays. *)
Definition run_openssl (input_ts output_ts iv key_hex : string) : M unit :=
  let argv := openssl_argv input_ts output_ts iv key_hex in
  emit (Run argv) ;;;
  try_except
    (f <- get_fs ;;
     (if Os.path_exists f input_ts then ret tt
      else raise (FileNotFoundError input_ts)) ;;;
     write_file output_ts "" ;;;
     data <- read_file input_ts ;;
     match aes_cbc_decrypt key_hex iv data with
     | Decrypted plain => write_file output_ts plain
     | Broken written =>
         write_file output_ts written ;;;
         raise (CalledProcessError argv)
     end)
    (fun _ => raise (CalledProcessError argv)).

(** [subprocess.run(["ffmpeg", ...], check=True)] *)
Definition run_ffmpeg (task_file_list output : string) : M unit :=
  let argv := ffmpeg_argv task_file_list output in
  emit (Run argv) ;;;
  f <- get_fs ;;
  match ffmpeg_concat f argv with
  | Some data =>
      try_except (write_file output data)
                 (fun _ => raise (CalledProcessError argv))
  | None => raise (CalledProcessError argv)
  end.

(** "Download segments": every segment is submitted with its position; the
    results are collected as the futures complete, each call running as one
    step, and a failed download is only printed. *)
Definition download_segments (task : Task) (segments : list string) : M unit :=
  let futures := Py.enumerate segments in
  for_each (as_completed futures) (fun future =>
    try_except (download_segment task (fst future) (snd future))
               (fun e => print_exn "Download error : " e)).

(** "Decrypt segments" *)
Definition decrypt_segments (task : Task) (iv key_hex : string)
    (segments : list string) : M unit :=
  for_each (seq 0 (List.length segments)) (fun i =>
    let input_ts := Os.path_join (downloaded_dir task) (segment_name i) in
    let output_ts := Os.path_join (decrypted_dir task) (segment_name i) in
    run_openssl input_ts output_ts iv key_hex).

Definition file_list_line (seg : string) : string :=
  "file '" +++ Os.basename seg +++ "'" +++ NL.

(** "Create file list" *)
Definition create_file_list (task : Task) : M string :=
  let task_file_list := Os.path_join (decrypted_dir task) "filelist.txt" in
  f <- get_fs ;;
  segments <- lift (sorted segment_key Z.ltb
                      (Os.glob f (decrypted_dir task) ".ts")) ;;
  write_file task_file_list (String.concat "" (map file_list_line segments)) ;;;
  ret task_file_list.

(** The [try] block of [process_task]. *)
Definition process_task_body (task : Task) : M string :=
  mkdir true true (downloaded_dir task) ;;;
  mkdir true true (decrypted_dir task) ;;;
  key_bytes <- read_file (key task) ;;
  let key_hex := Py.hex key_bytes in
  parsed <- parse_m3u8 (playlist task) ;;
  let iv := fst parsed in
  let segments := snd parsed in
  print ("Downloading " +++ Py.str (List.length segments) +++ " segments...") ;;;
  download_segments task segments ;;;
  print "Decrypting segments..." ;;;
  decrypt_segments task iv key_hex segments ;;;
  task_file_list <- create_file_list task ;;
  print ("Creating " +++ output_file task) ;;;
  run_ffmpeg task_file_list (output_file task) ;;;
  ret (output_file task).

(** [time.sleep] changes nothing the model records. *)
Definition sleep : M unit := ret tt.

Definition process_task (task : Task) : M string :=
  print (NL +++ "Processing " +++ base_name task +++ " " +++ version task) ;;;
  try_finally (process_task_body task) sleep.

(** "Process all tasks" *)
Fixpoint process_tasks (tasks : list Task) (output_files : list string)
  : M (list string) :=
  match tasks with
  | [] => ret output_files
  | task :: rest =>
      output_files' <-
        try_except
          (output_file <- process_task task ;;
           ret (output_files ++ [output_file]))
          (fun e =>
             print_exn ("Failed to process " +++ base_name task +++ " "
                        +++ version task +++ ": ") e ;;;
             ret output_files) ;;
      process_tasks rest output_files'
  end.

(** "Output results" *)
Definition report (output_files : list string) : M unit :=
  print (NL +++ "Successfully created files:") ;;;
  for_each output_files (fun file =>
    f <- get_fs ;;
    match Os.lookup f file with
    | Some n => print ("- " +++ resolve file +++ " (" +++ size_mb n +++ " MB)")
    | None => ret tt
    end).

(** The [try] block of [main]. *)
Definition main_body : M unit :=
  f <- get_fs ;;
  (if negb (Os.path_exists f input_dir)
   then raise (FileNotFoundError
                 ("Input directory '" +++ input_dir +++ "' not found"))
   else ret tt) ;;;
  put_fs (Os.rmtree base_dir f) ;;;
  mkdir false true base_dir ;;;
  tasks <- find_tasks ;;
  match tasks with
  | [] => raise (ValueError ("No valid playlist/key pairs found in "
                             +++ input_dir))
  | _ =>
      output_files <- process_tasks tasks [] ;;
      report output_files
  end.

(** "Final cleanup" *)
Definition final_cleanup : M unit :=
  print (NL +++ "Performing final cleanup...") ;;;
  sleep ;;;
  f <- get_fs ;;
  (if Os.path_exists f base_dir then put_fs (Os.rmtree base_dir f)
   else ret tt) ;;;
  print "Cleanup completed".

Definition main : M unit := try_finally main_body final_cleanup.

End Program.

Unset Implicit Arguments.

(** ** Vocabulary of the statements *)

(** *** Numbers in names *)

(** Every character of [s] is a decimal digit. *)
Definition all_digits (s : string) : bool :=
  forallb Py.is_digit (Py.chars s).

(** The character [a] does not occur in [s]. *)
Fixpoint avoids (a : ascii) (s : string) : bool :=
  match s with
  | EmptyString => true
  | String c r => negb (Ascii.eqb c a) && avoids a r
  end.

(** A non-empty run of decimal digits. *)
Definition number (s : string) : Prop := all_digits s = true /\ s <> "".

(** The numeric value of a run of digits. *)
Definition digits_value (acc : Z) (s : string) : Z :=
  fold_left (fun a c => (10 * a + Py.digit_val c)%Z) (Py.chars s) acc.

(** A byte of the 7-bit range that is no decimal digit: a character that
    occurs in no run of digits. *)
Definition non_digit (a : ascii) : bool :=
  (Py.code a <? 128)%N && negb (Py.is_digit (String a "")).

(** A string of 7-bit characters. *)
Fixpoint ascii_only (s : string) : bool :=
  match s with
  | EmptyString => true
  | String a r => (Py.code a <? 128)%N && ascii_only r
  end.

(** The byte [a] is a character of its own before [r]: no well-formed
    sequence of several bytes starts with it there. *)
Definition single (a : ascii) (r : string) : bool :=
  match r with
  | String b r2 =>
      negb (Py.seq2 a b) &&
      match r2 with
      | String c r3 =>
          negb (Py.seq3 a b c) &&
          match r3 with
          | String d _ => negb (Py.seq4 a b c d)
          | EmptyString => true
          end
      | EmptyString => true
      end
  | EmptyString => true
  end.

(** [s] does not start with a byte that continues a sequence. *)
Definition starts_char (s : string) : bool :=
  match s with
  | EmptyString => true
  | String a _ => negb (Py.is_cont a)
  end.

(** All of [data] is well-formed UTF-8. *)
Definition utf8_valid (data : string) : bool :=
  match Py.undecodable 0 data with None => true | Some _ => false end.

(** A version label as group 2 of the filename pattern captures it. *)
Definition dotted_version (v : string) : Prop :=
  exists major minor, v = major +++ "." +++ minor /\ number major /\ number minor.

(** *** Task discovery *)

(** The name of the key file [find_tasks] looks for beside a playlist whose
    name splits into [base_name] and [version]. *)
Definition key_file_of (base_name version : string) : string :=
  base_name +++ version +++ ".bin".

(** The playlist at [p] follows the naming pattern and has no key file. *)
Definition missing_key (f : Os.filesystem) (p : string) : bool :=
  match re_match (Os.basename p) with
  | Some (b, v) =>
      negb (Os.path_exists f (Os.path_join input_dir (key_file_of b v)))
  | None => false
  end.

(** The playlist at [p] does not follow the naming pattern. *)
Definition bad_name (p : string) : bool :=
  match re_match (Os.basename p) with Some _ => false | None => true end.

Definition skip_warning (p : string) : event :=
  Print ("Skipping invalid filename format: " +++ Os.basename p).

(** One task per playlist that follows the naming pattern, in the order the
    playlists are enumerated. *)
Fixpoint tasks_of (paths : list string) : list Task :=
  match paths with
  | [] => []
  | p :: r =>
      match re_match (Os.basename p) with
      | Some (b, v) =>
          make_task b v p (Os.path_join input_dir (key_file_of b v))
          :: tasks_of r
      | None => tasks_of r
      end
  end.

(** A task as [find_tasks] builds them. *)
Definition discovered (t : Task) : Prop :=
  exists b v p k, dotted_version v /\ t = make_task b v p k.

(** [t1] may stand before [t2]: their versions, read as pairs of integers,
    are in lexicographic order. *)
Definition version_precedes (t1 t2 : Task) : Prop :=
  exists major1 minor1 major2 minor2,
    version t1 = major1 +++ "." +++ minor1 /\
    version t2 = major2 +++ "." +++ minor2 /\
    number major1 /\ number minor1 /\ number major2 /\ number minor2 /\
    (digits_value 0 major1 < digits_value 0 major2 \/
     (digits_value 0 major1 = digits_value 0 major2 /\
      digits_value 0 minor1 <= digits_value 0 minor2))%Z.

(** *** Playlists, in the words of the specification *)

(** The lines of a playlist as the parser looks at them. *)
Definition stripped_lines (text : string) : list string :=
  map Py.strip (Py.lines text).

Definition is_key_line (line : string) : bool :=
  Py.startswith "#EXT-X-KEY" line.

(** The comma-separated attribute list of a key declaration: what follows
    the first colon. *)
Definition attributes_of (line : string) : list string :=
  match nth_error (Py.split ":" (Some 1) line) 1 with
  | Some attrs => Py.split "," None attrs
  | None => []
  end.

Definition is_iv_attr (attr : string) : bool := Py.startswith "IV=" attr.

(** The [IV] attributes a single line contributes. *)
Definition line_iv_attrs (line : string) : list string :=
  if is_key_line line then filter is_iv_attr (attributes_of line) else [].

(** The [IV] attributes of the key declarations, in file order. *)
Definition iv_attrs (text : string) : list string :=
  flat_map line_iv_attrs (stripped_lines text).

(** The value of an [IV] attribute: what follows [IV=], without surrounding
    double quotes and without a leading [0x] or [0X]. *)
Definition iv_value (attr : string) : string :=
  let v := Py.strip_char dquote (Py.drop 3 attr) in
  if Py.startswith "0x" v || Py.startswith "0X" v then Py.drop 2 v else v.

(** The value the parser is left with after the given [IV] attributes. *)
Definition iv_after (attrs : list string) (iv : option string)
  : option string :=
  fold_left (fun _ attr => Some (iv_value attr)) attrs iv.

(** A key declaration without a colon: the line on which [split(":", 1)[1]]
    raises. *)
Definition colonless_key_line (line : string) : Prop :=
  is_key_line line = true /\ nth_error (Py.split ":" (Some 1) line) 1 = None.

(** Every key declaration has a colon after its tag. *)
Definition key_lines_have_colon (text : string) : Prop :=
  Forall (fun line => is_key_line line = true -> avoids ":" line = false)
         (stripped_lines text).

(** The segment marker of the stream. *)
Definition has_marker (line : string) : bool := Py.contains ".ts?" line.

(** The lines taken as segment URLs: those with the marker that are not key
    declarations. *)
Definition segment_lines (text : string) : list string :=
  filter (fun line => negb (is_key_line line) && has_marker line)
         (stripped_lines text).

Definition last_opt {A} (l : list A) : option A :=
  match rev l with
  | [] => None
  | x :: _ => Some x
  end.

(** The error of a playlist without a usable IV. *)
Definition iv_error (path : string) : exn :=
  ValueError ("IV not found in " +++ path).

(** *** Segments and the stages of a task *)

(** Where the segment at position [i] is kept under [dir]. *)
Definition segment_path (dir : string) (i : nat) : string :=
  dir +++ "/" +++ segment_name i.

(** The decryption command for the segment at position [i]. *)
Definition decrypt_command (task : Task) (iv key_hex : string) (i : nat)
  : list string :=
  openssl_argv (Os.path_join (downloaded_dir task) (segment_name i))
               (Os.path_join (decrypted_dir task) (segment_name i))
               iv key_hex.

(** [a] may stand before [b] in the file list: the indices in their names
    are in ascending order. *)
Definition index_order (a b : string) : Prop :=
  exists i j, segment_key a = inr i /\ segment_key b = inr j /\ (i <= j)%Z.

(** The line of the file list for the segment at position [i]. *)
Definition list_line (i : nat) : string :=
  "file '" +++ segment_name i +++ "'" +++ NL.

(** One future of the pool completing: the body of the loop of
    [download_segments]. *)
Definition download_step (fetch : string -> exn + string) (task : Task)
    (future : nat * string) : M unit :=
  try_except (download_segment fetch task (fst future) (snd future))
             (fun e => print_exn "Download error : " e).

(** The body of the loop of [report]. *)
Definition report_line (resolve : string -> string)
    (size_mb : Os.node -> string) (file : string) : M unit :=
  f <- get_fs ;;
  match Os.lookup f file with
  | Some n => print ("- " +++ resolve file +++ " (" +++ size_mb n +++ " MB)")
  | None => ret tt
  end.

(** The paths a task writes files to. *)
Definition task_writes (task : Task) (p : string) : Prop :=
  (exists i, p = Os.path_join (downloaded_dir task) (segment_name i)) \/
  (exists i, p = Os.path_join (decrypted_dir task) (segment_name i)) \/
  p = Os.path_join (decrypted_dir task) "filelist.txt" \/
  p = output_file task.

(** [process_task_body] up to the start of decryption: the hex key, the IV
    and the segment URLs it goes on with. *)
Definition before_decrypt (fetch : string -> exn + string)
    (as_completed : list (nat * string) -> list (nat * string))
    (task : Task) : M (string * string * list string) :=
  mkdir true true (downloaded_dir task) ;;;
  mkdir true true (decrypted_dir task) ;;;
  key_bytes <- read_file (key task) ;;
  parsed <- parse_m3u8 (playlist task) ;;
  print ("Downloading " +++ Py.str (List.length (snd parsed))
         +++ " segments...") ;;;
  download_segments fetch as_completed task (snd parsed) ;;;
  print "Decrypting segments..." ;;;
  ret (Py.hex key_bytes, fst parsed, snd parsed).

(** [process_task_body] from decryption on. *)
Definition from_decrypt
    (aes_cbc_decrypt : string -> string -> string -> outcome)
    (ffmpeg_concat : Os.filesystem -> list string -> option string)
    (task : Task) (x : string * string * list string) : M string :=
  decrypt_segments aes_cbc_decrypt task (snd (fst x)) (fst (fst x)) (snd x) ;;;
  task_file_list <- create_file_list task ;;
  print ("Creating " +++ output_file task) ;;;
  run_ffmpeg ffmpeg_concat task_file_list (output_file task) ;;;
  ret (output_file task).

(** *** Events *)

Definition processing_line (task : Task) : event :=
  Print (NL +++ "Processing " +++ base_name task +++ " " +++ version task).

(** The line of an event that is printed, without the text of the
    exception when it ends with one. *)
Definition printed (e : event) : option string :=
  match e with
  | Print s | PrintExn s _ => Some s
  | _ => None
  end.

Definition is_processing (e : event) : bool :=
  match printed e with
  | Some s => Py.startswith (NL +++ "Processing ") s
  | None => false
  end.

(** The record of a failed task: the line that names the task by its base
    name and version and ends with the text of the exception. *)
Definition failure_record (task : Task) (e : exn) : event :=
  PrintExn ("Failed to process " +++ base_name task +++ " "
            +++ version task +++ ": ") e.

Definition is_get (e : event) : bool :=
  match e with HttpGet _ => true | _ => false end.

(** Events that are neither the opening line of a task nor the report of
    its failure. *)
Definition inner (e : event) : Prop :=
  match printed e with
  | Some s =>
      Py.startswith (NL +++ "Processing ") s = false /\
      Py.startswith "Failed to process " s = false
  | None => True
  end.

Definition any_event (e : event) : Prop := True.

(** The two lines [main] prints while cleaning up. *)
Definition cleanup_lines : list event :=
  [Print (NL +++ "Performing final cleanup..."); Print "Cleanup completed"].

(** *** Effects *)

(** Running [m] from [w] keeps the filesystem property [I] and adds to the
    log only events that satisfy [Q]. *)
Definition respects_at {A} (I : Os.filesystem -> Prop) (Q : event -> Prop)
    (m : M A) (w : world) : Prop :=
  I (fs w) ->
  I (fs (snd (m w))) /\
  exists d, log (snd (m w)) = log w ++ d /\ Forall Q d.

Definition respects {A} (I : Os.filesystem -> Prop) (Q : event -> Prop)
    (m : M A) : Prop :=
  forall w, respects_at I Q m w.

(** *** The workspace *)

(** The filesystem after [main] has reset the workspace. *)
Definition reset (f : Os.filesystem) : Os.filesystem :=
  Os.rmtree base_dir f ++ [(base_dir, Os.Dir)].

(** The filesystem the final cleanup leaves. *)
Definition cleaned (f : Os.filesystem) : Os.filesystem :=
  if Os.path_exists f base_dir then Os.rmtree base_dir f else f.

(** No regular file stands where the workspace goes. *)
Definition workspace_free (f : Os.filesystem) : Prop :=
  Os.is_file f base_dir = false.

(** *** Sample inputs *)

(** Collaborators: every request answers with its URL, decryption and
    concatenation succeed, and the futures complete last first. *)
Definition sample_fetch (url : string) : exn + string := inr url.
Definition sample_decrypt (key_hex iv data : string) : outcome :=
  Decrypted data.
Definition sample_ffmpeg (f : Os.filesystem) (argv : list string)
  : option string := Some "video".
Definition last_first (l : list (nat * string)) : list (nat * string) :=
  rev l.
Definition sample_resolve (file : string) : string := file.
Definition sample_size (n : Os.node) : string := "0.00".

Definition url_a : string := "http://host/a.ts?x=1".
Definition url_b : string := "http://host/b.ts?x=2".

(** A request that fails for one URL. *)
Definition flaky_fetch (url : string) : exn + string :=
  if (url =? url_b)%string
  then inl (RequestException "404 Client Error")
  else inr url.

(** A well-formed playlist of two segments. *)
Definition sample_playlist : string :=
  "#EXTM3U" +++ NL
  +++ "#EXT-X-KEY:METHOD=AES-128,URI=" +++ String dquote "k"
  +++ String dquote ",IV=" +++ String dquote "0XAB" +++ String dquote NL
  +++ "http://host/a.ts?x=1" +++ NL
  +++ "  http://host/b.ts?x=2 " +++ NL.

(** A playlist without any key declaration. *)
Definition no_key_playlist : string := "http://host/a.ts?x=1" +++ NL.

(** A playlist whose only [IV] attribute is empty. *)
Definition empty_iv_playlist : string :=
  "#EXT-X-KEY:METHOD=AES-128,IV=" +++ String dquote "0x" +++ String dquote NL
  +++ "http://host/a.ts?x=1" +++ NL.

Definition empty_iv_attr : string :=
  "IV=" +++ String dquote "0x" +++ String dquote "".

(** A key declaration whose URI carries the segment marker. *)
Definition marker_in_key_line : string :=
  "#EXT-X-KEY:METHOD=AES-128,URI=https://host/key.ts?token=1,IV=0x01".

(** An empty [IV] attribute followed by a key declaration with a proper
    one. *)
Definition empty_then_proper_iv : string :=
  "#EXT-X-KEY:METHOD=AES-128,IV=" +++ String dquote (String dquote "")
  +++ NL +++ "#EXT-X-KEY:METHOD=AES-128,IV=0x1234" +++ NL.

Definition task_a : Task :=
  make_task "a" "1.0" "inputfiles/a1.0.m3u8" "inputfiles/a1.0.bin".

Definition task_b : Task :=
  make_task "b" "1.0" "inputfiles/b1.0.m3u8" "inputfiles/b1.0.bin".

Definition task_1 : Task :=
  make_task "a" "1.0" "inputfiles/a1.0.m3u8" "inputfiles/a1.0.bin".

Definition task_2 : Task :=
  make_task "a" "2.0" "inputfiles/a2.0.m3u8" "inputfiles/a2.0.bin".

(** Two playlists with the same version label and different base names,
    each with its key file. *)
Definition same_version_fs : Os.filesystem :=
  [("inputfiles", Os.Dir);
   ("inputfiles/a1.0.m3u8", Os.File "");
   ("inputfiles/a1.0.bin", Os.File "");
   ("inputfiles/b1.0.m3u8", Os.File "");
   ("inputfiles/b1.0.bin", Os.File "")].

(** An input directory with one playlist and its key. *)
Definition sample_world : world :=
  World [("inputfiles", Os.Dir);
         ("inputfiles/a1.0.m3u8", Os.File sample_playlist);
         ("inputfiles/a1.0.bin", Os.File "K")] [].

Definition empty_iv_world : world :=
  World [("pl", Os.File empty_iv_playlist)] [].

(** An input directory with a playlist that cannot be parsed and one that
    can, and a workspace left over from an earlier run. *)
Definition two_tasks_world : world :=
  World [("inputfiles", Os.Dir);
         ("inputfiles/a1.0.m3u8", Os.File no_key_playlist);
         ("inputfiles/a1.0.bin", Os.File "K");
         ("inputfiles/a2.0.m3u8", Os.File sample_playlist);
         ("inputfiles/a2.0.bin", Os.File "K");
         ("processing", Os.Dir)] [].

(** An input directory in which one playlist has no key file and another
    has a name outside the pattern. *)
Definition missing_key_world : world :=
  World [("inputfiles", Os.Dir);
         ("inputfiles/notes.m3u8", Os.File "");
         ("inputfiles/a1.0.m3u8", Os.File sample_playlist);
         ("inputfiles/a2.0.m3u8", Os.File sample_playlist);
         ("inputfiles/a2.0.bin", Os.File "K")] [].

(** An input directory with every key file in place and one playlist whose
    name is outside the pattern. *)
Definition odd_name_world : world :=
  World [("inputfiles", Os.Dir);
         ("inputfiles/notes.m3u8", Os.File "");
         ("inputfiles/a2.0.m3u8", Os.File sample_playlist);
         ("inputfiles/a2.0.bin", Os.File "K")] [].

(** A world in which the download directory of [task_2] is in place. *)
Definition download_ready_world : world :=
  World [("processing", Os.Dir);
         ("processing/downloaded_2.0", Os.Dir)] [].

(** A decrypt directory whose segment files are enumerated out of order. *)
Definition unordered_world : world :=
  World [("processing", Os.Dir);
         ("processing/decrypted_1.0", Os.Dir);
         ("processing/decrypted_1.0/segment3.ts", Os.File "c");
         ("processing/decrypted_1.0/segment1.ts", Os.File "a");
         ("processing/decrypted_1.0/segment2.ts", Os.File "b")] [].

(** *** Further vocabulary *)

(** A task as [find_tasks] builds them from a file name: the base name has
    no slash. *)
Definition found (t : Task) : Prop :=
  exists b v p k,
    dotted_version v /\ avoids "/" b = true /\ t = make_task b v p k.

(** The text with every line feed preceded by a carriage return. *)
Fixpoint crlf (s : string) : string :=
  match s with
  | EmptyString => EmptyString
  | String c r =>
      if Ascii.eqb c Py.nl then String Py.cr (String Py.nl (crlf r))
      else String c (crlf r)
  end.

Definition is_run (e : event) : bool :=
  match e with Run _ => true | _ => false end.

Definition is_failed (e : event) : bool :=
  match printed e with
  | Some s => Py.startswith "Failed to process " s
  | None => false
  end.

Definition no_event (e : event) : Prop := False.

(** What a path holds after one attempt to store [content] there. *)
Definition stored (f : Os.filesystem) (path : string) (r : exn + string)
  : option Os.node :=
  match r with
  | inr content =>
      match Os.lookup f path with
      | Some Os.Dir => Some Os.Dir
      | _ => if parent_ok f path then Some (Os.File content)
             else Os.lookup f path
      end
  | inl _ => Os.lookup f path
  end.

(** The last of the characters [l] is a decimal digit. *)
Definition last_is_digit (l : list string) : bool :=
  match rev l with
  | c :: _ => Py.is_digit c
  | [] => false
  end.

(** The Arabic-Indic digit three, U+0663. *)
Definition arabic_three : string :=
  String (ascii_of_nat 217) (String (ascii_of_nat 163) "").

(** The Arabic-Indic digit four, U+0664. *)
Definition arabic_four : string :=
  String (ascii_of_nat 217) (String (ascii_of_nat 164) "").

(** The no-break space, U+00A0. *)
Definition no_break_space : string :=
  String (ascii_of_nat 194) (String (ascii_of_nat 160) "").

Definition nonempty (s : string) : bool := negb (s =? "")%string.

(** The futures complete in the order of submission. *)
Definition in_order (l : list (nat * string)) : list (nat * string) := l.

(** A world in which the download directory of [task_2] is in place and
    holds a file that is no segment. *)
Definition download_notes_world : world :=
  World [("processing", Os.Dir);
         ("processing/downloaded_2.0", Os.Dir);
         ("processing/downloaded_2.0/notes.txt", Os.File "n")] [].

(** A workspace in which both segments of [task_2] are downloaded and the
    decrypt directory is empty. *)
Definition decrypt_ready_world : world :=
  World [("processing", Os.Dir);
         ("processing/downloaded_2.0", Os.Dir);
         ("processing/decrypted_2.0", Os.Dir);
         ("processing/downloaded_2.0/segment1.ts", Os.File "b");
         ("processing/downloaded_2.0/segment0.ts", Os.File "a")] [].

(** An input directory whose playlist has no key file beside it, seen by a
    task that was built for it all the same. *)
Definition keyless_world : world :=
  World [("inputfiles", Os.Dir);
         ("inputfiles/a2.0.m3u8", Os.File sample_playlist)] [].

(** The line of the report for an output file that holds [data]. *)
Definition created_line (resolve : string -> string)
    (size_mb : Os.node -> string) (file data : string) : event :=
  Print ("- " +++ resolve file +++ " (" +++ size_mb (Os.File data) +++ " MB)").

(** An input directory in which no playlist follows the naming pattern. *)
Definition no_task_world : world :=
  World [("inputfiles", Os.Dir);
         ("inputfiles/notes.m3u8", Os.File "");
         ("inputfiles/1.5.m3u8", Os.File sample_playlist);
         ("inputfiles/1.5.bin", Os.File "K")] [].

(** [two_tasks_world] after its first task has failed on its playlist. *)
Definition failed_task_world : world :=
  World [("inputfiles", Os.Dir);
         ("inputfiles/a1.0.m3u8", Os.File no_key_playlist);
         ("inputfiles/a1.0.bin", Os.File "K");
         ("inputfiles/a2.0.m3u8", Os.File sample_playlist);
         ("inputfiles/a2.0.bin", Os.File "K");
         ("processing", Os.Dir);
         ("processing/downloaded_1.0", Os.Dir);
         ("processing/decrypted_1.0", Os.Dir)]
        [Print (NL +++ "Processing a 1.0")].

(** A playlist of one segment. *)
Definition one_segment_playlist : string :=
  "#EXT-X-KEY:METHOD=AES-128,IV=0x01" +++ NL +++ "http://host/c.ts?x=3" +++ NL.

(** An input directory with a playlist of two segments and one of one
    segment that carry the same version label. *)
Definition shared_version_world : world :=
  World [("inputfiles", Os.Dir);
         ("inputfiles/a1.0.m3u8", Os.File sample_playlist);
         ("inputfiles/a1.0.bin", Os.File "K");
         ("inputfiles/b1.0.m3u8", Os.File one_segment_playlist);
         ("inputfiles/b1.0.bin", Os.File "K");
         ("processing", Os.Dir)] [].

(** A muxer whose output is the list it was given. *)
Definition list_reader (f : Os.filesystem) (argv : list string)
  : option string :=
  match Os.lookup f (nth 9 argv "") with
  | Some (Os.File d) => Some d
  | _ => None
  end.

(** * Facts about strings *)

Ltac bool_hyps :=
  repeat match goal with
  | H : (_ && _)%bool = true |- _ => apply andb_prop in H; destruct H
  | H : (_ || _)%bool = true |- _ => apply orb_prop in H; destruct H
  | H : (_ && _)%bool = false |- _ => apply andb_false_iff in H; destruct H
  | H : (_ || _)%bool = false |- _ => apply orb_false_iff in H; destruct H
  | H : negb _ = true |- _ => apply negb_true_iff in H
  | H : negb _ = false |- _ => apply negb_false_iff in H
  | H : Py.between _ _ _ = _ |- _ => unfold Py.between in H
  | H : Py.is_cont _ = _ |- _ => unfold Py.is_cont in H
  | H : (_ <=? _)%N = true |- _ => apply N.leb_le in H
  | H : (_ <=? _)%N = false |- _ => apply N.leb_gt in H
  | H : (_ =? _)%N = true |- _ => apply N.eqb_eq in H
  | H : (_ =? _)%N = false |- _ => apply N.eqb_neq in H
  | H : (_ <? _)%N = true |- _ => apply N.ltb_lt in H
  | H : (_ <? _)%N = false |- _ => apply N.ltb_ge in H
  end.

Ltac bool_false :=
  apply Bool.not_true_is_false; intros ?;
  unfold Py.seq4, Py.seq3, Py.seq2, Py.second3, Py.second4 in *;
  bool_hyps; lia.

Section StringFacts.

Lemma append_assoc (a b c : string) : (a +++ b) +++ c = a +++ (b +++ c).
Proof. induction a as [|x a IH]; simpl; [reflexivity | now rewrite IH]. Qed.

Lemma append_nil_r (a : string) : a +++ "" = a.
Proof. induction a as [|x a IH]; simpl; [reflexivity | now rewrite IH]. Qed.

Lemma append_snoc (a : string) (c : ascii) (r : string) :
  (a +++ String c "") +++ r = a +++ String c r.
Proof. now rewrite append_assoc. Qed.

Lemma prefix_nil (s : string) : String.prefix "" s = true.
Proof. destruct s; reflexivity. Qed.

Lemma prefix_cons (a b : ascii) (p s : string) :
  String.prefix (String a p) (String b s)
  = (Ascii.eqb a b && String.prefix p s)%bool.
Proof.
  simpl. destruct (ascii_dec a b) as [->|n].
  - now rewrite Ascii.eqb_refl.
  - apply Ascii.eqb_neq in n. now rewrite n.
Qed.

Lemma prefix_app (p s : string) : String.prefix p (p +++ s) = true.
Proof.
  induction p as [|a p IH]; simpl.
  - apply prefix_nil.
  - destruct (ascii_dec a a); congruence.
Qed.

Lemma string_eqb_cons (a b : ascii) (s t : string) :
  (String a s =? String b t)%string = (Ascii.eqb a b && (s =? t)%string)%bool.
Proof. simpl. destruct (Ascii.eqb a b); reflexivity. Qed.

(** ** Characters *)

Lemma join_app (l1 l2 : list string) :
  Py.join (l1 ++ l2) = Py.join l1 +++ Py.join l2.
Proof.
  induction l1 as [|c l1 IH]; simpl; [reflexivity|].
  now rewrite IH, append_assoc.
Qed.

(** A byte of the 7-bit range starts no sequence of several bytes. *)
Lemma lead_ascii (a b : ascii) :
  (Py.code a < 128)%N ->
  Py.seq2 a b = false /\ Py.second3 a b = false /\ Py.second4 a b = false.
Proof. intros H. repeat split; bool_false. Qed.

(** Every byte after the first of a sequence is a continuation byte. *)
Lemma cont_needed (a b : ascii) :
  Py.is_cont b = false ->
  Py.seq2 a b = false /\ Py.second3 a b = false /\ Py.second4 a b = false.
Proof. intros H. repeat split; bool_false. Qed.

Lemma second3_not_seq2 (a b : ascii) :
  Py.second3 a b = true -> Py.seq2 a b = false.
Proof. intros H. bool_false. Qed.

Lemma second4_not_other (a b : ascii) :
  Py.second4 a b = true -> Py.seq2 a b = false /\ Py.second3 a b = false.
Proof. intros H. split; bool_false. Qed.

Lemma chars_eq (a : ascii) (r1 : string) :
  Py.chars (String a r1) =
  match r1 with
  | String b r2 =>
      if Py.seq2 a b then String a (String b "") :: Py.chars r2
      else
        match r2 with
        | String c r3 =>
            if Py.seq3 a b c
            then String a (String b (String c "")) :: Py.chars r3
            else
              match r3 with
              | String d r4 =>
                  if Py.seq4 a b c d
                  then String a (String b (String c (String d "")))
                       :: Py.chars r4
                  else String a "" :: Py.chars r1
              | EmptyString => String a "" :: Py.chars r1
              end
        | EmptyString => String a "" :: Py.chars r1
        end
  | EmptyString => [String a ""]
  end.
Proof. destruct r1; reflexivity. Qed.

Lemma chars_single (a : ascii) (r : string) :
  single a r = true -> Py.chars (String a r) = String a "" :: Py.chars r.
Proof.
  intros H. rewrite chars_eq.
  destruct r as [|b r2]; [reflexivity|].
  cbn [single] in H. apply andb_prop in H as [H2 H].
  apply negb_true_iff in H2. rewrite H2.
  destruct r2 as [|c r3]; [reflexivity|].
  apply andb_prop in H as [H3 H]. apply negb_true_iff in H3. rewrite H3.
  destruct r3 as [|d r4]; [reflexivity|].
  apply negb_true_iff in H. now rewrite H.
Qed.

Lemma single_ascii (a : ascii) (r : string) :
  (Py.code a < 128)%N -> single a r = true.
Proof.
  intros H. unfold single, Py.seq3, Py.seq4.
  destruct r as [|b [|c [|d r]]]; try reflexivity;
    destruct (lead_ascii a b H) as (E2 & E3 & E4);
    rewrite ?E2, ?E3, ?E4; reflexivity.
Qed.

(** A character in its well-formed encoding is read as one character. *)
Lemma chars_char (c t : string) :
  Py.is_char c = true -> Py.chars (c +++ t) = c :: Py.chars t.
Proof.
  destruct c as [|a [|b [|c' [|d [|e r]]]]]; cbn [Py.is_char];
    try discriminate; intros H.
  - apply N.ltb_lt in H. apply chars_single, single_ascii, H.
  - cbn [String.append]. rewrite chars_eq. now rewrite H.
  - cbn [String.append]. rewrite chars_eq.
    unfold Py.seq3 in H. apply andb_prop in H as [H3 Hc].
    rewrite (second3_not_seq2 _ _ H3). unfold Py.seq3. now rewrite H3, Hc.
  - cbn [String.append]. rewrite chars_eq.
    unfold Py.seq4 in H. apply andb_prop in H as [H Hd].
    apply andb_prop in H as [H4 Hc].
    destruct (second4_not_other _ _ H4) as [-> E3].
    unfold Py.seq3, Py.seq4. now rewrite E3, H4, Hc, Hd.
Qed.

(** Induction over a string character by character. *)
Lemma chars_ind (P : string -> Prop) :
  P "" ->
  (forall c t, Py.is_char c = true -> P t -> P (c +++ t)) ->
  (forall a t, single a t = true -> P t -> P (String a t)) ->
  forall s, P s.
Proof.
  intros H0 Hc Hs s.
  assert (H : forall n s, String.length s <= n -> P s).
  { clear s. induction n as [|n IH]; intros s Hl.
    - destruct s; [exact H0 | simpl in Hl; lia].
    - destruct s as [|a r]; [exact H0|]. simpl in Hl.
      destruct (single a r) eqn:E; [apply Hs; [exact E | apply IH; lia]|].
      destruct r as [|b r2]; [discriminate E|]. cbn [single] in E.
      destruct (Py.seq2 a b) eqn:E2.
      { apply (Hc (String a (String b "")) r2 E2). apply IH. simpl in Hl. lia. }
      destruct r2 as [|c r3]; [discriminate E|].
      destruct (Py.seq3 a b c) eqn:E3.
      { apply (Hc (String a (String b (String c ""))) r3 E3).
        apply IH. simpl in Hl. lia. }
      destruct r3 as [|d r4]; [discriminate E|].
      destruct (Py.seq4 a b c d) eqn:E4; [|discriminate E].
      apply (Hc (String a (String b (String c (String d "")))) r4 E4).
      apply IH. simpl in Hl. lia. }
  apply (H (String.length s)). lia.
Qed.

(** The characters of a string, put together again, are the string. *)
Lemma chars_join (s : string) : Py.join (Py.chars s) = s.
Proof.
  induction s as [|c t Hc IH|a t Ha IH] using chars_ind.
  - reflexivity.
  - rewrite chars_char by assumption. simpl. now rewrite IH.
  - rewrite chars_single by assumption. simpl. now rewrite IH.
Qed.

Lemma chars_empty (s : string) : Py.chars s = [] -> s = "".
Proof. intros H. rewrite <- (chars_join s), H. reflexivity. Qed.

Lemma chars_elements (s c : string) : In c (Py.chars s) -> c <> "".
Proof.
  induction s as [|c' t Hc IH|a t Ha IH] using chars_ind.
  - intros [].
  - rewrite chars_char by assumption. intros [<-|H]; [|auto].
    intros ->. discriminate Hc.
  - rewrite chars_single by assumption. intros [<-|H]; [discriminate|auto].
Qed.

Lemma single_app (a : ascii) (t b : string) :
  single a t = true -> starts_char b = true -> single a (t +++ b) = true.
Proof.
  intros Ht Hb.
  assert (Hn : forall x y, b = String x y -> Py.is_cont x = false).
  { intros x y ->. now apply negb_true_iff in Hb. }
  destruct t as [|x [|y [|z t]]]; cbn [String.append]; [| | |exact Ht].
  - destruct b as [|b1 b']; [reflexivity|].
    destruct (cont_needed a b1 (Hn _ _ eq_refl)) as (E2 & E3 & E4).
    unfold single, Py.seq3, Py.seq4. rewrite E2, E3, E4.
    destruct b' as [|? [|? ?]]; reflexivity.
  - cbn [single] in Ht |- *. apply andb_prop in Ht as [-> _]. cbn [andb].
    destruct b as [|b1 b']; [reflexivity|].
    pose proof (Hn _ _ eq_refl) as E.
    unfold Py.seq3, Py.seq4. rewrite E, !andb_false_r.
    destruct b'; reflexivity.
  - cbn [single] in Ht |- *. apply andb_prop in Ht as [-> Ht].
    apply andb_prop in Ht as [-> _]. cbn [andb].
    destruct b as [|b1 b']; [reflexivity|].
    pose proof (Hn _ _ eq_refl) as E.
    unfold Py.seq4. now rewrite E, !andb_false_r.
Qed.

(** The characters of [a + b], where [b] starts a character. *)
Lemma chars_app (a b : string) :
  starts_char b = true -> Py.chars (a +++ b) = Py.chars a ++ Py.chars b.
Proof.
  intros Hb. induction a as [|c t Hc IH|x t Hx IH] using chars_ind.
  - reflexivity.
  - rewrite append_assoc, (chars_char c (t +++ b) Hc), (chars_char c t Hc).
    now rewrite IH.
  - cbn [String.append]. rewrite (chars_single x (t +++ b))
      by (apply single_app; assumption).
    rewrite chars_single by assumption. now rewrite IH.
Qed.

Lemma chars_join_app (l : list string) (b : string) :
  forallb Py.is_char l = true -> Py.chars (Py.join l +++ b) = l ++ Py.chars b.
Proof.
  induction l as [|c l IH]; intros H; [reflexivity|].
  cbn [forallb] in H. apply andb_prop in H as [Hc Hl].
  cbn [Py.join]. rewrite append_assoc, (chars_char c _ Hc).
  now rewrite IH.
Qed.

Lemma chars_of_join (l : list string) :
  forallb Py.is_char l = true -> Py.chars (Py.join l) = l.
Proof.
  intros H. rewrite <- (append_nil_r (Py.join l)), chars_join_app by assumption.
  apply app_nil_r.
Qed.

Lemma chars_cons_ascii (a : ascii) (r : string) :
  (Py.code a <? 128)%N = true ->
  Py.chars (String a r) = String a "" :: Py.chars r.
Proof. intros H. apply (chars_char (String a "") r). exact H. Qed.

Lemma chars_ascii (s : string) :
  ascii_only s = true ->
  Py.chars s = map (fun a => String a "") (list_ascii_of_string s).
Proof.
  induction s as [|a s IH]; [reflexivity|]. cbn [ascii_only]. intros H.
  apply andb_prop in H as [Ha Hs]. rewrite chars_cons_ascii by exact Ha.
  cbn [list_ascii_of_string map]. now rewrite IH.
Qed.

Lemma avoids_app (x : ascii) (a b : string) :
  avoids x (a +++ b) = (avoids x a && avoids x b)%bool.
Proof.
  induction a as [|c a IH]; simpl; [reflexivity|].
  now rewrite IH, andb_assoc.
Qed.

Lemma avoids_join (a : ascii) (l : list string) :
  (forall c, In c l -> avoids a c = true) -> avoids a (Py.join l) = true.
Proof.
  induction l as [|c l IH]; intros H; [reflexivity|].
  cbn [Py.join]. rewrite avoids_app, (H c (or_introl eq_refl)).
  apply IH. intros c' Hc'. apply H. now right.
Qed.

(** ** Decimal digits *)

Lemma digit_is_char (c : string) : Py.is_digit c = true -> Py.is_char c = true.
Proof.
  unfold Py.is_digit, Py.decimal. destruct (Py.is_char c); [reflexivity|].
  discriminate.
Qed.

Lemma digit_decimal (c : string) :
  Py.is_digit c = true -> Py.decimal c = Some (Py.digit_val c).
Proof.
  unfold Py.is_digit, Py.digit_val. destruct (Py.decimal c); [reflexivity|].
  discriminate.
Qed.

Lemma all_digits_chars (s : string) :
  all_digits s = true -> forallb Py.is_char (Py.chars s) = true.
Proof.
  unfold all_digits. rewrite !forallb_forall. intros H c Hc.
  apply digit_is_char, H, Hc.
Qed.

(** The bytes of a character other than the 7-bit character [a] all differ
    from [a]. *)
Lemma char_avoids (a : ascii) (c : string) :
  Py.is_char c = true -> (Py.code a < 128)%N -> c <> String a "" ->
  avoids a c = true.
Proof.
  assert (Hne : forall x, Py.code x <> Py.code a -> Ascii.eqb x a = false).
  { intros x Hx. apply Ascii.eqb_neq. intros ->. now apply Hx. }
  destruct c as [|x [|y [|z [|u [|v r]]]]]; cbn [Py.is_char];
    try discriminate; intros H Ha Hc; cbn [avoids].
  - destruct (Ascii.eqb x a) eqn:E; [|reflexivity].
    apply Ascii.eqb_eq in E. congruence.
  - unfold Py.seq2 in H. bool_hyps.
    rewrite !Hne by lia. reflexivity.
  - unfold Py.seq3, Py.second3 in H. bool_hyps;
      rewrite !Hne by lia; reflexivity.
  - unfold Py.seq4, Py.second4 in H. bool_hyps;
      rewrite !Hne by lia; reflexivity.
Qed.

Lemma digit_avoids (a : ascii) (c : string) :
  non_digit a = true -> Py.is_digit c = true -> avoids a c = true.
Proof.
  unfold non_digit. intros Ha Hc. apply andb_prop in Ha as [Ha Hd].
  apply N.ltb_lt in Ha. apply negb_true_iff in Hd.
  apply char_avoids; [apply digit_is_char, Hc | exact Ha | congruence].
Qed.

(** A run of digits holds no 7-bit character that is not a digit. *)
Lemma all_digits_avoids (a : ascii) (s : string) :
  non_digit a = true -> all_digits s = true -> avoids a s = true.
Proof.
  intros Ha Hs. rewrite <- (chars_join s). apply avoids_join.
  intros c Hc. apply digit_avoids; [exact Ha|].
  unfold all_digits in Hs. rewrite forallb_forall in Hs. auto.
Qed.

Lemma all_digits_app (a b : string) :
  all_digits a = true -> all_digits (a +++ b) = all_digits b.
Proof.
  intros Ha. unfold all_digits. rewrite <- (chars_join a) at 1.
  rewrite chars_join_app by apply all_digits_chars, Ha.
  rewrite forallb_app. unfold all_digits in Ha. now rewrite Ha.
Qed.

Lemma all_digits_join (l : list string) :
  forallb Py.is_digit l = true -> all_digits (Py.join l) = true.
Proof.
  intros H. unfold all_digits. rewrite chars_of_join; [exact H|].
  rewrite forallb_forall in *. intros c Hc. apply digit_is_char; auto.
Qed.

Lemma all_digits_cons_ascii (a : ascii) (r : string) :
  (Py.code a <? 128)%N = true ->
  all_digits (String a r) = (Py.is_digit (String a "") && all_digits r)%bool.
Proof. intros H. unfold all_digits. now rewrite chars_cons_ascii. Qed.

Lemma digits_value_cons_ascii (a : ascii) (r : string) (acc : Z) :
  (Py.code a <? 128)%N = true ->
  digits_value acc (String a r)
  = digits_value (10 * acc + Py.digit_val (String a "")) r.
Proof. intros H. unfold digits_value. now rewrite chars_cons_ascii. Qed.

Lemma digit_in_spec (zeros : list N) (n : N) (v : Z) :
  Py.digit_in zeros n = Some v ->
  exists z, In z zeros /\ (z <= n <= z + 9)%N.
Proof.
  induction zeros as [|z r IH]; [discriminate|]. cbn [Py.digit_in].
  destruct (Py.between z n (z + 9)) eqn:E.
  - intros _. exists z. split; [now left|]. bool_hyps. lia.
  - intros H. destruct (IH H) as (z' & Hin & Hz). exists z'. split; [now right|auto].
Qed.

Lemma space_code_spec (n : N) :
  Py.space_code n = true ->
  (9 <= n <= 13 \/ 28 <= n <= 32 \/ n = 133 \/ n = 160 \/ n = 5760
   \/ 8192 <= n <= 8202 \/ n = 8232 \/ n = 8233 \/ n = 8239 \/ n = 8287
   \/ n = 12288)%N.
Proof. unfold Py.space_code. intros H. bool_hyps; lia. Qed.

Lemma digit_code_not_space (z n : N) :
  In z Py.digit_zeros -> (z <= n <= z + 9)%N -> Py.space_code n = false.
Proof.
  intros Hin Hn. apply Bool.not_true_is_false. intros Hs.
  apply space_code_spec in Hs. unfold Py.digit_zeros in Hin. cbn [In] in Hin.
  repeat (destruct Hin as [<-|Hin]; [lia|]). exact Hin.
Qed.

(** No decimal digit is white space. *)
Lemma digit_not_space (c : string) :
  Py.is_digit c = true -> Py.is_space c = false.
Proof.
  intros H. unfold Py.is_space. rewrite (digit_is_char _ H). cbn [andb].
  unfold Py.is_digit, Py.decimal in H. rewrite (digit_is_char _ H) in H.
  destruct (Py.digit_in Py.digit_zeros (Py.ord c)) as [v|] eqn:E;
    [|discriminate].
  destruct (digit_in_spec _ _ _ E) as (z & Hin & Hz).
  exact (digit_code_not_space _ _ Hin Hz).
Qed.

Lemma lstrip_if_none (p : string -> bool) (l : list string) :
  (forall c, In c l -> p c = false) -> Py.lstrip_if p l = l.
Proof.
  destruct l as [|c l]; [reflexivity|]. intros H. cbn [Py.lstrip_if].
  now rewrite (H c (or_introl eq_refl)).
Qed.

Lemma strip_if_none (p : string -> bool) (l : list string) :
  (forall c, In c l -> p c = false) -> Py.strip_if p l = l.
Proof.
  intros H. unfold Py.strip_if, Py.rstrip_if.
  rewrite (lstrip_if_none p l H), lstrip_if_none; [apply rev_involutive|].
  intros c Hc. apply H. now apply in_rev.
Qed.

Lemma strip_digits (s : string) : all_digits s = true -> Py.strip s = s.
Proof.
  intros H. unfold Py.strip. rewrite strip_if_none; [apply chars_join|].
  intros c Hc. apply digit_not_space.
  unfold all_digits in H. rewrite forallb_forall in H. auto.
Qed.

Lemma int_digits_value (l : list string) (acc : Z) (st : bool) :
  forallb Py.is_digit l = true -> (l <> [] \/ st = true) ->
  Py.int_digits acc st l
  = Some (fold_left (fun a c => (10 * a + Py.digit_val c)%Z) l acc).
Proof.
  revert acc st. induction l as [|c l IH]; intros acc st Hd Hne; simpl.
  - destruct Hne as [Hne| ->]; [congruence | reflexivity].
  - simpl in Hd. apply andb_prop in Hd as [Hc Hs].
    rewrite (digit_decimal _ Hc). apply IH; auto.
Qed.

(** [int] of a non-empty run of digits is its value. *)
Lemma int_number (s : string) :
  number s -> Py.int s = Some (digits_value 0 s).
Proof.
  intros [Hd Hne]. unfold Py.int, digits_value.
  assert (Hl : Py.chars s <> []) by (intros E; apply Hne, chars_empty, E).
  unfold all_digits in Hd.
  rewrite strip_if_none.
  2:{ intros c Hc. unfold Py.int_space. rewrite digit_not_space; [reflexivity|].
      rewrite forallb_forall in Hd. auto. }
  rewrite <- (int_digits_value (Py.chars s) 0%Z false Hd) by (left; exact Hl).
  destruct (Py.chars s) as [|c l]; [congruence|].
  cbn [forallb] in Hd. apply andb_prop in Hd as [Hc _].
  destruct c as [|a c']; [reflexivity|].
  destruct a as [[] [] [] [] [] [] [] []]; destruct c'; try reflexivity;
    vm_compute in Hc; discriminate Hc.
Qed.

Lemma string_of_uint_ascii (d : Decimal.uint) :
  ascii_only (NilEmpty.string_of_uint d) = true.
Proof. induction d; simpl; auto. Qed.

Lemma string_of_uint_digits (d : Decimal.uint) :
  all_digits (NilEmpty.string_of_uint d) = true.
Proof.
  induction d; cbn [NilEmpty.string_of_uint]; [reflexivity|..];
    rewrite all_digits_cons_ascii by reflexivity; rewrite IHd; reflexivity.
Qed.

Lemma digits_value_uint (d : Decimal.uint) (acc : nat) :
  digits_value (Z.of_nat acc) (NilEmpty.string_of_uint d)
  = Z.of_nat (Nat.of_uint_acc d acc).
Proof.
  revert acc. induction d; intros acc;
    cbn [NilEmpty.string_of_uint Nat.of_uint_acc]; [reflexivity|..];
    rewrite digits_value_cons_ascii by reflexivity;
    rewrite <- IHd; f_equal; rewrite Nat.tail_mul_spec;
    match goal with
    | |- context [Py.digit_val ?c] =>
        let v := eval vm_compute in (Py.digit_val c) in
        change (Py.digit_val c) with v
    end; lia.
Qed.

(** A separator whose first character does not occur in [d] is not found
    inside [d]: the scan carries [d] over into the current piece. *)
Lemma split_go_avoids (a : ascii) (sep' : string) (ms : option nat)
    (d cur rest : string) :
  avoids a d = true ->
  Py.split_go (String a sep') ms 0 cur (d +++ rest)
  = Py.split_go (String a sep') ms 0 (cur +++ d) rest.
Proof.
  revert cur. induction d as [|c d IH]; intros cur Hd.
  - now rewrite append_nil_r.
  - simpl in Hd. apply andb_prop in Hd as [Hc Hd].
    apply negb_true_iff in Hc.
    change (String c d +++ rest) with (String c (d +++ rest)).
    cbn [Py.split_go].
    rewrite prefix_cons, Ascii.eqb_sym, Hc. cbn [andb].
    replace (cur +++ String c d) with ((cur +++ String c "") +++ d)
      by apply append_snoc.
    destruct ms as [[|n]|]; apply IH; assumption.
Qed.

Lemma split_go_skip (sep : string) (ms : option nat) (cur p rest : string) :
  Py.split_go sep ms (String.length p) cur (p +++ rest)
  = Py.split_go sep ms 0 cur rest.
Proof.
  induction p as [|c p IH]; simpl; [reflexivity | exact IH].
Qed.

Lemma split_go_end_avoids (a : ascii) (sep' : string) (ms : option nat)
    (d cur : string) :
  avoids a d = true ->
  Py.split_go (String a sep') ms 0 cur d = [cur +++ d].
Proof.
  intros H. rewrite <- (append_nil_r d) at 1.
  now rewrite split_go_avoids.
Qed.

(** [major.minor] splits at its dot into the two numbers. *)
Lemma split_dotted (major minor : string) :
  all_digits major = true -> all_digits minor = true ->
  Py.split "." None (major +++ "." +++ minor) = [major; minor].
Proof.
  intros H1 H2. unfold Py.split.
  rewrite split_go_avoids by (apply all_digits_avoids; [reflexivity|assumption]).
  simpl. rewrite prefix_nil.
  now rewrite split_go_end_avoids
    by (apply all_digits_avoids; [reflexivity|assumption]).
Qed.


Lemma str_ascii (n : nat) : ascii_only (Py.str n) = true.
Proof. apply string_of_uint_ascii. Qed.

Lemma str_digits (n : nat) : all_digits (Py.str n) = true.
Proof. apply string_of_uint_digits. Qed.

Lemma str_value (n : nat) : digits_value 0 (Py.str n) = Z.of_nat n.
Proof.
  unfold Py.str. change 0%Z with (Z.of_nat 0).
  rewrite digits_value_uint. f_equal. apply DecimalNat.Unsigned.of_to.
Qed.

Lemma str_nonempty (n : nat) : Py.str n <> "".
Proof.
  unfold Py.str. intros H.
  assert (Hu : Nat.to_uint n = Decimal.Nil).
  { destruct (Nat.to_uint n); simpl in H; try discriminate; reflexivity. }
  pose proof (DecimalNat.Unsigned.to_of (Nat.to_uint n)) as Hn.
  rewrite DecimalNat.Unsigned.of_to in Hn. rewrite Hu in Hn.
  discriminate Hn.
Qed.

Lemma str_number (n : nat) : number (Py.str n).
Proof. split; [apply str_digits | apply str_nonempty]. Qed.

(** [int(str(n)) = n] *)
Lemma int_str (n : nat) : Py.int (Py.str n) = Some (Z.of_nat n).
Proof. rewrite int_number by apply str_number. now rewrite str_value. Qed.

Lemma str_inj (n m : nat) : Py.str n = Py.str m -> n = m.
Proof.
  intros H. apply (f_equal Py.int) in H. rewrite !int_str in H.
  injection H. lia.
Qed.

End StringFacts.

(** * Facts about [sorted] *)

Section SortedFacts.

Variables (A K : Type).
Variable key : A -> exn + K.
Variable lt : K -> K -> bool.

Hypothesis lt_asym : forall a b, lt a b = true -> lt b a = false.
Hypothesis ge_trans :
  forall a b c, lt b a = false -> lt c b = false -> lt c a = false.

(** [a] may stand before [b]: [b < a] does not hold. *)
Definition keys_ordered (a b : K * A) : Prop := lt (fst b) (fst a) = false.

Lemma insert_perm (x : K * A) (l : list (K * A)) :
  Permutation (insert lt x l) (x :: l).
Proof.
  induction l as [|y l IH]; simpl; [apply Permutation_refl|].
  destruct (lt (fst y) (fst x)).
  - eapply perm_trans; [apply perm_skip, IH | apply perm_swap].
  - apply Permutation_refl.
Qed.

Lemma insert_sorted (x : K * A) (l : list (K * A)) :
  StronglySorted keys_ordered l -> StronglySorted keys_ordered (insert lt x l).
Proof.
  induction 1 as [|y l Hs IH Hy]; simpl.
  - constructor; constructor.
  - destruct (lt (fst y) (fst x)) eqn:E.
    + constructor; [exact IH|].
      eapply Permutation_Forall; [apply Permutation_sym, insert_perm|].
      constructor; [|exact Hy]. unfold keys_ordered. now apply lt_asym.
    + constructor; [constructor; assumption|].
      constructor; [exact E|].
      eapply Forall_impl; [|exact Hy].
      intros z Hz. unfold keys_ordered in *. eapply ge_trans; eassumption.
Qed.

Lemma sort_keyed_perm (l : list (K * A)) : Permutation (sort_keyed lt l) l.
Proof.
  induction l as [|x l IH]; simpl; [constructor|].
  eapply perm_trans; [apply insert_perm | now apply perm_skip].
Qed.

Lemma sort_keyed_sorted (l : list (K * A)) :
  StronglySorted keys_ordered (sort_keyed lt l).
Proof.
  induction l as [|x l IH]; simpl; [constructor | now apply insert_sorted].
Qed.

Lemma keyed_spec (l : list A) (kl : list (K * A)) :
  keyed key l = inr kl ->
  map snd kl = l /\ Forall (fun p => key (snd p) = inr (fst p)) kl.
Proof.
  revert kl. induction l as [|x l IH]; intros kl; simpl.
  - intros H. injection H as <-. split; constructor.
  - destruct (key x) as [e|k] eqn:Ek; [discriminate|].
    destruct (keyed key l) as [e|kr]; [discriminate|].
    intros H. injection H as <-. destruct (IH kr eq_refl) as [Hm Hf].
    split; simpl; [now rewrite Hm | constructor; assumption].
Qed.

Lemma keyed_total (l : list A) :
  Forall (fun x => exists k, key x = inr k) l -> exists kl, keyed key l = inr kl.
Proof.
  induction 1 as [|x l [k Hk] _ [kl IH]]; simpl; [now eexists|].
  rewrite Hk, IH. now eexists.
Qed.

Lemma keyed_error (l : list A) (e : exn) :
  keyed key l = inl e -> exists x, In x l /\ key x = inl e.
Proof.
  induction l as [|x l IH]; simpl; [discriminate|].
  destruct (key x) as [e'|k] eqn:Ek.
  - intros H. injection H as <-. exists x. auto.
  - destruct (keyed key l) as [e'|kr]; [|discriminate].
    intros H. injection H as <-. destruct (IH eq_refl) as [y [Hy Hk]].
    exists y. auto.
Qed.

(** Two elements in the order their keys allow. *)
Definition ordered_by_key (a b : A) : Prop :=
  exists ka kb, key a = inr ka /\ key b = inr kb /\ lt kb ka = false.

Lemma sorted_map_snd (kl : list (K * A)) :
  Forall (fun p => key (snd p) = inr (fst p)) kl ->
  StronglySorted keys_ordered kl ->
  StronglySorted ordered_by_key (map snd kl).
Proof.
  intros Hk Hs. induction Hs as [|p kl Hs IH Hp]; simpl; [constructor|].
  inversion Hk as [|? ? Hkp Hkl]; subst.
  constructor; [now apply IH|].
  rewrite Forall_map. rewrite Forall_forall in *.
  intros q Hq. exists (fst p), (fst q). repeat split; auto.
  now apply Hp.
Qed.

(** [sorted] returns a rearrangement of its argument in key order. *)
Lemma sorted_spec (l l' : list A) :
  sorted key lt l = inr l' ->
  Permutation l' l /\ StronglySorted ordered_by_key l'.
Proof.
  unfold sorted. destruct (keyed key l) as [e|kl] eqn:E; [discriminate|].
  intros H. injection H as <-.
  destruct (keyed_spec _ _ E) as [Hm Hf]. split.
  - rewrite <- Hm. apply Permutation_map, sort_keyed_perm.
  - apply sorted_map_snd; [|apply sort_keyed_sorted].
    eapply Permutation_Forall; [apply Permutation_sym, sort_keyed_perm|].
    exact Hf.
Qed.

Lemma sorted_total (l : list A) :
  Forall (fun x => exists k, key x = inr k) l ->
  exists l', sorted key lt l = inr l'.
Proof.
  intros H. destruct (keyed_total _ H) as [kl E].
  unfold sorted. rewrite E. now eexists.
Qed.

Lemma sorted_error (l : list A) (e : exn) :
  sorted key lt l = inl e -> exists x, In x l /\ key x = inl e.
Proof.
  unfold sorted. destruct (keyed key l) as [e'|kl] eqn:E; [|discriminate].
  intros H. injection H as <-. now apply keyed_error.
Qed.

End SortedFacts.

Lemma list_lt_irrefl (a : list Z) : Py.list_lt a a = false.
Proof.
  induction a as [|x a IH]; simpl; [reflexivity|].
  rewrite Z.ltb_irrefl, Z.eqb_refl, IH. reflexivity.
Qed.

Lemma list_lt_asym (a b : list Z) :
  Py.list_lt a b = true -> Py.list_lt b a = false.
Proof.
  revert b. induction a as [|x a IH]; intros [|y b]; simpl; auto.
  intros H. apply orb_true_iff in H as [H|H].
  - apply Z.ltb_lt in H.
    replace (y <? x)%Z with false by (symmetry; apply Z.ltb_ge; lia).
    replace (y =? x)%Z with false by (symmetry; apply Z.eqb_neq; lia).
    reflexivity.
  - apply andb_prop in H as [E H]. apply Z.eqb_eq in E. subst y.
    rewrite Z.ltb_irrefl, Z.eqb_refl. simpl. auto.
Qed.

Lemma list_lt_ge_trans (a b c : list Z) :
  Py.list_lt b a = false -> Py.list_lt c b = false -> Py.list_lt c a = false.
Proof.
  revert b c. induction a as [|x a IH]; intros [|y b] [|z c]; simpl; auto;
    try discriminate.
  intros H1 H2.
  apply orb_false_iff in H1 as [L1 E1]. apply orb_false_iff in H2 as [L2 E2].
  apply Z.ltb_ge in L1, L2.
  destruct (Z.eq_dec y x) as [->|n1].
  - rewrite Z.eqb_refl in E1. simpl in E1.
    destruct (Z.eq_dec z x) as [->|n2].
    + rewrite Z.eqb_refl in E2. simpl in E2.
      rewrite Z.ltb_irrefl, Z.eqb_refl. simpl. eauto.
    + replace (z <? x)%Z with false by (symmetry; apply Z.ltb_ge; lia).
      replace (z =? x)%Z with false by (symmetry; apply Z.eqb_neq; lia).
      reflexivity.
  - replace (z <? x)%Z with false by (symmetry; apply Z.ltb_ge; lia).
    replace (z =? x)%Z with false by (symmetry; apply Z.eqb_neq; lia).
    reflexivity.
Qed.

Lemma Zltb_asym (a b : Z) : (a <? b)%Z = true -> (b <? a)%Z = false.
Proof. intros H. apply Z.ltb_lt in H. apply Z.ltb_ge. lia. Qed.

Lemma Zltb_ge_trans (a b c : Z) :
  (b <? a)%Z = false -> (c <? b)%Z = false -> (c <? a)%Z = false.
Proof. rewrite !Z.ltb_ge. lia. Qed.

(** An ascending list is determined by its elements. *)
Lemma sorted_perm_unique (l1 l2 : list nat) :
  StronglySorted le l1 -> StronglySorted le l2 -> Permutation l1 l2 -> l1 = l2.
Proof.
  revert l2. induction l1 as [|a l1 IH]; intros l2 S1 S2 P.
  - apply Permutation_nil in P. now subst.
  - destruct l2 as [|b l2];
      [apply Permutation_sym, Permutation_nil in P; discriminate|].
    apply StronglySorted_inv in S1 as [S1 F1].
    apply StronglySorted_inv in S2 as [S2 F2].
    assert (a = b).
    { rewrite Forall_forall in F1, F2.
      assert (Hb : In b (a :: l1))
        by (eapply Permutation_in; [apply Permutation_sym, P | now left]).
      assert (Ha : In a (b :: l2))
        by (eapply Permutation_in; [apply P | now left]).
      destruct Hb as [->|Hb]; [reflexivity|].
      destruct Ha as [->|Ha]; [reflexivity|].
      apply F1 in Hb. apply F2 in Ha. lia. }
    subst b. f_equal. apply IH; auto.
    eapply Permutation_cons_inv; exact P.
Qed.

(** * Facts about task discovery *)

Section DiscoveryFacts.

Lemma span_digits_spec (l d r : list string) :
  span_digits l = (d, r) -> l = d ++ r /\ forallb Py.is_digit d = true.
Proof.
  revert d r. induction l as [|c l IH]; intros d r; simpl.
  - intros H. injection H as <- <-. auto.
  - destruct (Py.is_digit c) eqn:Ec.
    + destruct (span_digits l) as [d' t]. intros H. injection H as <- <-.
      destruct (IH d' t eq_refl) as [-> Hd]. simpl. rewrite Ec. auto.
    + intros H. injection H as <- <-. auto.
Qed.

Lemma eqb_empty_false (s : string) : (s =? "")%string = false -> s <> "".
Proof. intros H. now apply String.eqb_neq. Qed.

(** A non-empty list of digits, put together, is a number. *)
Lemma join_digits_number (c : string) (l : list string) :
  forallb Py.is_digit (c :: l) = true -> number (Py.join (c :: l)).
Proof.
  intros H. split; [apply all_digits_join, H|].
  cbn [forallb] in H. apply andb_prop in H as [Hc _].
  apply digit_is_char in Hc. destruct c; [discriminate Hc | discriminate].
Qed.

(** The shape of a list the version pattern matches. *)
Lemma match_version_shape (l : list string) (v : string) :
  match_version l = Some v ->
  exists c1 d1 c2 d2 r3,
    l = (c1 :: d1) ++ "." :: (c2 :: d2) ++ r3 /\
    forallb Py.is_digit (c1 :: d1) = true /\
    forallb Py.is_digit (c2 :: d2) = true /\
    (Py.join r3 = ".m3u8" \/ Py.join r3 = ".m3u8" +++ NL) /\
    v = Py.join (c1 :: d1) +++ "." +++ Py.join (c2 :: d2).
Proof.
  unfold match_version.
  destruct (span_digits l) as [d1 r1] eqn:E1.
  destruct d1 as [|c1 d1]; [destruct r1 as [|[|? ?] ?]; discriminate|].
  destruct r1 as [|c r2]; [discriminate|].
  destruct c as [|a t]; [discriminate|].
  destruct a as [[] [] [] [] [] [] [] []]; try discriminate;
    destruct t; try discriminate.
  destruct (span_digits r2) as [d2 r3] eqn:E2.
  destruct d2 as [|c2 d2]; [discriminate|].
  destruct (_ || _) eqn:Et; [|discriminate].
  intros H. injection H as <-.
  apply span_digits_spec in E1 as [-> H1].
  apply span_digits_spec in E2 as [-> H2].
  exists c1, d1, c2, d2, r3. repeat split; try assumption.
  apply orb_prop in Et as [Et|Et]; apply String.eqb_eq in Et; auto.
Qed.

Lemma match_version_spec (l : list string) (v : string) :
  match_version l = Some v -> dotted_version v.
Proof.
  intros H. apply match_version_shape in H
    as (c1 & d1 & c2 & d2 & r3 & _ & H1 & H2 & _ & ->).
  exists (Py.join (c1 :: d1)), (Py.join (c2 :: d2)).
  split; [reflexivity|]. split; apply join_digits_number; assumption.
Qed.

Lemma re_grow_spec (rest : list string) (base b v : string) :
  re_grow base rest = Some (b, v) -> dotted_version v.
Proof.
  revert base. induction rest as [|c rest IH]; intros base; cbn [re_grow].
  - destruct (match_version []) as [v'|] eqn:E; [|discriminate].
    intros H. injection H as _ <-. eapply match_version_spec; eassumption.
  - destruct (match_version (c :: rest)) as [v'|] eqn:E.
    + intros H. injection H as _ <-. eapply match_version_spec; eassumption.
    + destruct (c =? NL)%string; [discriminate|]. apply IH.
Qed.

(** Group 2 of a matching filename is a dotted pair of numbers. *)
Lemma re_match_version (filename b v : string) :
  re_match filename = Some (b, v) -> dotted_version v.
Proof.
  unfold re_match. destruct (Py.chars filename) as [|c r]; [discriminate|].
  destruct (c =? NL)%string; [discriminate|]. apply re_grow_spec.
Qed.

Lemma ints_numbers (a b : string) :
  number a -> number b ->
  ints [a; b] = inr [digits_value 0 a; digits_value 0 b].
Proof.
  intros Ha Hb. simpl. now rewrite (int_number a Ha), (int_number b Hb).
Qed.

Lemma version_key_dotted (t : Task) (major minor : string) :
  version t = major +++ "." +++ minor -> number major -> number minor ->
  version_key t = inr [digits_value 0 major; digits_value 0 minor].
Proof.
  intros Hv Ha Hb. unfold version_key. rewrite Hv.
  rewrite split_dotted by (apply Ha || apply Hb).
  now apply ints_numbers.
Qed.

Lemma version_key_discovered (t : Task) :
  discovered t -> exists k, version_key t = inr k.
Proof.
  intros (b & v & p & k & (major & minor & Hv & Ha & Hb) & ->).
  eexists. apply (version_key_dotted _ major minor); [exact Hv|assumption..].
Qed.

Lemma tasks_of_discovered (paths : list string) :
  Forall discovered (tasks_of paths).
Proof.
  induction paths as [|p r IH]; simpl; [constructor|].
  destruct (re_match (Os.basename p)) as [[b v]|] eqn:E; [|exact IH].
  constructor; [|exact IH].
  exists b, v, p, (Os.path_join input_dir (key_file_of b v)).
  split; [|reflexivity]. eapply re_match_version; eassumption.
Qed.

Lemma tasks_of_app (l1 l2 : list string) :
  tasks_of (l1 ++ l2) = tasks_of l1 ++ tasks_of l2.
Proof.
  induction l1 as [|p l1 IH]; simpl; [reflexivity|].
  destruct (re_match (Os.basename p)) as [[b v]|]; simpl; now rewrite IH.
Qed.

(** With every key file in place the loop returns the tasks of the matching
    playlists and prints one warning per other playlist. *)
Lemma find_loop_complete (paths : list string) (tasks : list Task) (w : world) :
  forallb (fun p => negb (missing_key (fs w) p)) paths = true ->
  find_loop paths tasks w
  = (inr (tasks ++ tasks_of paths),
     World (fs w) (log w ++ map skip_warning (filter bad_name paths))).
Proof.
  revert tasks w. induction paths as [|p r IH]; intros tasks [f l] Hk.
  - simpl. now rewrite !app_nil_r.
  - simpl in Hk. apply andb_prop in Hk as [Hp Hr].
    apply negb_true_iff in Hp. unfold missing_key in Hp.
    cbn [find_loop tasks_of filter]. unfold bad_name at 1.
    destruct (re_match (Os.basename p)) as [[b v]|] eqn:E.
    + unfold bind, get_fs. cbn [fs] in *. fold (key_file_of b v).
      rewrite Hp. cbn [negb].
      rewrite (IH _ (World f l) Hr). cbn [fs log].
      now rewrite <- app_assoc.
    + unfold bind, print, emit. cbn [fs log].
      rewrite (IH _ (World f (l ++ [skip_warning p]))) by exact Hr.
      cbn [fs log map]. now rewrite <- app_assoc.
Qed.

(** The first playlist without its key file stops the loop. *)
Lemma find_loop_missing (pre post : list string) (p : string)
    (tasks : list Task) (w : world) :
  forallb (fun p => negb (missing_key (fs w) p)) pre = true ->
  missing_key (fs w) p = true ->
  exists b v,
    re_match (Os.basename p) = Some (b, v) /\
    find_loop (pre ++ p :: post) tasks w
    = (inl (FileNotFoundError ("Missing key file: " +++ key_file_of b v)),
       World (fs w) (log w ++ map skip_warning (filter bad_name pre))).
Proof.
  revert tasks w. induction pre as [|q pre IH]; intros tasks [f l] Hk Hm.
  - cbn [app find_loop filter map]. unfold missing_key in Hm.
    destruct (re_match (Os.basename p)) as [[b v]|] eqn:E; [|discriminate].
    exists b, v. split; [reflexivity|].
    unfold bind, get_fs, raise. cbn [fs log] in *. fold (key_file_of b v).
    rewrite Hm. now rewrite app_nil_r.
  - simpl in Hk. apply andb_prop in Hk as [Hq Hr].
    apply negb_true_iff in Hq. unfold missing_key in Hq.
    cbn [app find_loop filter]. unfold bad_name at 1.
    destruct (re_match (Os.basename q)) as [[b' v']|] eqn:E.
    + unfold bind at 1, get_fs. cbn [fs] in *. fold (key_file_of b' v').
      rewrite Hq. cbn [negb].
      exact (IH _ (World f l) Hr Hm).
    + unfold bind at 1, print, emit. cbn [fs log].
      destruct (IH tasks (World f (l ++ [skip_warning q])) Hr Hm)
        as (b & v & Hb & Hf).
      exists b, v. split; [exact Hb|]. etransitivity; [exact Hf|].
      cbn [fs log map]. now rewrite <- app_assoc.
Qed.

Lemma first_missing (f : Os.filesystem) (paths : list string) :
  forallb (fun p => negb (missing_key f p)) paths = true \/
  exists pre p post,
    paths = pre ++ p :: post /\
    forallb (fun p => negb (missing_key f p)) pre = true /\
    missing_key f p = true.
Proof.
  induction paths as [|q r IH]; [now left|].
  destruct (missing_key f q) eqn:E.
  - right. exists [], q, r. auto.
  - destruct IH as [IH|(pre & p & post & -> & Hpre & Hp)].
    + left. simpl. now rewrite E.
    + right. exists (q :: pre), p, post. simpl. rewrite E. auto.
Qed.

End DiscoveryFacts.

Lemma StronglySorted_weaken {A} (R R' : A -> A -> Prop) (l : list A) :
  (forall a b, In a l -> In b l -> R a b -> R' a b) ->
  StronglySorted R l -> StronglySorted R' l.
Proof.
  intros H S. induction S as [|a l S IH F]; constructor.
  - apply IH. intros x y Hx Hy. apply H; now right.
  - rewrite Forall_forall in *. intros b Hb.
    apply H; [now left | now right | now apply F].
Qed.

Lemma version_order (t1 t2 : Task) :
  discovered t1 -> discovered t2 ->
  ordered_by_key _ _ version_key Py.list_lt t1 t2 -> version_precedes t1 t2.
Proof.
  intros (b1 & v1 & p1 & k1 & (M1 & m1 & Hv1 & HM1 & Hm1) & ->)
         (b2 & v2 & p2 & k2 & (M2 & m2 & Hv2 & HM2 & Hm2) & ->)
         (ka & kb & Ha & Hb & Hlt).
  rewrite (version_key_dotted (make_task b1 v1 p1 k1) M1 m1 Hv1 HM1 Hm1) in Ha.
  rewrite (version_key_dotted (make_task b2 v2 p2 k2) M2 m2 Hv2 HM2 Hm2) in Hb.
  injection Ha as <-. injection Hb as <-.
  exists M1, m1, M2, m2. repeat (split; [assumption|]).
  simpl in Hlt.
  apply orb_false_iff in Hlt as [L E]. apply Z.ltb_ge in L.
  destruct (Z.eq_dec (digits_value 0 M2) (digits_value 0 M1)) as [e|n].
  - right. split; [now symmetry|]. rewrite e, Z.eqb_refl in E. simpl in E.
    apply orb_false_iff in E as [E _]. now apply Z.ltb_ge in E.
  - left. lia.
Qed.

(** What [find_tasks] returns, by whether a key file is missing. *)
Lemma find_tasks_cases (w : world) :
  let paths := Os.glob (fs w) input_dir ".m3u8" in
  (forallb (fun p => negb (missing_key (fs w) p)) paths = true /\
   exists tasks,
     find_tasks w
     = (inr tasks,
        World (fs w) (log w ++ map skip_warning (filter bad_name paths))) /\
     Permutation tasks (tasks_of paths) /\
     StronglySorted version_precedes tasks)
  \/
  (exists pre p post b v,
     paths = pre ++ p :: post /\
     forallb (fun p => negb (missing_key (fs w) p)) pre = true /\
     missing_key (fs w) p = true /\
     re_match (Os.basename p) = Some (b, v) /\
     find_tasks w
     = (inl (FileNotFoundError ("Missing key file: " +++ key_file_of b v)),
        World (fs w) (log w ++ map skip_warning (filter bad_name pre)))).
Proof.
  intros paths.
  assert (Hrun : find_tasks w
                 = match find_loop paths [] w with
                   | (inr tasks, w') =>
                       (sorted version_key Py.list_lt tasks, w')
                   | (inl e, w') => (inl e, w')
                   end) by reflexivity.
  rewrite Hrun. clearbody paths.
  destruct (first_missing (fs w) paths)
    as [Hall|(pre & p & post & Hp & Hpre & Hm)].
  - left. split; [exact Hall|].
    rewrite (find_loop_complete paths [] w Hall). cbn [app].
    assert (Hd : Forall discovered (tasks_of paths))
      by apply tasks_of_discovered.
    destruct (sorted_total _ _ version_key Py.list_lt (tasks_of paths))
      as [ts Hts].
    { eapply Forall_impl; [|exact Hd]. apply version_key_discovered. }
    exists ts. rewrite Hts.
    destruct (sorted_spec _ _ version_key Py.list_lt list_lt_asym
                (fun a b c => list_lt_ge_trans a b c) _ _ Hts) as [HP HS].
    repeat split; [exact HP|].
    eapply StronglySorted_weaken; [|exact HS].
    rewrite Forall_forall in Hd.
    intros a b Ha Hb. apply version_order; apply Hd;
      eapply Permutation_in; eauto.
  - right. destruct (find_loop_missing pre post p [] w Hpre Hm)
      as (b & v & Hb & Hf).
    exists pre, p, post, b, v. repeat (split; [assumption|]).
    rewrite Hp, Hf. reflexivity.
Qed.

(** [find_tasks] only prints: the filesystem is as before. *)
Lemma find_tasks_fs (w : world) : fs (snd (find_tasks w)) = fs w.
Proof.
  destruct (find_tasks_cases w)
    as [(_ & ts & -> & _)|(pre & p & post & b & v & _ & _ & _ & _ & ->)];
    reflexivity.
Qed.

Lemma find_tasks_discovered (w : world) (tasks : list Task) :
  fst (find_tasks w) = inr tasks -> Forall discovered tasks.
Proof.
  destruct (find_tasks_cases w)
    as [(_ & ts & -> & HP & _)|(pre & p & post & b & v & _ & _ & _ & _ & ->)];
    simpl; [|discriminate].
  intros H. injection H as <-.
  eapply Permutation_Forall; [apply Permutation_sym, HP|].
  apply tasks_of_discovered.
Qed.

Lemma downloaded_dir_make (b v p k : string) :
  downloaded_dir (make_task b v p k) = "processing/downloaded_" +++ v.
Proof. reflexivity. Qed.

Lemma decrypted_dir_make (b v p k : string) :
  decrypted_dir (make_task b v p k) = "processing/decrypted_" +++ v.
Proof. reflexivity. Qed.

Lemma append_inj_l (p a b : string) : p +++ a = p +++ b -> a = b.
Proof.
  induction p as [|c p IH]; simpl; [auto|].
  intros H. injection H as H. auto.
Qed.


(** * Facts about the playlist parser *)

Section PlaylistFacts.

Lemma prefix_decompose (p s : string) :
  String.prefix p s = true -> s = p +++ Py.drop (String.length p) s.
Proof.
  revert s. induction p as [|a p IH]; intros s H.
  - reflexivity.
  - destruct s as [|b s]; [discriminate H|].
    rewrite prefix_cons in H. apply andb_prop in H as [E H].
    apply Ascii.eqb_eq in E. subst b. simpl. f_equal. now apply IH.
Qed.

Lemma split_go_exhausted (sep cur s : string) :
  Py.split_go sep (Some 0) 0 cur s = [cur +++ s].
Proof.
  revert cur. induction s as [|c s IH]; intros cur; simpl.
  - now rewrite append_nil_r.
  - rewrite IH. now rewrite append_snoc.
Qed.

Lemma split_iv_attr (r : string) :
  Py.split "=" (Some 1) ("IV=" +++ r) = ["IV"; r].
Proof.
  unfold Py.split. cbn. now rewrite prefix_nil, split_go_exhausted.
Qed.

Lemma lower_char_zero (c : ascii) :
  Ascii.eqb "0" (Py.lower_char c) = Ascii.eqb "0" c.
Proof. destruct c as [[] [] [] [] [] [] [] []]; reflexivity. Qed.

Lemma lower_char_x (c : ascii) :
  Ascii.eqb "x" (Py.lower_char c) = (Ascii.eqb "x" c || Ascii.eqb "X" c)%bool.
Proof. destruct c as [[] [] [] [] [] [] [] []]; reflexivity. Qed.

(** [iv.lower().startswith("0x")] asks for a leading [0x] or [0X]. *)
Lemma lower_startswith_0x (s : string) :
  Py.startswith "0x" (Py.lower s)
  = (Py.startswith "0x" s || Py.startswith "0X" s)%bool.
Proof.
  unfold Py.startswith.
  destruct s as [|c1 [|c2 r]]; cbn [Py.lower].
  - reflexivity.
  - destruct c1 as [[] [] [] [] [] [] [] []]; reflexivity.
  - rewrite !prefix_cons, !prefix_nil, lower_char_zero, lower_char_x.
    destruct (Ascii.eqb "0" c1), (Ascii.eqb "x" c2), (Ascii.eqb "X" c2);
      reflexivity.
Qed.

Lemma iv_of_attr_spec (attr : string) :
  is_iv_attr attr = true -> iv_of_attr attr = inr (iv_value attr).
Proof.
  intros H. apply prefix_decompose in H. cbn [String.length] in H.
  unfold iv_of_attr, iv_value. rewrite H at 1. rewrite split_iv_attr.
  cbn [nth_error]. now rewrite lower_startswith_0x.
Qed.

Lemma scan_attrs_spec (attrs : list string) (iv : option string) :
  scan_attrs iv attrs = inr (iv_after (filter is_iv_attr attrs) iv).
Proof.
  revert iv. induction attrs as [|a attrs IH]; intros iv; simpl.
  - reflexivity.
  - fold (is_iv_attr a). destruct (is_iv_attr a) eqn:E.
    + rewrite (iv_of_attr_spec a E). apply IH.
    + apply IH.
Qed.

Lemma iv_after_app (l1 l2 : list string) (iv : option string) :
  iv_after (l1 ++ l2) iv = iv_after l2 (iv_after l1 iv).
Proof. unfold iv_after. apply fold_left_app. Qed.

Lemma iv_after_last (attrs : list string) (iv : option string) :
  iv_after attrs iv
  = match last_opt attrs with
    | Some attr => Some (iv_value attr)
    | None => iv
    end.
Proof.
  destruct attrs as [|a l] using rev_ind; [reflexivity|].
  rewrite iv_after_app. unfold last_opt. rewrite rev_app_distr. reflexivity.
Qed.

(** The scan either stops on a key declaration without a colon or ends with
    the last [IV] value seen and the marked lines that are not key
    declarations. *)
Lemma scan_lines_spec (ls : list string) (iv : option string)
    (segments : list string) :
  let lines := map Py.strip ls in
  (scan_lines iv segments ls = inl (IndexError "list index out of range") /\
   Exists colonless_key_line lines)
  \/
  scan_lines iv segments ls
  = inr (iv_after (flat_map line_iv_attrs lines) iv,
         segments ++ filter (fun line => negb (is_key_line line)
                                         && has_marker line) lines).
Proof.
  revert iv segments. induction ls as [|raw ls IH]; intros iv segments lines.
  - right. simpl. now rewrite app_nil_r.
  - subst lines. cbn [map flat_map filter scan_lines].
    unfold line_iv_attrs at 1, attributes_of.
    fold (is_key_line (Py.strip raw)). fold (has_marker (Py.strip raw)).
    destruct (is_key_line (Py.strip raw)) eqn:Ek; cbn [negb andb].
    + destruct (nth_error (Py.split ":" (Some 1) (Py.strip raw)) 1)
        as [attrs|] eqn:En.
      * rewrite scan_attrs_spec.
        destruct (IH (iv_after (filter is_iv_attr (Py.split "," None attrs)) iv)
                     segments) as [[He Hx]|Hr].
        -- left. split; [exact He | now apply Exists_cons_tl].
        -- right. rewrite Hr. now rewrite iv_after_app.
      * left. split; [reflexivity|]. apply Exists_cons_hd. now split.
    + destruct (has_marker (Py.strip raw)).
      * destruct (IH iv (segments ++ [Py.strip raw])) as [[He Hx]|Hr].
        -- left. split; [exact He | now apply Exists_cons_tl].
        -- right. rewrite Hr. cbn [app]. now rewrite <- app_assoc.
      * destruct (IH iv segments) as [[He Hx]|Hr].
        -- left. split; [exact He | now apply Exists_cons_tl].
        -- right. exact Hr.
Qed.

Lemma avoids_false_split (a : ascii) (s : string) :
  avoids a s = false ->
  exists pre post, s = pre +++ String a post /\ avoids a pre = true.
Proof.
  induction s as [|c s IH]; simpl; [discriminate|].
  destruct (Ascii.eqb c a) eqn:E; simpl.
  - intros _. apply Ascii.eqb_eq in E. subst c. exists "", s. auto.
  - intros H. destruct (IH H) as (pre & post & -> & Hp).
    exists (String c pre), post. simpl. rewrite E. auto.
Qed.

(** With a colon in the line, [line.split(":", 1)[1]] is there. *)
Lemma split_colon_found (line : string) :
  avoids ":" line = false ->
  nth_error (Py.split ":" (Some 1) line) 1 <> None.
Proof.
  intros H. destruct (avoids_false_split _ _ H) as (pre & post & -> & Hp).
  unfold Py.split. rewrite split_go_avoids by exact Hp.
  cbn. rewrite prefix_nil, split_go_exhausted. cbn. discriminate.
Qed.

(** What [parse_m3u8] makes of a playlist whose key declarations all have a
    colon. *)
Lemma parse_text_spec (path text : string) :
  key_lines_have_colon text ->
  parse_text path text
  = match iv_after (iv_attrs text) None with
    | None | Some EmptyString => inl (ValueError ("IV not found in " +++ path))
    | Some v => inr (v, segment_lines text)
    end.
Proof.
  intros Hc. unfold parse_text.
  destruct (scan_lines_spec (Py.lines text) None []) as [[_ Hx]|Hr].
  - exfalso. apply Exists_exists in Hx as (line & Hin & Hk & Hn).
    unfold key_lines_have_colon, stripped_lines in Hc.
    rewrite Forall_forall in Hc.
    exact (split_colon_found line (Hc line Hin Hk) Hn).
  - rewrite Hr. reflexivity.
Qed.

(** Without that assumption the parser may also stop with [IndexError]. *)
Lemma parse_text_cases (path text : string) :
  parse_text path text = inl (IndexError "list index out of range")
  \/
  parse_text path text
  = match iv_after (iv_attrs text) None with
    | None | Some EmptyString => inl (ValueError ("IV not found in " +++ path))
    | Some v => inr (v, segment_lines text)
    end.
Proof.
  unfold parse_text.
  destruct (scan_lines_spec (Py.lines text) None []) as [[He _]|Hr].
  - left. now rewrite He.
  - right. rewrite Hr. reflexivity.
Qed.

End PlaylistFacts.

(** * Reasoning about effects *)

Lemma bind_eq {A B} (m : M A) (k : A -> M B) (w : world) :
  bind m k w
  = match m w with
    | (inr a, w') => k a w'
    | (inl e, w') => (inl e, w')
    end.
Proof. reflexivity. Qed.

Section Effects.

Variable I : Os.filesystem -> Prop.
Variable Q : event -> Prop.

Lemma respects_ret {A} (a : A) : respects I Q (ret a).
Proof.
  intros w HI. split; [exact HI|]. exists []. now rewrite app_nil_r.
Qed.

Lemma respects_raise {A} (e : exn) : respects I Q (@raise A e).
Proof.
  intros w HI. split; [exact HI|]. exists []. now rewrite app_nil_r.
Qed.

Lemma respects_lift {A} (r : exn + A) : respects I Q (lift r).
Proof.
  intros w HI. split; [exact HI|]. exists []. now rewrite app_nil_r.
Qed.

Lemma respects_emit (e : event) : Q e -> respects I Q (emit e).
Proof.
  intros He w HI. split; [exact HI|]. exists [e]. split; [reflexivity|].
  now constructor.
Qed.

Lemma respects_at_bind {A B} (m : M A) (k : A -> M B) (w : world) :
  respects_at I Q m w ->
  (forall a, fst (m w) = inr a -> respects_at I Q (k a) (snd (m w))) ->
  respects_at I Q (bind m k) w.
Proof.
  intros Hm Hk HI. unfold bind.
  destruct (Hm HI) as [HI1 (d1 & Hl1 & Hq1)].
  destruct (m w) as [[e|a] w1]; cbn [fst snd] in *.
  - split; [exact HI1|]. now exists d1.
  - destruct (Hk a eq_refl HI1) as [HI2 (d2 & Hl2 & Hq2)].
    split; [exact HI2|]. exists (d1 ++ d2).
    rewrite Hl2, Hl1, app_assoc. split; [reflexivity|].
    now apply Forall_app.
Qed.

Lemma respects_bind {A B} (m : M A) (k : A -> M B) :
  respects I Q m -> (forall a, respects I Q (k a)) ->
  respects I Q (bind m k).
Proof.
  intros Hm Hk w. apply respects_at_bind; [apply Hm|].
  intros a _. apply Hk.
Qed.

(** After [get_fs] the continuation runs with the filesystem of the
    moment. *)
Lemma respects_get_fs {B} (k : Os.filesystem -> M B) :
  (forall w, respects_at I Q (k (fs w)) w) -> respects I Q (bind get_fs k).
Proof. intros Hk w. exact (Hk w). Qed.

Lemma respects_put_fs (f : Os.filesystem) (w : world) :
  I f -> respects_at I Q (put_fs f) w.
Proof.
  intros Hf _. split; [exact Hf|]. exists []. cbn. now rewrite app_nil_r.
Qed.

Lemma respects_try_except {A} (m : M A) (h : exn -> M A) :
  respects I Q m -> (forall e, respects I Q (h e)) ->
  respects I Q (try_except m h).
Proof.
  intros Hm Hh w HI. unfold try_except.
  destruct (Hm w HI) as [HI1 (d1 & Hl1 & Hq1)].
  destruct (m w) as [[e|a] w1]; cbn [fst snd] in *.
  - destruct (Hh e w1 HI1) as [HI2 (d2 & Hl2 & Hq2)].
    split; [exact HI2|]. exists (d1 ++ d2).
    rewrite Hl2, Hl1, app_assoc. split; [reflexivity|].
    now apply Forall_app.
  - split; [exact HI1|]. now exists d1.
Qed.

Lemma respects_try_finally {A} (m : M A) (c : M unit) :
  respects I Q m -> respects I Q c -> respects I Q (try_finally m c).
Proof.
  intros Hm Hc w HI. unfold try_finally.
  destruct (Hm w HI) as [HI1 (d1 & Hl1 & Hq1)].
  destruct (m w) as [r w1]; cbn [fst snd] in *.
  destruct (Hc w1 HI1) as [HI2 (d2 & Hl2 & Hq2)].
  destruct (c w1) as [[e|u] w2]; cbn [fst snd] in *;
    (split; [exact HI2|]; exists (d1 ++ d2);
     rewrite Hl2, Hl1, app_assoc; split; [reflexivity|];
     now apply Forall_app).
Qed.

Lemma respects_for_each {A} (l : list A) (body : A -> M unit) :
  (forall x, In x l -> respects I Q (body x)) ->
  respects I Q (for_each l body).
Proof.
  induction l as [|x l IH]; intros Hb; cbn [for_each].
  - apply respects_ret.
  - apply respects_bind; [apply Hb; now left|].
    intros _. apply IH. intros y Hy. apply Hb. now right.
Qed.

(** Filesystem properties that survive a new directory or a new file. *)
Hypothesis I_new_dir :
  forall f p, I f -> Os.lookup f p = None -> I (f ++ [(p, Os.Dir)]).

Lemma respects_os_mkdir (p : string) : respects I Q (os_mkdir p).
Proof.
  unfold os_mkdir. apply respects_get_fs. intros w.
  destruct (Os.lookup (fs w) p) eqn:E; [apply respects_raise|].
  destruct (Os.parent p =? "")%string.
  - intros HI. apply respects_put_fs; auto.
  - destruct (Os.lookup (fs w) (Os.parent p)) as [[d|]|];
      try apply respects_raise.
    intros HI. apply respects_put_fs; auto.
Qed.

Lemma respects_path_mkdir (fuel : nat) (parents exist_ok : bool) (p : string) :
  respects I Q (path_mkdir fuel parents exist_ok p).
Proof.
  revert parents exist_ok p.
  induction fuel as [|k IH]; intros parents exist_ok p; cbn [path_mkdir];
    (apply respects_try_except; [apply respects_os_mkdir|]);
    intros e;
    assert (Hother : respects I Q
                       (bind get_fs (fun f =>
                          if exist_ok && Os.is_dir f p
                          then ret tt else @raise unit e)))
      by (apply respects_get_fs; intros w;
          destruct (exist_ok && Os.is_dir (fs w) p);
          [apply respects_ret | apply respects_raise]);
    destruct e; try exact Hother;
    destruct parents; try apply respects_raise.
  apply respects_bind; [apply IH|]. intros _. apply IH.
Qed.

Lemma respects_mkdir (parents exist_ok : bool) (p : string) :
  respects I Q (mkdir parents exist_ok p).
Proof. apply respects_path_mkdir. Qed.

Lemma respects_read_file (p : string) : respects I Q (read_file p).
Proof.
  unfold read_file. apply respects_get_fs. intros w.
  destruct (Os.lookup (fs w) p) as [[d|]|];
    [apply respects_ret | apply respects_raise | apply respects_raise].
Qed.

Lemma respects_write_file (p d : string) :
  (forall f, I f -> I (Os.store p (Os.File d) f)) ->
  respects I Q (write_file p d).
Proof.
  intros Hs. unfold write_file. apply respects_get_fs. intros w.
  assert (Hw : respects_at I Q
                 (if parent_ok (fs w) p
                  then put_fs (Os.store p (Os.File d) (fs w))
                  else raise (no_parent (fs w) p)) w).
  { destruct (parent_ok (fs w) p); [|apply respects_raise].
    intros HI. apply respects_put_fs; auto. }
  destruct (Os.lookup (fs w) p) as [[x|]|];
    [exact Hw | apply respects_raise | exact Hw].
Qed.

Lemma respects_parse_m3u8 (p : string) : respects I Q (parse_m3u8 p).
Proof.
  unfold parse_m3u8. apply respects_bind; [apply respects_read_file|].
  intros data. destruct (Py.decode data) as [seen|text];
    [|apply respects_lift].
  apply respects_bind; [apply respects_lift|]. intros _. apply respects_raise.
Qed.

Lemma respects_print_exn (s : string) (e : exn) :
  Q (PrintExn s e) -> respects I Q (print_exn s e).
Proof. apply respects_emit. Qed.

End Effects.

(** * Facts about paths and the filesystem *)

Section PathFacts.

Lemma append_not_empty (x s : string) : s <> "" -> x +++ s <> "".
Proof. destruct x; simpl; [auto | discriminate]. Qed.

Lemma endswith_slash_app (x s : string) :
  s <> "" -> avoids "/" s = true -> Py.endswith "/" (x +++ s) = false.
Proof.
  intros Hne Hs. induction x as [|a x IH].
  - clear Hne. induction s as [|c s IH]; [reflexivity|].
    simpl in Hs. apply andb_prop in Hs as [Hc Hs].
    apply negb_true_iff in Hc.
    cbn [append Py.endswith]. rewrite string_eqb_cons, Hc. cbn [andb orb].
    now apply IH.
  - cbn [append Py.endswith]. rewrite string_eqb_cons.
    replace (x +++ s =? "")%string with false.
    + rewrite andb_false_r. exact IH.
    + symmetry. apply String.eqb_neq. now apply append_not_empty.
Qed.

Lemma path_join_plain (a b : string) :
  Py.startswith "/" b = false -> a <> "" -> Py.endswith "/" a = false ->
  Os.path_join a b = a +++ "/" +++ b.
Proof.
  intros Hb Ha He. unfold Os.path_join. rewrite Hb, He.
  apply String.eqb_neq in Ha. now rewrite Ha.
Qed.

Lemma dotted_version_avoids (a : ascii) (v : string) :
  non_digit a = true -> Ascii.eqb "." a = false ->
  dotted_version v -> avoids a v = true.
Proof.
  intros Ha Hd (major & minor & -> & [H1 _] & [H2 _]).
  rewrite !avoids_app. cbn [avoids]. rewrite Hd.
  now rewrite !all_digits_avoids.
Qed.

Lemma dotted_version_not_empty (v : string) : dotted_version v -> v <> "".
Proof.
  intros (major & minor & -> & [_ H1] & _).
  destruct major; [congruence | discriminate].
Qed.

Lemma segment_name_no_slash (i : nat) :
  Py.startswith "/" (segment_name i) = false.
Proof. reflexivity. Qed.

(** The directories of a discovered task do not end with a slash, so a
    name joined to them comes after one. *)
Lemma join_in_workspace (prefix v name : string) :
  dotted_version v -> Py.startswith "/" name = false ->
  Os.path_join (prefix +++ v) name = (prefix +++ v) +++ "/" +++ name.
Proof.
  intros Hv Hn. apply path_join_plain; [exact Hn| |].
  - apply append_not_empty. now apply dotted_version_not_empty.
  - apply endswith_slash_app; [now apply dotted_version_not_empty|].
    now apply dotted_version_avoids.
Qed.

Lemma download_path (task : Task) (i : nat) :
  discovered task ->
  Os.path_join (downloaded_dir task) (segment_name i)
  = segment_path (downloaded_dir task) i.
Proof.
  intros (b & v & p & k & Hv & ->). rewrite downloaded_dir_make.
  now apply join_in_workspace.
Qed.

Lemma decrypt_path (task : Task) (i : nat) :
  discovered task ->
  Os.path_join (decrypted_dir task) (segment_name i)
  = segment_path (decrypted_dir task) i.
Proof.
  intros (b & v & p & k & Hv & ->). rewrite decrypted_dir_make.
  now apply join_in_workspace.
Qed.

Lemma segment_name_inj (i j : nat) : segment_name i = segment_name j -> i = j.
Proof.
  unfold segment_name. intros H. apply append_inj_l in H.
  apply str_inj.
  assert (Hs : forall n, Py.split "." None (Py.str n +++ ".ts")
                         = [Py.str n; "ts"]).
  { intros n. unfold Py.split.
    rewrite split_go_avoids
      by (apply all_digits_avoids; [reflexivity | apply str_digits]).
    reflexivity. }
  pose proof (f_equal (Py.split "." None) H) as H'.
  rewrite !Hs in H'. now injection H'.
Qed.

Lemma segment_path_inj (dir : string) (i j : nat) :
  segment_path dir i = segment_path dir j -> i = j.
Proof.
  unfold segment_path. intros H. apply append_inj_l in H.
  apply (append_inj_l "/") in H. now apply segment_name_inj.
Qed.

Lemma lookup_store_eq (p : string) (n : Os.node) (f : Os.filesystem) :
  Os.lookup (Os.store p n f) p = Some n.
Proof.
  induction f as [|[q m] f IH]; simpl.
  - now rewrite String.eqb_refl.
  - destruct (q =? p)%string eqn:E; simpl; rewrite E; auto.
Qed.

Lemma lookup_store_neq (p q : string) (n : Os.node) (f : Os.filesystem) :
  p <> q -> Os.lookup (Os.store p n f) q = Os.lookup f q.
Proof.
  intros Hne. induction f as [|[r m] f IH]; simpl.
  - apply String.eqb_neq in Hne. now rewrite Hne.
  - destruct (r =? p)%string eqn:E; simpl.
    + apply String.eqb_eq in E. subst r.
      apply String.eqb_neq in Hne. now rewrite Hne.
    + now rewrite IH.
Qed.

Lemma lookup_app (f g : Os.filesystem) (p : string) :
  Os.lookup (f ++ g) p
  = match Os.lookup f p with
    | Some n => Some n
    | None => Os.lookup g p
    end.
Proof.
  induction f as [|[q m] f IH]; simpl; [reflexivity|].
  destruct (q =? p)%string; auto.
Qed.

Lemma lookup_filter_keep (P : string * Os.node -> bool) (f : Os.filesystem)
    (p : string) :
  (forall n, P (p, n) = true) ->
  Os.lookup (filter P f) p = Os.lookup f p.
Proof.
  intros HP. induction f as [|[q m] f IH]; simpl; [reflexivity|].
  destruct (q =? p)%string eqn:E.
  - apply String.eqb_eq in E. subst q. rewrite HP. simpl.
    now rewrite String.eqb_refl.
  - destruct (P (q, m)); simpl; [now rewrite E | exact IH].
Qed.

Lemma lookup_filter_drop (P : string * Os.node -> bool) (f : Os.filesystem)
    (p : string) :
  (forall n, P (p, n) = false) -> Os.lookup (filter P f) p = None.
Proof.
  intros HP. induction f as [|[q m] f IH]; simpl; [reflexivity|].
  destruct (P (q, m)) eqn:E; [|exact IH]. simpl.
  destruct (q =? p)%string eqn:Eq; [|exact IH].
  apply String.eqb_eq in Eq. subst q. now rewrite HP in E.
Qed.

(** After [rmtree] the path is no directory; it is still there only if it
    held a regular file. *)
Lemma lookup_rmtree_self (p : string) (f : Os.filesystem) :
  Os.lookup (Os.rmtree p f) p
  = match Os.lookup f p with
    | Some (Os.File d) => Some (Os.File d)
    | _ => None
    end.
Proof.
  unfold Os.rmtree. destruct (Os.lookup f p) as [[d|]|] eqn:E; try exact E.
  apply lookup_filter_drop. intros n. cbn [fst].
  now rewrite String.eqb_refl.
Qed.

Lemma lookup_rmtree_other (p q : string) (f : Os.filesystem) :
  (q =? p)%string = false -> Py.startswith (p +++ "/") q = false ->
  Os.lookup (Os.rmtree p f) q = Os.lookup f q.
Proof.
  intros H1 H2. unfold Os.rmtree.
  destruct (Os.lookup f p) as [[d|]|]; try reflexivity.
  apply lookup_filter_keep. intros n. cbn [fst]. now rewrite H1, H2.
Qed.

End PathFacts.

Section NameFacts.

Lemma contains_slash (s : string) : Py.contains "/" s = negb (avoids "/" s).
Proof.
  induction s as [|c s IH]; [reflexivity|].
  cbn [Py.contains avoids]. rewrite prefix_cons, prefix_nil, IH.
  rewrite andb_true_r, negb_andb, negb_involutive.
  now rewrite Ascii.eqb_sym.
Qed.

Lemma basename_join (dir name : string) :
  avoids "/" name = true -> Os.basename (dir +++ "/" +++ name) = name.
Proof.
  intros Hn. induction dir as [|c dir IH]; cbn [append Os.basename].
  - rewrite contains_slash, Hn. reflexivity.
  - rewrite contains_slash, avoids_app. cbn [avoids Ascii.eqb].
    rewrite andb_false_r. exact IH.
Qed.

Lemma parent_join (dir name : string) :
  avoids "/" name = true -> Os.parent (dir +++ "/" +++ name) = dir.
Proof.
  intros Hn. induction dir as [|c dir IH]; cbn [append Os.parent].
  - rewrite contains_slash, Hn. reflexivity.
  - rewrite contains_slash, avoids_app. cbn [avoids Ascii.eqb].
    rewrite andb_false_r. cbn [negb]. f_equal. exact IH.
Qed.

Lemma segment_name_avoids_slash (i : nat) :
  avoids "/" (segment_name i) = true.
Proof.
  unfold segment_name. rewrite !avoids_app.
  rewrite (all_digits_avoids "/" (Py.str i) eq_refl (str_digits i)).
  reflexivity.
Qed.

Lemma basename_segment (dir : string) (i : nat) :
  Os.basename (segment_path dir i) = segment_name i.
Proof. apply basename_join, segment_name_avoids_slash. Qed.

Lemma parent_segment (dir : string) (i : nat) :
  Os.parent (segment_path dir i) = dir.
Proof. apply parent_join, segment_name_avoids_slash. Qed.

Lemma split_segment_name (i : nat) :
  Py.split "segment" None (segment_name i) = [""; Py.str i +++ ".ts"].
Proof.
  unfold Py.split, segment_name.
  change ("segment" +++ Py.str i +++ ".ts")
    with (String "s" ("egment" +++ Py.str i +++ ".ts")).
  cbn [Py.split_go].
  replace (String.prefix "segment"
             (String "s" ("egment" +++ Py.str i +++ ".ts")))
    with true by (symmetry; apply (prefix_app "segment")).
  cbn [option_map String.length Nat.sub].
  rewrite (split_go_skip "segment" None "" "egment").
  rewrite split_go_avoids
    by (apply all_digits_avoids; [reflexivity | apply str_digits]).
  cbn. now rewrite !append_assoc.
Qed.

Lemma split_index (i : nat) :
  Py.split "." None (Py.str i +++ ".ts") = [Py.str i; "ts"].
Proof.
  unfold Py.split.
  rewrite split_go_avoids
    by (apply all_digits_avoids; [reflexivity | apply str_digits]).
  reflexivity.
Qed.

(** The sort key of a segment file is the index in its name. *)
Lemma segment_key_path (dir : string) (i : nat) :
  segment_key (segment_path dir i) = inr (Z.of_nat i).
Proof.
  unfold segment_key. rewrite basename_segment, split_segment_name.
  cbn [nth_error]. rewrite split_index. cbn [nth_error].
  now rewrite int_str.
Qed.

Lemma StronglySorted_map_inv {A B} (f : A -> B) (R : B -> B -> Prop)
    (R' : A -> A -> Prop) (l : list A) :
  (forall a b, R (f a) (f b) -> R' a b) ->
  StronglySorted R (map f l) -> StronglySorted R' l.
Proof.
  intros H. induction l as [|x l IH]; cbn [map]; intros S; [constructor|].
  apply StronglySorted_inv in S as [S F]. constructor; [now apply IH|].
  rewrite Forall_map in F. eapply Forall_impl; [|exact F]. auto.
Qed.

(** Segment files named by their indices sort into ascending index order,
    whatever order they are enumerated in. *)
Lemma sorted_segment_paths (dir : string) (idxs : list nat) :
  exists s,
    Permutation s idxs /\ StronglySorted le s /\
    sorted segment_key Z.ltb (map (segment_path dir) idxs)
    = inr (map (segment_path dir) s).
Proof.
  destruct (sorted_total _ _ segment_key Z.ltb (map (segment_path dir) idxs))
    as [l' Hl'].
  { rewrite Forall_map. apply Forall_forall. intros i _.
    eexists. apply segment_key_path. }
  destruct (sorted_spec _ _ segment_key Z.ltb Zltb_asym Zltb_ge_trans _ _ Hl')
    as [HP HS].
  destruct (Permutation_map_inv _ _ HP) as (s & -> & Hs).
  exists s. split; [now apply Permutation_sym|]. split; [|exact Hl'].
  eapply StronglySorted_map_inv; [|exact HS].
  intros a b (ka & kb & Ha & Hb & Hlt).
  rewrite segment_key_path in Ha, Hb. injection Ha as <-. injection Hb as <-.
  apply Z.ltb_ge in Hlt. lia.
Qed.

End NameFacts.

(** * Facts about the stages of a task *)

Section WriteFacts.

Lemma write_file_spec (p d : string) (w : world) :
  write_file p d w
  = match Os.lookup (fs w) p with
    | Some Os.Dir => (inl (IsADirectoryError p), w)
    | _ =>
        if parent_ok (fs w) p
        then (inr tt, World (Os.store p (Os.File d) (fs w)) (log w))
        else (inl (no_parent (fs w) p), w)
    end.
Proof.
  unfold write_file, get_fs, put_fs, raise, with_fs, bind.
  destruct (Os.lookup (fs w) p) as [[x|]|]; try reflexivity;
    destruct (parent_ok (fs w) p); reflexivity.
Qed.

Lemma write_file_done (p d : string) (w w' : world) :
  write_file p d w = (inr tt, w') ->
  w' = World (Os.store p (Os.File d) (fs w)) (log w).
Proof.
  rewrite write_file_spec.
  destruct (Os.lookup (fs w) p) as [[x|]|];
    try discriminate; destruct (parent_ok (fs w) p);
    try discriminate; intros H; now injection H.
Qed.

Lemma is_dir_store_file (p q d : string) (f : Os.filesystem) :
  Os.is_dir (Os.store p (Os.File d) f) q
  = if (p =? q)%string then false else Os.is_dir f q.
Proof.
  unfold Os.is_dir. destruct (p =? q)%string eqn:E.
  - apply String.eqb_eq in E. subst q. now rewrite lookup_store_eq.
  - apply String.eqb_neq in E. now rewrite lookup_store_neq.
Qed.

Lemma store_store (p : string) (n m : Os.node) (f : Os.filesystem) :
  Os.store p n (Os.store p m f) = Os.store p n f.
Proof.
  induction f as [|[q x] f IH]; cbn [Os.store].
  - now rewrite String.eqb_refl.
  - destruct (q =? p)%string eqn:E; cbn [Os.store]; rewrite E;
      [reflexivity | now rewrite IH].
Qed.

(** Where a file could be written it can be written again. *)
Lemma parent_ok_store (p d : string) (f : Os.filesystem) :
  Os.is_dir f p = false -> parent_ok f p = true ->
  parent_ok (Os.store p (Os.File d) f) p = true.
Proof.
  unfold parent_ok. intros Hd H. apply orb_true_iff in H as [H|H];
    [now rewrite H|].
  rewrite is_dir_store_file. destruct (p =? Os.parent p)%string eqn:E.
  - apply String.eqb_eq in E. rewrite <- E in H. congruence.
  - rewrite H. apply orb_true_r.
Qed.

End WriteFacts.

Section StageFacts.

Variable aes_cbc_decrypt : string -> string -> string -> outcome.

(** One run of openssl on an input other than its output: without its
    input, or where its output cannot be opened, it fails and writes
    nothing; else the output holds the plain text, or what was written of
    it when the decryption failed, or nothing when the input is a
    directory. *)
Lemma run_openssl_spec (input_ts output_ts iv key_hex : string) (w : world) :
  input_ts <> output_ts ->
  let argv := openssl_argv input_ts output_ts iv key_hex in
  let failed := fun f => (@inl exn unit (CalledProcessError argv),
                          World f (log w ++ [Run argv])) in
  run_openssl aes_cbc_decrypt input_ts output_ts iv key_hex w
  = match Os.lookup (fs w) input_ts with
    | Some n =>
        if Os.is_dir (fs w) output_ts then failed (fs w)
        else if parent_ok (fs w) output_ts
        then match n with
             | Os.File data =>
                 match aes_cbc_decrypt key_hex iv data with
                 | Decrypted plain =>
                     (inr tt,
                      World (Os.store output_ts (Os.File plain) (fs w))
                            (log w ++ [Run argv]))
                 | Broken written =>
                     failed (Os.store output_ts (Os.File written) (fs w))
                 end
             | Os.Dir => failed (Os.store output_ts (Os.File "") (fs w))
             end
        else failed (fs w)
    | None => failed (fs w)
    end.
Proof.
  intros Hne argv failed. subst failed. fold argv.
  unfold run_openssl. fold argv.
  unfold try_except, emit, bind at 1. cbn [fs log].
  rewrite !bind_eq. unfold get_fs at 1, Os.path_exists. cbn [fs log].
  destruct (Os.lookup (fs w) input_ts) as [n|] eqn:Ein;
    [|reflexivity].
  rewrite bind_eq. unfold ret at 1. rewrite bind_eq, write_file_spec.
  cbn [fs log]. unfold Os.is_dir at 1.
  destruct (Os.lookup (fs w) output_ts) as [[x|]|] eqn:Eout;
    try reflexivity;
    (destruct (parent_ok (fs w) output_ts) eqn:Ep; [|reflexivity]);
    unfold read_file, get_fs, raise, ret, bind; cbn [fs log];
    rewrite (lookup_store_neq output_ts input_ts)
      by (intros E; apply Hne; now symmetry);
    rewrite Ein;
    (destruct n as [data|]; [|reflexivity]);
    (destruct (aes_cbc_decrypt key_hex iv data) as [plain|written];
     rewrite ?bind_eq, write_file_spec; cbn [fs log];
     rewrite lookup_store_eq,
       (parent_ok_store output_ts "" (fs w)) by
         (try exact Ep; unfold Os.is_dir; now rewrite Eout);
     rewrite store_store; reflexivity).
Qed.

(** Whatever its files, a run of openssl logs its command and either
    succeeds or fails with that command. *)
Lemma run_openssl_world (input_ts output_ts iv key_hex : string) (w : world) :
  let argv := openssl_argv input_ts output_ts iv key_hex in
  exists f' r,
    run_openssl aes_cbc_decrypt input_ts output_ts iv key_hex w
    = (r, World f' (log w ++ [Run argv])) /\
    (r = inr tt \/ r = inl (CalledProcessError argv)).
Proof.
  intros argv. unfold run_openssl. fold argv.
  unfold try_except, emit, bind at 1. cbn [fs log].
  set (w1 := World (fs w) (log w ++ [Run argv])).
  assert (Hr : forall p w0, snd (read_file p w0) = w0).
  { intros p w0. unfold read_file, get_fs, raise, ret, bind.
    destruct (Os.lookup (fs w0) p) as [[d|]|]; reflexivity. }
  assert (Hw : forall p d w0, log (snd (write_file p d w0)) = log w0).
  { intros p d w0. rewrite write_file_spec.
    destruct (Os.lookup (fs w0) p) as [[x|]|]; try reflexivity;
      destruct (parent_ok (fs w0) p); reflexivity. }
  assert (Hu : forall (r : exn + unit) w0,
             log w0 = log w1 ->
             exists f' r',
               match r with
               | inr a => (@inr exn unit a, w0)
               | inl _ => (inl (CalledProcessError argv), w0)
               end = (r', World f' (log w ++ [Run argv])) /\
               (r' = inr tt \/ r' = inl (CalledProcessError argv))).
  { intros r [f0 l0] Hl. cbn [log] in Hl. subst l0. exists f0.
    destruct r as [e|[]]; eauto. }
  rewrite !bind_eq. unfold get_fs at 1.
  destruct (Os.path_exists (fs w1) input_ts);
    [|unfold raise; exact (Hu (inl (FileNotFoundError input_ts)) w1 eq_refl)].
  unfold ret at 1. rewrite !bind_eq.
  pose proof (Hw output_ts "" w1) as H2.
  destruct (write_file output_ts "" w1) as [[e|u] w2]; cbn [snd] in H2;
    [unfold raise; exact (Hu (inl e) w2 H2)|].
  rewrite bind_eq.
  pose proof (Hr input_ts w2) as H3.
  destruct (read_file input_ts w2) as [[e|data] w3]; cbn [snd] in H3; subst w3;
    [unfold raise; exact (Hu (inl e) w2 H2)|].
  destruct (aes_cbc_decrypt key_hex iv data) as [plain|written].
  - pose proof (Hw output_ts plain w2) as H4.
    destruct (write_file output_ts plain w2) as [r w3]; cbn [snd] in H4.
    destruct r as [e|u']; [unfold raise|];
      [exact (Hu (inl e) w3 (eq_trans H4 H2))
      |exact (Hu (inr u') w3 (eq_trans H4 H2))].
  - rewrite bind_eq.
    pose proof (Hw output_ts written w2) as H4.
    destruct (write_file output_ts written w2) as [[e|u'] w3]; cbn [snd] in H4;
      unfold raise;
      exact (Hu (inl (CalledProcessError argv)) w3 (eq_trans H4 H2)).
Qed.

Lemma run_openssl_result (input_ts output_ts iv key_hex : string) (w : world) :
  let argv := openssl_argv input_ts output_ts iv key_hex in
  exists f',
    run_openssl aes_cbc_decrypt input_ts output_ts iv key_hex w
    = (inr tt, World f' (log w ++ [Run argv])) \/
    run_openssl aes_cbc_decrypt input_ts output_ts iv key_hex w
    = (inl (CalledProcessError argv), World f' (log w ++ [Run argv])).
Proof.
  intros argv.
  destruct (run_openssl_world input_ts output_ts iv key_hex w)
    as (f' & r & E & [->| ->]); exists f'; auto.
Qed.

(** The decryption loop from position [a] on: the commands run are those of
    consecutive positions, and the loop stops only at a failing command. *)
Lemma decrypt_loop_log (task : Task) (iv key_hex : string) (n a : nat)
    (w : world) :
  let body := fun i =>
    run_openssl aes_cbc_decrypt
      (Os.path_join (downloaded_dir task) (segment_name i))
      (Os.path_join (decrypted_dir task) (segment_name i)) iv key_hex in
  exists k,
    k <= n /\
    log (snd (for_each (seq a n) body w))
    = log w ++ map (fun i => Run (decrypt_command task iv key_hex i)) (seq a k)
    /\ (fst (for_each (seq a n) body w) = inr tt -> k = n)
    /\ (forall e, fst (for_each (seq a n) body w) = inl e ->
        0 < k /\ e = CalledProcessError
                       (decrypt_command task iv key_hex (a + k - 1))).
Proof.
  intros body. revert a w. induction n as [|n IH]; intros a w.
  - exists 0. cbn. rewrite app_nil_r. split; [lia|].
    split; [reflexivity|]. split; [reflexivity|].
    intros e H. discriminate H.
  - cbn [seq for_each]. unfold bind.
    destruct (run_openssl_result
                (Os.path_join (downloaded_dir task) (segment_name a))
                (Os.path_join (decrypted_dir task) (segment_name a))
                iv key_hex w) as [f' Hs].
    fold (decrypt_command task iv key_hex a) in Hs.
    fold (body a) in Hs.
    destruct Hs as [E|E]; rewrite E.
    + destruct (IH (S a) (World f' (log w ++ [Run (decrypt_command task iv key_hex a)])))
        as (k & Hk & Hl & Hok & Herr).
      exists (S k). split; [lia|]. cbn [seq map]. split.
      * rewrite Hl. cbn [log]. now rewrite <- app_assoc.
      * split.
        -- intros H. f_equal. now apply Hok.
        -- intros e H. destruct (Herr e H) as [Hpos ->]. split; [lia|].
           do 2 f_equal. lia.
    + exists 1. split; [lia|]. cbn [seq map fst snd log]. split; [reflexivity|].
      split; [discriminate|]. intros e H. injection H as <-.
      split; [lia|]. do 2 f_equal. lia.
Qed.

End StageFacts.

Section FileListFacts.

Lemma create_file_list_spec (task : Task) (w : world) :
  let list_path := Os.path_join (decrypted_dir task) "filelist.txt" in
  create_file_list task w
  = match sorted segment_key Z.ltb
            (Os.glob (fs w) (decrypted_dir task) ".ts") with
    | inl e => (inl e, w)
    | inr segments =>
        match write_file list_path
                (String.concat "" (map file_list_line segments)) w with
        | (inr _, w') => (inr list_path, w')
        | (inl e, w') => (inl e, w')
        end
    end.
Proof.
  intros list_path. unfold create_file_list, lift, get_fs, ret, bind.
  destruct (sorted _ _ _) as [e|segments]; [reflexivity|].
  fold list_path. destruct (write_file _ _ w) as [[e|u] w']; reflexivity.
Qed.

(** A file list that was written holds the globbed files in the order of
    their sort keys. *)
Lemma create_file_list_sorted (task : Task) (w w' : world) (list_path : string) :
  create_file_list task w = (inr list_path, w') ->
  exists segments,
    sorted segment_key Z.ltb (Os.glob (fs w) (decrypted_dir task) ".ts")
    = inr segments /\
    Os.lookup (fs w') list_path
    = Some (Os.File (String.concat "" (map file_list_line segments))).
Proof.
  rewrite create_file_list_spec.
  destruct (sorted _ _ _) as [e|segments]; [discriminate|].
  destruct (write_file _ _ w) as [[e|[]] w1] eqn:E; [discriminate|].
  intros H. injection H as <- <-. exists segments. split; [reflexivity|].
  apply write_file_done in E. subst w1. cbn [fs]. apply lookup_store_eq.
Qed.

Lemma file_list_lines (dir : string) (s : list nat) :
  map file_list_line (map (segment_path dir) s) = map list_line s.
Proof.
  rewrite map_map. apply map_ext. intros i.
  unfold file_list_line, list_line. now rewrite basename_segment.
Qed.

End FileListFacts.

Section EnumerateFacts.

Context {A : Type}.

Lemma enumerate_from_fst (a : nat) (l : list A) :
  map fst (Py.enumerate_from a l) = seq a (List.length l).
Proof.
  revert a. induction l as [|x l IH]; intros a; simpl; [reflexivity|].
  now rewrite IH.
Qed.

Lemma enumerate_from_snd (a : nat) (l : list A) :
  map snd (Py.enumerate_from a l) = l.
Proof.
  revert a. induction l as [|x l IH]; intros a; simpl; [reflexivity|].
  now rewrite IH.
Qed.

Lemma enumerate_from_nth (a i : nat) (l : list A) (x : A) :
  nth_error l i = Some x -> In (a + i, x) (Py.enumerate_from a l).
Proof.
  revert a i. induction l as [|y l IH]; intros a [|i]; simpl;
    try discriminate.
  - intros H. injection H as ->. left. f_equal. lia.
  - intros H. right. replace (a + S i) with (S a + i) by lia. now apply IH.
Qed.

(** Positions count from zero. *)
Lemma enumerate_nth (i : nat) (l : list A) (x : A) :
  nth_error l i = Some x -> In (i, x) (Py.enumerate l).
Proof. intros H. exact (enumerate_from_nth 0 i l x H). Qed.

Lemma enumerate_NoDup (l : list A) : NoDup (map fst (Py.enumerate l)).
Proof. unfold Py.enumerate. rewrite enumerate_from_fst. apply seq_NoDup. Qed.

End EnumerateFacts.

Section DownloadFacts.

Variable fetch : string -> exn + string.
Variable task : Task.
Hypothesis task_discovered : discovered task.

Lemma segment_path_not_dir (dir : string) (i : nat) : segment_path dir i <> dir.
Proof.
  unfold segment_path. intros H. rewrite <- (append_nil_r dir) in H at 2.
  apply append_inj_l in H. discriminate H.
Qed.

(** What a completing future does: the request, then either the file
    written or the error printed.  It never raises. *)
Lemma download_step_spec (i : nat) (url : string) (w : world) :
  let path := segment_path (downloaded_dir task) i in
  download_step fetch task (i, url) w
  = match fetch url with
    | inr content =>
        match Os.lookup (fs w) path with
        | Some Os.Dir =>
            (inr tt, World (fs w)
                       (log w ++ [HttpGet url;
                                  PrintExn "Download error : "
                                    (IsADirectoryError path)]))
        | _ =>
            if parent_ok (fs w) path
            then (inr tt, World (Os.store path (Os.File content) (fs w))
                            (log w ++ [HttpGet url]))
            else (inr tt, World (fs w)
                            (log w ++ [HttpGet url;
                                       PrintExn "Download error : "
                                         (no_parent (fs w) path)]))
        end
    | inl e =>
        (inr tt, World (fs w)
                   (log w ++ [HttpGet url;
                              PrintExn "Download error : " e]))
    end.
Proof.
  intros path. unfold download_step, download_segment. cbn [fst snd].
  rewrite (download_path task i task_discovered). fold path.
  unfold try_except, bind at 1, emit. unfold bind, lift. cbn [fs log].
  destruct (fetch url) as [e|content].
  - unfold print_exn, emit. cbn [fs log]. now rewrite <- app_assoc.
  - rewrite write_file_spec. cbn [fs log].
    destruct (Os.lookup (fs w) path) as [[x|]|];
      try destruct (parent_ok (fs w) path);
      unfold print_exn, emit; cbn [fs log]; rewrite <- ?app_assoc;
      reflexivity.
Qed.

Lemma download_step_cases (i : nat) (url : string) (w : world) :
  let path := segment_path (downloaded_dir task) i in
  exists f' errs,
    download_step fetch task (i, url) w
    = (inr tt, World f' (log w ++ HttpGet url :: errs)) /\
    filter is_get errs = [] /\
    (f' = fs w \/
     exists content,
       fetch url = inr content /\
       f' = Os.store path (Os.File content) (fs w)) /\
    (forall content,
       fetch url = inr content -> parent_ok (fs w) path = true ->
       Os.is_dir (fs w) path = false ->
       f' = Os.store path (Os.File content) (fs w)).
Proof.
  intros path. rewrite download_step_spec. fold path.
  destruct (fetch url) as [e|content].
  - exists (fs w), [PrintExn "Download error : " e].
    repeat split; auto. discriminate.
  - unfold Os.is_dir.
    destruct (Os.lookup (fs w) path) as [[x|]|];
      try destruct (parent_ok (fs w) path);
      first [ exists (Os.store path (Os.File content) (fs w)), [];
              repeat split; eauto; intros c Hc; injection Hc as <-; auto
            | eexists (fs w), [PrintExn "Download error : " _];
              repeat split; auto; intros c Hc; discriminate ].
Qed.

(** The loop over the completed futures never raises and issues one request
    per future. *)
Lemma download_loop_log (futures : list (nat * string)) (w : world) :
  fst (for_each futures (download_step fetch task) w) = inr tt /\
  exists d,
    log (snd (for_each futures (download_step fetch task) w)) = log w ++ d /\
    filter is_get d = map (fun future => HttpGet (snd future)) futures.
Proof.
  revert w. induction futures as [|[i url] futures IH]; intros w.
  - split; [reflexivity|]. exists []. cbn. now rewrite app_nil_r.
  - cbn [for_each]. unfold bind.
    destruct (download_step_cases i url w) as (f' & errs & E & Hg & _).
    rewrite E.
    destruct (IH (World f' (log w ++ HttpGet url :: errs)))
      as [Hr (d & Hl & Hd)].
    split; [exact Hr|]. exists ((HttpGet url :: errs) ++ d).
    rewrite Hl. cbn [log]. rewrite <- app_assoc. split; [reflexivity|].
    rewrite filter_app. cbn [filter is_get map snd]. rewrite Hg, Hd.
    reflexivity.
Qed.

(** A position no future carries keeps its file as it was. *)
Lemma download_loop_other (futures : list (nat * string)) (w : world)
    (i : nat) :
  ~ In i (map fst futures) ->
  Os.lookup (fs (snd (for_each futures (download_step fetch task) w)))
            (segment_path (downloaded_dir task) i)
  = Os.lookup (fs w) (segment_path (downloaded_dir task) i).
Proof.
  revert w. induction futures as [|[j url] futures IH]; intros w Hi.
  - reflexivity.
  - cbn [for_each]. unfold bind.
    destruct (download_step_cases j url w) as (f' & errs & E & _ & Hf & _).
    rewrite E. cbn [map fst] in Hi.
    rewrite IH by (intros H; apply Hi; now right). cbn [fs].
    destruct Hf as [->|(content & _ & ->)]; [reflexivity|].
    apply lookup_store_neq. intros H. apply segment_path_inj in H.
    apply Hi. now left.
Qed.

(** The file of position [i] holds what the request for the URL at that
    position returned, in whatever order the futures complete. *)
Lemma download_loop_file (futures : list (nat * string)) (w : world)
    (i : nat) (url content : string) :
  NoDup (map fst futures) -> In (i, url) futures ->
  fetch url = inr content ->
  Os.is_dir (fs w) (downloaded_dir task) = true ->
  (forall j, Os.is_dir (fs w) (segment_path (downloaded_dir task) j) = false) ->
  Os.lookup (fs (snd (for_each futures (download_step fetch task) w)))
            (segment_path (downloaded_dir task) i)
  = Some (Os.File content).
Proof.
  revert w. induction futures as [|[j u] futures IH];
    intros w Hnd Hin Hfetch Hdir Hfiles; [destruct Hin|].
  cbn [map fst] in Hnd. apply NoDup_cons_iff in Hnd as [Hj Hnd].
  cbn [for_each]. unfold bind.
  destruct (download_step_cases j u w) as (f' & errs & E & _ & Hf & Hok).
  rewrite E.
  destruct Hin as [Heq|Hin].
  - injection Heq as -> ->.
    rewrite download_loop_other by exact Hj. cbn [fs].
    rewrite (Hok content Hfetch); [apply lookup_store_eq| |apply Hfiles].
    unfold parent_ok. rewrite parent_segment, Hdir. apply orb_true_r.
  - apply IH; auto; cbn [fs].
    + destruct Hf as [->|(c & _ & ->)]; [exact Hdir|].
      rewrite is_dir_store_file.
      replace (_ =? _)%string with false; [exact Hdir|].
      symmetry. apply String.eqb_neq, segment_path_not_dir.
    + intros k. destruct Hf as [->|(c & _ & ->)]; [apply Hfiles|].
      rewrite is_dir_store_file. destruct (_ =? _)%string; auto.
Qed.

End DownloadFacts.

Section DecryptFacts.

Variable aes_cbc_decrypt : string -> string -> string -> outcome.
Variable task : Task.
Hypothesis task_discovered : discovered task.

Lemma workspace_paths_differ (i j : nat) :
  segment_path (decrypted_dir task) i <> segment_path (downloaded_dir task) j.
Proof.
  destruct task_discovered as (b & v & p & k & _ & ->).
  unfold segment_path. rewrite downloaded_dir_make, decrypted_dir_make.
  cbn [append]. discriminate.
Qed.

(** The command of position [i] reads and writes the files named by [i]. *)
Lemma decrypt_command_paths (iv key_hex : string) (i : nat) :
  decrypt_command task iv key_hex i
  = openssl_argv (segment_path (downloaded_dir task) i)
                 (segment_path (decrypted_dir task) i) iv key_hex.
Proof.
  unfold decrypt_command.
  now rewrite (download_path task i task_discovered),
              (decrypt_path task i task_discovered).
Qed.

(** One decryption command: it stores the plain text of the downloaded
    segment, or it fails, with no file changed but the decrypted segment of
    its position. *)
Lemma decrypt_step_cases (iv key_hex : string) (a : nat) (w : world) :
  let body := fun i =>
    run_openssl aes_cbc_decrypt
      (Os.path_join (downloaded_dir task) (segment_name i))
      (Os.path_join (decrypted_dir task) (segment_name i)) iv key_hex in
  (exists data plain,
     Os.lookup (fs w) (segment_path (downloaded_dir task) a)
     = Some (Os.File data) /\
     aes_cbc_decrypt key_hex iv data = Decrypted plain /\
     parent_ok (fs w) (segment_path (decrypted_dir task) a) = true /\
     body a w
     = (inr tt,
        World (Os.store (segment_path (decrypted_dir task) a)
                 (Os.File plain) (fs w))
              (log w ++ [Run (decrypt_command task iv key_hex a)])))
  \/
  (exists f',
     body a w
     = (inl (CalledProcessError (decrypt_command task iv key_hex a)),
        World f' (log w ++ [Run (decrypt_command task iv key_hex a)])) /\
     (f' = fs w \/
      exists written,
        f' = Os.store (segment_path (decrypted_dir task) a)
               (Os.File written) (fs w))).
Proof.
  cbv zeta beta. rewrite decrypt_command_paths.
  rewrite (download_path task a task_discovered),
          (decrypt_path task a task_discovered).
  rewrite run_openssl_spec
    by (intros E; symmetry in E; revert E; apply workspace_paths_differ).
  cbv zeta beta.
  destruct (Os.lookup (fs w) (segment_path (downloaded_dir task) a))
    as [n|]; eauto.
  destruct (Os.is_dir (fs w) (segment_path (decrypted_dir task) a)); eauto.
  destruct (parent_ok (fs w) (segment_path (decrypted_dir task) a)) eqn:Ep;
    eauto.
  destruct n as [data|]; [|eauto 6].
  destruct (aes_cbc_decrypt key_hex iv data) as [plain|written] eqn:Ea.
  - left. exists data, plain. auto.
  - right. eexists. split; [reflexivity|]. right. now exists written.
Qed.

(** A missing input among the positions still to come makes the loop
    fail. *)
Lemma decrypt_loop_missing (iv key_hex : string) (n a i : nat) (w : world) :
  a <= i < a + n ->
  Os.is_file (fs w) (segment_path (downloaded_dir task) i) = false ->
  fst (for_each (seq a n)
         (fun i =>
            run_openssl aes_cbc_decrypt
              (Os.path_join (downloaded_dir task) (segment_name i))
              (Os.path_join (decrypted_dir task) (segment_name i))
              iv key_hex) w)
  <> inr tt.
Proof.
  revert a w. induction n as [|n IH]; intros a w Hi Hm; [lia|].
  cbn [seq for_each]. rewrite bind_eq.
  destruct (decrypt_step_cases iv key_hex a w)
    as [(data & plain & Hsrc & _ & _ & E)|(f' & E & _)];
    cbv zeta beta in E; rewrite E; [|discriminate].
  destruct (Nat.eq_dec a i) as [->|Hne].
  - unfold Os.is_file in Hm. rewrite Hsrc in Hm. discriminate Hm.
  - apply IH; [lia|]. cbn [fs]. unfold Os.is_file.
    rewrite lookup_store_neq by apply workspace_paths_differ. exact Hm.
Qed.

(** The loop changes no path but those of the decrypted segments of its
    positions. *)
Lemma decrypt_loop_frame (iv key_hex : string) (n a : nat) (w : world)
    (p : string) :
  (forall i, a <= i < a + n -> p <> segment_path (decrypted_dir task) i) ->
  Os.lookup
    (fs (snd (for_each (seq a n)
                (fun i =>
                   run_openssl aes_cbc_decrypt
                     (Os.path_join (downloaded_dir task) (segment_name i))
                     (Os.path_join (decrypted_dir task) (segment_name i))
                     iv key_hex) w))) p
  = Os.lookup (fs w) p.
Proof.
  revert a w. induction n as [|n IH]; intros a w Hp; [reflexivity|].
  cbn [seq for_each]. rewrite bind_eq.
  destruct (decrypt_step_cases iv key_hex a w)
    as [(data & plain & _ & _ & _ & E)|(f' & E & Hf)];
    cbv zeta beta in E; rewrite E.
  - rewrite IH by (intros i Hi; apply Hp; lia). cbn [fs].
    apply lookup_store_neq. intros H. apply (Hp a); [lia | now symmetry].
  - cbn [snd fs]. destruct Hf as [->|(written & ->)]; [reflexivity|].
    apply lookup_store_neq. intros H. apply (Hp a); [lia | now symmetry].
Qed.

(** A loop that succeeds has decrypted every downloaded segment of its
    positions. *)
Lemma decrypt_loop_data (iv key_hex : string) (n a : nat) (w : world) :
  fst (for_each (seq a n)
         (fun i =>
            run_openssl aes_cbc_decrypt
              (Os.path_join (downloaded_dir task) (segment_name i))
              (Os.path_join (decrypted_dir task) (segment_name i))
              iv key_hex) w) = inr tt ->
  forall i, a <= i < a + n ->
    exists data plain,
      Os.lookup (fs w) (segment_path (downloaded_dir task) i)
      = Some (Os.File data) /\
      aes_cbc_decrypt key_hex iv data = Decrypted plain /\
      Os.lookup
        (fs (snd (for_each (seq a n)
                    (fun i =>
                       run_openssl aes_cbc_decrypt
                         (Os.path_join (downloaded_dir task) (segment_name i))
                         (Os.path_join (decrypted_dir task) (segment_name i))
                         iv key_hex) w)))
        (segment_path (decrypted_dir task) i)
      = Some (Os.File plain).
Proof.
  revert a w. induction n as [|n IH]; intros a w Hok i Hi; [lia|].
  cbn [seq for_each] in Hok |- *. rewrite bind_eq in Hok |- *.
  destruct (decrypt_step_cases iv key_hex a w)
    as [(data & plain & Hsrc & Haes & _ & E)|(f' & E & _)];
    cbv zeta beta in E; rewrite E in Hok |- *; [|discriminate].
  destruct (Nat.eq_dec i a) as [->|Hne].
  - exists data, plain. split; [exact Hsrc|]. split; [exact Haes|].
    rewrite decrypt_loop_frame
      by (intros j Hj H; apply segment_path_inj in H; lia).
    cbn [fs]. apply lookup_store_eq.
  - destruct (IH (S a) _ Hok i ltac:(lia)) as (d & pl & Hs & Ha & Hl).
    exists d, pl. split; [|split; assumption].
    cbn [fs] in Hs.
    rewrite lookup_store_neq in Hs by apply workspace_paths_differ.
    exact Hs.
Qed.

(** The command of position [i], word by word. *)
Lemma decrypt_command_words (iv key_hex : string) (i : nat) :
  decrypt_command task iv key_hex i
  = ["openssl"; "aes-128-cbc"; "-d";
     "-in"; downloaded_dir task +++ "/segment" +++ Py.str i +++ ".ts";
     "-out"; decrypted_dir task +++ "/segment" +++ Py.str i +++ ".ts";
     "-nosalt"; "-iv"; iv; "-K"; key_hex].
Proof. rewrite decrypt_command_paths. reflexivity. Qed.

End DecryptFacts.

(** * Facts about a whole task *)

Section TaskFacts.

Variable fetch : string -> exn + string.
Variable aes_cbc_decrypt : string -> string -> string -> outcome.
Variable ffmpeg_concat : Os.filesystem -> list string -> option string.
Variable as_completed : list (nat * string) -> list (nat * string).

(** [process_task_body] is its first half followed by its second half. *)
Lemma process_task_body_split (task : Task) (w : world) :
  process_task_body fetch aes_cbc_decrypt ffmpeg_concat as_completed task w
  = bind (before_decrypt fetch as_completed task)
         (from_decrypt aes_cbc_decrypt ffmpeg_concat task) w.
Proof.
  unfold process_task_body, before_decrypt, from_decrypt, bind, ret.
  destruct (mkdir true true (downloaded_dir task) w) as [[e|[]] w1];
    [reflexivity|].
  destruct (mkdir true true (decrypted_dir task) w1) as [[e|[]] w2];
    [reflexivity|].
  destruct (read_file (key task) w2) as [[e|key_bytes] w3]; [reflexivity|].
  destruct (parse_m3u8 (playlist task) w3) as [[e|parsed] w4]; [reflexivity|].
  destruct (print _ w4) as [[e|[]] w5]; [reflexivity|].
  destruct (download_segments fetch as_completed task (snd parsed) w5)
    as [[e|[]] w6]; [reflexivity|].
  destruct (print "Decrypting segments..." w6) as [[e|[]] w7];
    [reflexivity|].
  cbn [fst snd]. reflexivity.
Qed.

Lemma process_task_spec (task : Task) (w : world) :
  process_task fetch aes_cbc_decrypt ffmpeg_concat as_completed task w
  = process_task_body fetch aes_cbc_decrypt ffmpeg_concat as_completed task
      (World (fs w) (log w ++ [processing_line task])).
Proof.
  unfold process_task, bind, print, emit, try_finally, sleep, ret.
  cbn [fs log]. fold (processing_line task).
  destruct (process_task_body _ _ _ _ task _) as [r w']. reflexivity.
Qed.

Section Respects.

Variable I : Os.filesystem -> Prop.
Variable Q : event -> Prop.
Variable task : Task.

Hypothesis I_new_dir :
  forall f p, I f -> Os.lookup f p = None -> I (f ++ [(p, Os.Dir)]).
Hypothesis I_write :
  forall p d f, task_writes task p -> I f -> I (Os.store p (Os.File d) f).
Hypothesis Q_inner : forall e, inner e -> Q e.

Lemma Q_print (s : string) :
  Py.startswith (NL +++ "Processing ") s = false ->
  Py.startswith "Failed to process " s = false -> Q (Print s).
Proof. intros H1 H2. apply Q_inner. now split. Qed.

Lemma respects_download_segments (segments : list string) :
  respects I Q (download_segments fetch as_completed task segments).
Proof.
  unfold download_segments. apply respects_for_each. intros [i url] _.
  apply respects_try_except.
  - unfold download_segment.
    apply respects_bind; [apply respects_emit, Q_inner; exact Logic.I|].
    intros _. apply respects_bind; [apply respects_lift|].
    intros content. apply respects_write_file.
    intros f. apply I_write. left. now exists i.
  - intros e. apply respects_emit, Q_inner. split; reflexivity.
Qed.

Lemma respects_run_openssl (i : nat) (iv key_hex : string) :
  respects I Q
    (run_openssl aes_cbc_decrypt
       (Os.path_join (downloaded_dir task) (segment_name i))
       (Os.path_join (decrypted_dir task) (segment_name i)) iv key_hex).
Proof.
  unfold run_openssl.
  apply respects_bind; [apply respects_emit, Q_inner; exact Logic.I|].
  intros _. apply respects_try_except; [|intros e; apply respects_raise].
  assert (Hw : forall d,
             respects I Q
               (write_file (Os.path_join (decrypted_dir task) (segment_name i))
                           d)).
  { intros d. apply respects_write_file. intros f. apply I_write.
    right. left. now exists i. }
  apply respects_get_fs. intros w.
  apply respects_at_bind;
    [destruct (Os.path_exists (fs w) _);
     [apply respects_ret | apply respects_raise]|].
  intros _ _.
  assert (Hrest : forall m : M unit, respects I Q m ->
            respects_at I Q m
              (snd ((if Os.path_exists (fs w)
                          (Os.path_join (downloaded_dir task)
                             (segment_name i))
                     then ret tt
                     else raise (FileNotFoundError
                                   (Os.path_join (downloaded_dir task)
                                      (segment_name i)))) w)))
    by (intros m Hm; apply Hm).
  apply Hrest.
  apply respects_bind; [apply Hw|]. intros _.
  apply respects_bind; [apply respects_read_file|]. intros data.
  destruct (aes_cbc_decrypt key_hex iv data); [apply Hw|].
  apply respects_bind; [apply Hw|]. intros _. apply respects_raise.
Qed.

Lemma respects_decrypt_segments (iv key_hex : string) (segments : list string) :
  respects I Q (decrypt_segments aes_cbc_decrypt task iv key_hex segments).
Proof.
  unfold decrypt_segments. apply respects_for_each. intros i _.
  apply respects_run_openssl.
Qed.

Lemma respects_create_file_list : respects I Q (create_file_list task).
Proof.
  unfold create_file_list. apply respects_get_fs. intros w.
  apply respects_at_bind; [apply respects_lift|]. intros segments _.
  apply respects_bind; [|intros _; apply respects_ret].
  apply respects_write_file. intros f. apply I_write. right. right. now left.
Qed.

Lemma respects_run_ffmpeg (task_file_list : string) :
  respects I Q (run_ffmpeg ffmpeg_concat task_file_list (output_file task)).
Proof.
  unfold run_ffmpeg.
  apply respects_bind; [apply respects_emit, Q_inner; exact Logic.I|].
  intros _. apply respects_get_fs. intros w.
  destruct (ffmpeg_concat (fs w) _); [|apply respects_raise].
  apply respects_try_except; [|intros e; apply respects_raise].
  apply respects_write_file. intros f. apply I_write. now repeat right.
Qed.

Lemma respects_process_task_body :
  respects I Q
    (process_task_body fetch aes_cbc_decrypt ffmpeg_concat as_completed task).
Proof.
  unfold process_task_body.
  apply respects_bind; [now apply respects_mkdir|]. intros _.
  apply respects_bind; [now apply respects_mkdir|]. intros _.
  apply respects_bind; [apply respects_read_file|]. intros key_bytes.
  apply respects_bind; [apply respects_parse_m3u8|]. intros parsed.
  apply respects_bind; [apply respects_emit, Q_print; reflexivity|].
  intros _. apply respects_bind; [apply respects_download_segments|].
  intros _. apply respects_bind; [apply respects_emit, Q_print; reflexivity|].
  intros _. apply respects_bind; [apply respects_decrypt_segments|].
  intros _. apply respects_bind; [apply respects_create_file_list|].
  intros task_file_list.
  apply respects_bind; [apply respects_emit, Q_print; reflexivity|].
  intros _. apply respects_bind; [apply respects_run_ffmpeg|].
  intros _. apply respects_ret.
Qed.

End Respects.

End TaskFacts.

(** * Facts about the whole run *)

Section ResetFacts.

Lemma join_input_outside (name : string) :
  (Os.path_join input_dir name =? base_dir)%string = false /\
  Py.startswith (base_dir +++ "/") (Os.path_join input_dir name) = false.
Proof.
  unfold Os.path_join, input_dir, base_dir.
  destruct (Py.startswith "/" name) eqn:E.
  - apply prefix_decompose in E. rewrite E. split; reflexivity.
  - split; reflexivity.
Qed.

Lemma lookup_reset (f : Os.filesystem) (q : string) :
  (q =? base_dir)%string = false ->
  Py.startswith (base_dir +++ "/") q = false ->
  Os.lookup (reset f) q = Os.lookup f q.
Proof.
  intros H1 H2. unfold reset. rewrite lookup_app.
  rewrite (lookup_rmtree_other base_dir q f H1 H2).
  destruct (Os.lookup f q); [reflexivity|].
  cbn [Os.lookup]. now rewrite String.eqb_sym, H1.
Qed.

Lemma glob_match_outside (suffix q : string) (n : Os.node) :
  Os.glob_match input_dir suffix q = true ->
  negb ((fst (q, n) =? base_dir)%string
        || Py.startswith (base_dir +++ "/") (fst (q, n))) = true.
Proof.
  unfold Os.glob_match. intros H. apply andb_prop in H as [H _].
  apply prefix_decompose in H. cbn [fst]. rewrite H. reflexivity.
Qed.

Lemma filter_glob_rmtree (suffix : string) (f : Os.filesystem) :
  filter (Os.glob_match input_dir suffix) (map fst (Os.rmtree base_dir f))
  = filter (Os.glob_match input_dir suffix) (map fst f).
Proof.
  unfold Os.rmtree. destruct (Os.lookup f base_dir) as [[d|]|];
    try reflexivity.
  induction f as [|[q n] f IH]; [reflexivity|].
  cbn [filter map].
  destruct (Os.glob_match input_dir suffix q) eqn:E.
  - rewrite (glob_match_outside suffix q n E). cbn [map filter fst].
    rewrite E. now rewrite IH.
  - destruct (negb _); cbn [map filter fst]; rewrite ?E; exact IH.
Qed.

(** Resetting the workspace leaves the input directory as it was. *)
Lemma glob_reset (suffix : string) (f : Os.filesystem) :
  Os.glob (reset f) input_dir suffix = Os.glob f input_dir suffix.
Proof.
  unfold Os.glob, Os.is_dir.
  rewrite (lookup_reset f input_dir eq_refl eq_refl).
  destruct (Os.lookup f input_dir) as [[d|]|]; try reflexivity.
  unfold reset. rewrite map_app, filter_app, filter_glob_rmtree.
  cbn [map filter fst]. apply app_nil_r.
Qed.

Lemma missing_key_reset (f : Os.filesystem) (p : string) :
  missing_key (reset f) p = missing_key f p.
Proof.
  unfold missing_key. destruct (re_match (Os.basename p)) as [[b v]|];
    [|reflexivity].
  unfold Os.path_exists.
  destruct (join_input_outside (key_file_of b v)) as [H1 H2].
  now rewrite (lookup_reset f _ H1 H2).
Qed.

Lemma glob_needs_dir (f : Os.filesystem) (dir suffix p : string) :
  In p (Os.glob f dir suffix) -> Os.path_exists f dir = true.
Proof.
  unfold Os.glob, Os.is_dir, Os.path_exists.
  destruct (Os.lookup f dir) as [[d|]|]; simpl; intros H;
    (reflexivity || destruct H).
Qed.

(** After the final cleanup the workspace is no directory, and it is gone
    unless a regular file stood in its place. *)
Lemma cleaned_spec (f : Os.filesystem) :
  Os.is_dir (cleaned f) base_dir = false /\
  (workspace_free f -> Os.path_exists (cleaned f) base_dir = false).
Proof.
  unfold cleaned, workspace_free, Os.path_exists, Os.is_dir, Os.is_file.
  destruct (Os.lookup f base_dir) as [[d|]|] eqn:E.
  - rewrite lookup_rmtree_self, E. split; [reflexivity | discriminate].
  - rewrite lookup_rmtree_self, E. split; reflexivity.
  - rewrite E. split; reflexivity.
Qed.

Lemma reset_workspace_free (f : Os.filesystem) :
  workspace_free f -> Os.lookup (Os.rmtree base_dir f) base_dir = None.
Proof.
  unfold workspace_free, Os.is_file. rewrite lookup_rmtree_self.
  destruct (Os.lookup f base_dir) as [[d|]|]; (reflexivity || discriminate).
Qed.

Lemma mkdir_base (f : Os.filesystem) (l : list event) :
  Os.lookup f base_dir = None ->
  mkdir false true base_dir (World f l)
  = (inr tt, World (f ++ [(base_dir, Os.Dir)]) l).
Proof.
  intros H. unfold mkdir. cbn [String.length base_dir path_mkdir].
  unfold try_except, os_mkdir, bind, get_fs, put_fs, with_fs.
  cbn [fs log]. rewrite H. reflexivity.
Qed.

End ResetFacts.

Section MainFacts.

Variable fetch : string -> exn + string.
Variable aes_cbc_decrypt : string -> string -> string -> outcome.
Variable ffmpeg_concat : Os.filesystem -> list string -> option string.
Variable as_completed : list (nat * string) -> list (nat * string).
Variable resolve : string -> string.
Variable size_mb : Os.node -> string.

Local Abbreviation run_tasks :=
  (process_tasks fetch aes_cbc_decrypt ffmpeg_concat as_completed).
Local Abbreviation run_main_body :=
  (main_body fetch aes_cbc_decrypt ffmpeg_concat as_completed resolve size_mb).
Local Abbreviation run_main :=
  (main fetch aes_cbc_decrypt ffmpeg_concat as_completed resolve size_mb).

Lemma final_cleanup_spec (w : world) :
  final_cleanup w = (inr tt, World (cleaned (fs w)) (log w ++ cleanup_lines)).
Proof.
  unfold final_cleanup, cleaned, bind, print, emit, sleep, ret, get_fs,
    put_fs, with_fs. cbn [fs log].
  destruct (Os.path_exists (fs w) base_dir); cbn [fs log];
    now rewrite <- app_assoc.
Qed.

(** [main] returns what its [try] block returns, after the cleanup. *)
Lemma main_spec (w : world) :
  run_main w
  = (fst (run_main_body w),
     World (cleaned (fs (snd (run_main_body w))))
           (log (snd (run_main_body w)) ++ cleanup_lines)).
Proof.
  unfold main, try_finally.
  destruct (run_main_body w) as [r w1]. now rewrite final_cleanup_spec.
Qed.

Lemma main_body_spec (w : world) :
  run_main_body w
  = if negb (Os.path_exists (fs w) input_dir)
    then (inl (FileNotFoundError
                 ("Input directory '" +++ input_dir +++ "' not found")), w)
    else
      match mkdir false true base_dir
              (World (Os.rmtree base_dir (fs w)) (log w)) with
      | (inl e, w2) => (inl e, w2)
      | (inr _, w2) =>
          match find_tasks w2 with
          | (inl e, w3) => (inl e, w3)
          | (inr [], w3) =>
              (inl (ValueError ("No valid playlist/key pairs found in "
                                +++ input_dir)), w3)
          | (inr (task :: rest), w3) =>
              match run_tasks (task :: rest) [] w3 with
              | (inl e, w4) => (inl e, w4)
              | (inr output_files, w4) => report resolve size_mb output_files w4
              end
          end
      end.
Proof.
  unfold main_body, bind, get_fs, put_fs, with_fs, raise, ret.
  destruct (negb (Os.path_exists (fs w) input_dir)); [reflexivity|].
  cbn [fs log].
  destruct (mkdir false true base_dir _) as [[e|[]] w2]; [reflexivity|].
  destruct (find_tasks w2) as [[e|[|task rest]] w3]; reflexivity.
Qed.

Section KeepsWorkspaceFree.

Lemma free_new_dir (f : Os.filesystem) (p : string) :
  workspace_free f -> Os.lookup f p = None ->
  workspace_free (f ++ [(p, Os.Dir)]).
Proof.
  unfold workspace_free, Os.is_file. intros H _. rewrite lookup_app.
  destruct (Os.lookup f base_dir) as [[d|]|]; try assumption.
  cbn [Os.lookup]. destruct (p =? base_dir)%string; reflexivity.
Qed.

Lemma output_file_not_workspace (b v : string) :
  b +++ " " +++ v +++ ".mp4" <> base_dir.
Proof.
  intros H. apply (f_equal (avoids " ")) in H.
  rewrite avoids_app in H. cbn in H. rewrite andb_false_r in H.
  discriminate H.
Qed.

Lemma task_writes_outside (task : Task) (p : string) :
  discovered task -> task_writes task p -> p <> base_dir.
Proof.
  intros Hd Hw.
  destruct Hw as [[i ->]|[[i ->]|[->| ->]]].
  - rewrite (download_path task i Hd).
    destruct Hd as (b & v & q & k & _ & ->). discriminate.
  - rewrite (decrypt_path task i Hd).
    destruct Hd as (b & v & q & k & _ & ->). discriminate.
  - destruct Hd as (b & v & q & k & Hv & ->).
    rewrite decrypted_dir_make, join_in_workspace by (auto || reflexivity).
    discriminate.
  - destruct Hd as (b & v & q & k & _ & ->). apply output_file_not_workspace.
Qed.

Lemma free_write (task : Task) (p d : string) (f : Os.filesystem) :
  discovered task -> task_writes task p ->
  workspace_free f -> workspace_free (Os.store p (Os.File d) f).
Proof.
  intros Hd Hw. unfold workspace_free, Os.is_file.
  now rewrite lookup_store_neq by (eapply task_writes_outside; eassumption).
Qed.

Lemma respects_process_task (task : Task) :
  discovered task ->
  respects workspace_free any_event
    (process_task fetch aes_cbc_decrypt ffmpeg_concat as_completed task).
Proof.
  intros Hd. unfold process_task.
  apply respects_bind; [now apply respects_emit|]. intros _.
  apply respects_try_finally; [|apply respects_ret].
  apply respects_process_task_body.
  - exact free_new_dir.
  - intros p d f. now apply free_write.
  - intros e _. exact Logic.I.
Qed.

Lemma respects_process_tasks (tasks : list Task) (output_files : list string) :
  Forall discovered tasks ->
  respects workspace_free any_event (run_tasks tasks output_files).
Proof.
  intros Hd. revert output_files.
  induction Hd as [|task rest Ht _ IH]; intros output_files;
    cbn [process_tasks].
  - apply respects_ret.
  - apply respects_bind; [|intros out; apply IH].
    apply respects_try_except.
    + apply respects_bind; [now apply respects_process_task|].
      intros o. apply respects_ret.
    + intros e. apply respects_bind; [now apply respects_emit|].
      intros _. apply respects_ret.
Qed.

Lemma respects_report (output_files : list string) :
  respects workspace_free any_event (report resolve size_mb output_files).
Proof.
  unfold report. apply respects_bind; [now apply respects_emit|].
  intros _. apply respects_for_each. intros file _.
  apply respects_get_fs. intros w.
  destruct (Os.lookup (fs w) file);
    [now apply respects_emit | apply respects_ret].
Qed.

(** The [try] block of [main] never puts a regular file where the
    workspace goes. *)
Lemma main_body_keeps_free (w : world) :
  workspace_free (fs w) -> workspace_free (fs (snd (run_main_body w))).
Proof.
  intros Hfree. rewrite main_body_spec.
  destruct (negb (Os.path_exists (fs w) input_dir)); [exact Hfree|].
  assert (H1 : workspace_free (Os.rmtree base_dir (fs w))).
  { unfold workspace_free, Os.is_file.
    now rewrite (reset_workspace_free _ Hfree). }
  destruct (respects_mkdir workspace_free any_event free_new_dir false true base_dir
              (World (Os.rmtree base_dir (fs w)) (log w)) H1) as [H2 _].
  destruct (mkdir false true base_dir _) as [[e|[]] w2]; [exact H2|].
  cbn [snd] in H2.
  pose proof (find_tasks_fs w2) as Hfs.
  pose proof (find_tasks_discovered w2) as Hdisc.
  destruct (find_tasks w2) as [[e|tasks] w3]; cbn [fst snd] in *;
    rewrite <- Hfs in H2; [exact H2|].
  destruct tasks as [|task rest]; [exact H2|].
  destruct (respects_process_tasks (task :: rest) [] (Hdisc _ eq_refl) w3 H2)
    as [H3 _].
  destruct (run_tasks (task :: rest) [] w3) as [[e|output_files] w4];
    [exact H3|]. cbn [snd] in H3.
  exact (proj1 (respects_report output_files w4 H3)).
Qed.

End KeepsWorkspaceFree.

(** With a key file missing, [main] stops in discovery: it prints warnings
    and the cleanup lines, and nothing else. *)
Lemma main_missing_key (w : world) (p : string) :
  In p (Os.glob (fs w) input_dir ".m3u8") ->
  missing_key (fs w) p = true ->
  workspace_free (fs w) ->
  exists msg warned,
    run_main w
    = (inl (FileNotFoundError msg),
       World (cleaned (reset (fs w)))
             (log w ++ map skip_warning warned ++ cleanup_lines)).
Proof.
  intros Hin Hm Hfree. rewrite main_spec, main_body_spec.
  rewrite (glob_needs_dir _ _ _ _ Hin). cbn [negb].
  rewrite (mkdir_base _ _ (reset_workspace_free _ Hfree)).
  fold (reset (fs w)).
  destruct (find_tasks_cases (World (reset (fs w)) (log w)))
    as [(Hall & _)|(pre & q & post & b & v & _ & _ & _ & _ & E)].
  - exfalso. cbn [fs] in Hall. rewrite glob_reset in Hall.
    rewrite forallb_forall in Hall. specialize (Hall p Hin).
    rewrite missing_key_reset, Hm in Hall. discriminate Hall.
  - rewrite E. cbn [fst snd fs log].
    exists ("Missing key file: " +++ key_file_of b v), (filter bad_name pre).
    now rewrite <- app_assoc.
Qed.

End MainFacts.

(** * Task discovery: ordering, key files, workspaces *)

(** C4. Whatever the input directory holds: where no matching playlist
    lacks its key file, [find_tasks] returns the tasks of the matching
    playlists in ascending order of their version labels, the labels
    compared as pairs of integers and not as text; where one does, it stops
    at the first of them with the error that names the missing key file. *)
Theorem find_tasks_sorted_by_version (w : world) :
  (forallb (fun p => negb (missing_key (fs w) p))
     (Os.glob (fs w) input_dir ".m3u8") = true /\
   exists tasks,
     fst (find_tasks w) = inr tasks /\
     StronglySorted version_precedes tasks /\
     Permutation tasks (tasks_of (Os.glob (fs w) input_dir ".m3u8")))
  \/
  (exists pre p post b v,
     Os.glob (fs w) input_dir ".m3u8" = pre ++ p :: post /\
     forallb (fun p => negb (missing_key (fs w) p)) pre = true /\
     missing_key (fs w) p = true /\
     re_match (Os.basename p) = Some (b, v) /\
     fst (find_tasks w)
     = inl (FileNotFoundError ("Missing key file: " +++ b +++ v +++ ".bin"))).
Proof.
  destruct (find_tasks_cases w)
    as [(Hall & ts & E & HP & HS)
       |(pre & p & post & b & v & Hp & Hpre & Hm & Hb & E)].
  - left. split; [exact Hall|]. exists ts. rewrite E. auto.
  - right. exists pre, p, post, b, v. rewrite E. auto 6.
Qed.

(** C9 fails in the code.  Two playlists that differ in their base name
    and carry the same version label are two tasks with one download
    directory and one decrypt directory.  Here the first has two segments
    and the second has one: the second task finds the second segment of the
    first in its decrypt directory, lists it for the muxer, and its output
    is made from it. *)
Theorem same_version_mixes_segments :
  fst (find_tasks shared_version_world) = inr [task_a; task_b] /\
  task_a <> task_b /\
  downloaded_dir task_a = downloaded_dir task_b /\
  decrypted_dir task_a = decrypted_dir task_b /\
  fst (parse_m3u8 (playlist task_b) shared_version_world)
  = inr ("01", ["http://host/c.ts?x=3"]) /\
  fst (process_tasks sample_fetch sample_decrypt list_reader in_order
         [task_a; task_b] [] shared_version_world)
  = inr ["a 1.0.mp4"; "b 1.0.mp4"] /\
  Os.lookup
    (fs (snd (process_tasks sample_fetch sample_decrypt list_reader in_order
                [task_a; task_b] [] shared_version_world)))
    "processing/decrypted_1.0/segment1.ts"
  = Some (Os.File "http://host/b.ts?x=2") /\
  Os.lookup
    (fs (snd (process_tasks sample_fetch sample_decrypt list_reader in_order
                [task_a; task_b] [] shared_version_world)))
    "b 1.0.mp4"
  = Some (Os.File ("file 'segment0.ts'" +++ NL
                   +++ "file 'segment1.ts'" +++ NL)).
Proof.
  split; [vm_compute; reflexivity|].
  split; [discriminate|].
  split; [reflexivity|]. split; [reflexivity|].
  split; [vm_compute; reflexivity|].
  split; [vm_compute; reflexivity|].
  split; vm_compute; reflexivity.
Qed.

(** Versions 1.9, 1.10, 2.0 and 10.0 come out in that order, whatever the
    order of the directory. *)
Example versions_sort_as_integers :
  map version
    (match fst (find_tasks
                  (World [("inputfiles", Os.Dir);
                          ("inputfiles/a10.0.m3u8", Os.File "");
                          ("inputfiles/a10.0.bin", Os.File "");
                          ("inputfiles/a1.10.m3u8", Os.File "");
                          ("inputfiles/a1.10.bin", Os.File "");
                          ("inputfiles/a2.0.m3u8", Os.File "");
                          ("inputfiles/a2.0.bin", Os.File "");
                          ("inputfiles/a1.9.m3u8", Os.File "");
                          ("inputfiles/a1.9.bin", Os.File "")] [])) with
     | inr tasks => tasks
     | inl _ => []
     end)
  = ["1.9"; "1.10"; "2.0"; "10.0"].
Proof. vm_compute. reflexivity. Qed.

(** * The playlist parser *)

Lemma decode_valid (data : string) :
  utf8_valid data = true -> Py.decode data = inr data.
Proof.
  unfold utf8_valid, Py.decode.
  destruct (Py.undecodable 0 data) as [[good [bad|]]|];
    [discriminate.. | reflexivity].
Qed.

Lemma decode_text (data text : string) :
  Py.decode data = inr text -> text = data /\ utf8_valid data = true.
Proof.
  unfold utf8_valid, Py.decode.
  destruct (Py.undecodable 0 data) as [[good [bad|]]|];
    [discriminate.. |]. intros H. injection H as <-. auto.
Qed.

(** The parser on a file: the text is decoded and read line by line; where
    the data does not decode, the lines before are read and the decoding
    error follows unless one of them has failed already. *)
Lemma parse_m3u8_reads (path data : string) (w : world) :
  Os.lookup (fs w) path = Some (Os.File data) ->
  parse_m3u8 path w
  = (match Py.decode data with
     | inr text => parse_text path text
     | inl seen =>
         match scan_lines None [] seen with
         | inl e => inl e
         | inr _ => inl (UnicodeDecodeError data)
         end
     end, w).
Proof.
  intros H. unfold parse_m3u8, read_file, bind, get_fs, lift, raise, ret.
  rewrite H. destruct (Py.decode data) as [seen|text]; [|reflexivity].
  destruct (scan_lines None [] seen) as [e|r]; reflexivity.
Qed.

Lemma parse_m3u8_valid (path data : string) (w : world) :
  Os.lookup (fs w) path = Some (Os.File data) -> utf8_valid data = true ->
  parse_m3u8 path w = (parse_text path data, w).
Proof.
  intros H Hv. now rewrite (parse_m3u8_reads _ _ _ H), (decode_valid _ Hv).
Qed.

(** A file that does not decode makes the parser fail. *)
Lemma parse_m3u8_undecodable (path data : string) (w : world) :
  Os.lookup (fs w) path = Some (Os.File data) -> utf8_valid data = false ->
  exists e, parse_m3u8 path w = (inl e, w).
Proof.
  intros H Hv. rewrite (parse_m3u8_reads _ _ _ H).
  destruct (Py.decode data) as [seen|text] eqn:E.
  - destruct (scan_lines None [] seen) as [e|r]; eauto.
  - apply decode_text in E as [_ E]. congruence.
Qed.

(** A parse that succeeds has read a file that decodes. *)
Lemma parse_m3u8_success (path data iv : string) (segments : list string)
    (w : world) :
  Os.lookup (fs w) path = Some (Os.File data) ->
  fst (parse_m3u8 path w) = inr (iv, segments) ->
  utf8_valid data = true /\ parse_text path data = inr (iv, segments).
Proof.
  intros H. rewrite (parse_m3u8_reads _ _ _ H). cbn [fst].
  destruct (Py.decode data) as [seen|text] eqn:E.
  - destruct (scan_lines None [] seen) as [e|r]; discriminate.
  - apply decode_text in E as [-> E]. auto.
Qed.

Lemma last_opt_snoc {A} (l : list A) (x : A) : last_opt (l ++ [x]) = Some x.
Proof. unfold last_opt. now rewrite rev_app_distr. Qed.

Lemma last_opt_some {A} (l : list A) (x : A) :
  last_opt l = Some x -> exists l', l = l' ++ [x].
Proof.
  unfold last_opt. destruct (rev l) as [|y r] eqn:E; [discriminate|].
  intros H. injection H as ->. exists (rev r).
  rewrite <- (rev_involutive l), E. reflexivity.
Qed.

(** A successful parse returns the value of the last [IV] attribute, which
    is not empty, and the segment lines. *)
Lemma parse_text_success (path text iv : string) (segments : list string) :
  parse_text path text = inr (iv, segments) ->
  (exists attrs attr, iv_attrs text = attrs ++ [attr] /\ iv = iv_value attr)
  /\ iv <> "" /\ segments = segment_lines text.
Proof.
  destruct (parse_text_cases path text) as [->| ->]; [discriminate|].
  rewrite iv_after_last.
  destruct (last_opt (iv_attrs text)) as [attr|] eqn:El; [|discriminate].
  destruct (iv_value attr) as [|c r] eqn:Ev; [discriminate|].
  intros H. injection H as <- <-.
  destruct (last_opt_some _ _ El) as [attrs Ha].
  repeat split; [|discriminate].
  exists attrs, attr. rewrite Ev. auto.
Qed.

(** C6, as the claim states it, fails in its last part: a key declaration
    that carries the segment marker is a line containing the marker, yet it
    is not returned as a segment URL. *)
Lemma marked_key_line_is_not_a_segment :
  fst (parse_m3u8 "pl" (World [("pl", Os.File marker_in_key_line)] []))
  = inr ("01", []) /\
  filter has_marker (stripped_lines marker_in_key_line) = [marker_in_key_line].
Proof. split; vm_compute; reflexivity. Qed.

(** C6, amended. For a playlist file: with no [IV] attribute in any key
    declaration the parser fails, and where the file is well-formed text
    and every key declaration has its colon it fails with the "IV not
    found" error; a successful parse has read well-formed text and returns
    the value of the last [IV] attribute, without quotes and without a
    leading [0x] or [0X], and as segment URLs exactly the stripped lines
    that contain the marker and are not key declarations, in file order. *)
Theorem parse_m3u8_result (path text : string) (w : world) :
  Os.lookup (fs w) path = Some (Os.File text) ->
  (iv_attrs text = [] ->
   exists e, parse_m3u8 path w = (inl e, w) /\
             (utf8_valid text = true -> key_lines_have_colon text ->
              e = iv_error path)) /\
  (forall iv segments,
     fst (parse_m3u8 path w) = inr (iv, segments) ->
     utf8_valid text = true /\
     (exists attrs attr, iv_attrs text = attrs ++ [attr] /\ iv = iv_value attr)
     /\ segments = segment_lines text).
Proof.
  intros Hf. split.
  - intros Hno. destruct (utf8_valid text) eqn:Ev.
    + rewrite (parse_m3u8_valid _ _ _ Hf Ev).
      destruct (parse_text_cases path text) as [E|E].
      * eexists. split; [now rewrite E|].
        intros _ Hc. rewrite (parse_text_spec _ _ Hc), Hno in E.
        discriminate E.
      * rewrite E, Hno. simpl. eexists. split; reflexivity.
    + destruct (parse_m3u8_undecodable _ _ _ Hf Ev) as [e He].
      exists e. split; [exact He | discriminate].
  - intros iv segments H.
    destruct (parse_m3u8_success _ _ _ _ _ Hf H) as [Ev Hp].
    destruct (parse_text_success _ _ _ _ Hp) as (Ha & _ & Hs). auto.
Qed.

Lemma parse_m3u8_result_witness :
  Os.lookup (fs sample_world) "inputfiles/a1.0.m3u8"
  = Some (Os.File sample_playlist) /\
  fst (parse_m3u8 "inputfiles/a1.0.m3u8" sample_world)
  = inr ("AB", ["http://host/a.ts?x=1"; "http://host/b.ts?x=2"]) /\
  (exists attrs attr,
     iv_attrs sample_playlist = attrs ++ [attr] /\ "AB" = iv_value attr) /\
  ["http://host/a.ts?x=1"; "http://host/b.ts?x=2"]
  = segment_lines sample_playlist.
Proof.
  assert (Hf : Os.lookup (fs sample_world) "inputfiles/a1.0.m3u8"
               = Some (Os.File sample_playlist)) by reflexivity.
  assert (Hp : fst (parse_m3u8 "inputfiles/a1.0.m3u8" sample_world)
               = inr ("AB", ["http://host/a.ts?x=1"; "http://host/b.ts?x=2"]))
    by (vm_compute; reflexivity).
  split; [exact Hf|]. split; [exact Hp|].
  exact (proj2 (proj2 (parse_m3u8_result _ _ _ Hf) _ _ Hp)).
Defined.

(** The two empty values the claim names. *)
Example empty_iv_values :
  iv_value ("IV=" +++ String dquote (String dquote "")) = "" /\
  iv_value ("IV=" +++ String dquote "0x" +++ String dquote "") = "".
Proof. split; reflexivity. Qed.

(** C10, as the claim states it, fails: a playlist with an empty [IV]
    attribute in one key declaration and a proper one in a later key
    declaration parses, the later value winning. *)
Lemma empty_iv_overridden_by_later :
  In ("IV=" +++ String dquote (String dquote ""))
     (iv_attrs empty_then_proper_iv) /\
  iv_value ("IV=" +++ String dquote (String dquote "")) = "" /\
  fst (parse_m3u8 "pl" (World [("pl", Os.File empty_then_proper_iv)] []))
  = inr ("1234", []).
Proof.
  split; [vm_compute; auto|]. split; vm_compute; reflexivity.
Qed.

(** C10, amended. For a playlist file whose last [IV] attribute, in file
    order, has an empty value, the parser fails, and where the file is
    well-formed text and every key declaration has its colon it fails with
    the very error it gives when there is no [IV] attribute at all; a
    successful parse never returns an empty IV. *)
Theorem empty_last_iv_is_absent (path text : string) (w : world) :
  Os.lookup (fs w) path = Some (Os.File text) ->
  (forall attrs attr,
     iv_attrs text = attrs ++ [attr] -> iv_value attr = "" ->
     exists e, parse_m3u8 path w = (inl e, w) /\
               (utf8_valid text = true -> key_lines_have_colon text ->
                e = iv_error path)) /\
  (iv_attrs text = [] -> utf8_valid text = true ->
   key_lines_have_colon text ->
   parse_m3u8 path w = (inl (iv_error path), w)) /\
  (forall iv segments,
     fst (parse_m3u8 path w) = inr (iv, segments) -> iv <> "").
Proof.
  intros Hf. repeat split.
  - intros attrs attr Ha Hv. destruct (utf8_valid text) eqn:Ev.
    + rewrite (parse_m3u8_valid _ _ _ Hf Ev).
      destruct (parse_text_cases path text) as [E|E].
      * eexists. split; [now rewrite E|].
        intros _ Hc. rewrite (parse_text_spec _ _ Hc) in E.
        rewrite iv_after_last, Ha, last_opt_snoc, Hv in E.
        discriminate E.
      * rewrite E, iv_after_last, Ha, last_opt_snoc, Hv.
        eexists. split; reflexivity.
    + destruct (parse_m3u8_undecodable _ _ _ Hf Ev) as [e He].
      exists e. split; [exact He | discriminate].
  - intros Hno Ev Hc.
    rewrite (parse_m3u8_valid _ _ _ Hf Ev), (parse_text_spec _ _ Hc), Hno.
    reflexivity.
  - intros iv segments H.
    destruct (parse_m3u8_success _ _ _ _ _ Hf H) as [_ Hp].
    destruct (parse_text_success _ _ _ _ Hp) as (_ & Hne & _). exact Hne.
Qed.

Lemma empty_last_iv_is_absent_witness :
  Os.lookup (fs empty_iv_world) "pl" = Some (Os.File empty_iv_playlist) /\
  iv_attrs empty_iv_playlist = [] ++ [empty_iv_attr] /\
  iv_value empty_iv_attr = "" /\
  exists e, parse_m3u8 "pl" empty_iv_world = (inl e, empty_iv_world) /\
            (utf8_valid empty_iv_playlist = true ->
             key_lines_have_colon empty_iv_playlist -> e = iv_error "pl").
Proof.
  assert (Hf : Os.lookup (fs empty_iv_world) "pl"
               = Some (Os.File empty_iv_playlist)) by reflexivity.
  assert (Ha : iv_attrs empty_iv_playlist = [] ++ [empty_iv_attr])
    by reflexivity.
  assert (Hv : iv_value empty_iv_attr = "") by reflexivity.
  split; [exact Hf|]. split; [exact Ha|]. split; [exact Hv|].
  exact (proj1 (empty_last_iv_is_absent _ _ _ Hf) _ _ Ha Hv).
Defined.

(** White space of any script is stripped: a no-break space before the key
    declaration and after a segment URL changes nothing.  A file that is
    not well-formed text ends in the decoding error. *)
Example unicode_in_a_playlist :
  fst (parse_m3u8 "pl"
         (World [("pl", Os.File (no_break_space +++ "#EXT-X-KEY:IV=0x12"
                                 +++ NL +++ "http://host/a.ts?x=1"
                                 +++ no_break_space +++ NL))] []))
  = inr ("12", ["http://host/a.ts?x=1"]) /\
  fst (parse_m3u8 "pl"
         (World [("pl", Os.File ("#EXT-X-KEY:IV=0x12" +++ NL
                                 +++ String (ascii_of_nat 255) NL))] []))
  = inl (UnicodeDecodeError ("#EXT-X-KEY:IV=0x12" +++ NL
                             +++ String (ascii_of_nat 255) NL)).
Proof. split; vm_compute; reflexivity. Qed.

(** * Order of decryption and of the file list *)

(** C1. The decryption stage runs the openssl commands of positions
    [0, 1, 2, ...] in that order, all of them when it succeeds and up to the
    failing one otherwise.  The file list a task writes holds the [.ts] files
    of its decrypt directory in the order of the index in their names;
    when these files are [segment<i>.ts] for the indices of [idxs], in
    whatever order the directory enumerates them, the lines of the list
    are those of the indices in ascending order, and the list is written
    whenever the decrypt directory is there to take it. *)
Theorem decrypt_and_concat_in_index_order
    (aes_cbc_decrypt : string -> string -> string -> outcome)
    (task : Task) (iv key_hex : string) (segments : list string) (w : world) :
  (exists k,
     k <= List.length segments /\
     log (snd (decrypt_segments aes_cbc_decrypt task iv key_hex segments w))
     = log w ++ map (fun i => Run (decrypt_command task iv key_hex i)) (seq 0 k)
     /\ (fst (decrypt_segments aes_cbc_decrypt task iv key_hex segments w)
         = inr tt -> k = List.length segments)) /\
  (forall list_path w',
     create_file_list task w = (inr list_path, w') ->
     exists files,
       Permutation files (Os.glob (fs w) (decrypted_dir task) ".ts") /\
       StronglySorted index_order files /\
       Os.lookup (fs w') list_path
       = Some (Os.File (String.concat "" (map file_list_line files)))) /\
  (forall idxs,
     Os.glob (fs w) (decrypted_dir task) ".ts"
     = map (segment_path (decrypted_dir task)) idxs ->
     exists s,
       Permutation s idxs /\ StronglySorted le s /\
       (forall list_path w',
          create_file_list task w = (inr list_path, w') ->
          Os.lookup (fs w') list_path
          = Some (Os.File (String.concat "" (map list_line s)))) /\
       (parent_ok (fs w) (Os.path_join (decrypted_dir task) "filelist.txt")
        = true ->
        Os.is_dir (fs w) (Os.path_join (decrypted_dir task) "filelist.txt")
        = false ->
        exists w',
          create_file_list task w
          = (inr (Os.path_join (decrypted_dir task) "filelist.txt"), w'))).
Proof.
  split; [|split].
  - destruct (decrypt_loop_log aes_cbc_decrypt task iv key_hex
                (List.length segments) 0 w) as (k & Hk & Hl & Hok & _).
    exists k. auto.
  - intros list_path w' H.
    destruct (create_file_list_sorted _ _ _ _ H) as (files & Hs & Hl).
    exists files.
    destruct (sorted_spec _ _ segment_key Z.ltb Zltb_asym Zltb_ge_trans _ _ Hs)
      as [HP HS].
    split; [exact HP|]. split; [|exact Hl].
    eapply StronglySorted_weaken; [|exact HS].
    intros a b _ _ (ka & kb & Ha & Hb & Hlt).
    exists ka, kb. apply Z.ltb_ge in Hlt. auto.
  - intros idxs Hg.
    destruct (sorted_segment_paths (decrypted_dir task) idxs)
      as (s & HP & HS & Hsorted).
    exists s. split; [exact HP|]. split; [exact HS|]. split.
    + intros list_path w' H.
      destruct (create_file_list_sorted _ _ _ _ H) as (files & Hs & Hl).
      rewrite Hg, Hsorted in Hs. injection Hs as <-.
      now rewrite file_list_lines in Hl.
    + intros Hparent Hnodir. rewrite create_file_list_spec. cbv zeta.
      rewrite Hg, Hsorted, write_file_spec, Hparent.
      unfold Os.is_dir in Hnodir.
      destruct (Os.lookup (fs w) _) as [[x|]|];
        (discriminate || now eexists).
Qed.

(** Files enumerated as 3, 1, 2 are listed 1, 2, 3. *)
Lemma decrypt_and_concat_in_index_order_witness :
  Os.glob (fs unordered_world) (decrypted_dir task_a) ".ts"
  = map (segment_path (decrypted_dir task_a)) [3; 1; 2] /\
  create_file_list task_a unordered_world
  = (inr "processing/decrypted_1.0/filelist.txt",
     World (fs unordered_world
            ++ [("processing/decrypted_1.0/filelist.txt",
                 Os.File (list_line 1 +++ list_line 2 +++ list_line 3))]) [])
  /\
  exists s,
    Permutation s [3; 1; 2] /\ StronglySorted le s /\
    (forall list_path w',
       create_file_list task_a unordered_world = (inr list_path, w') ->
       Os.lookup (fs w') list_path
       = Some (Os.File (String.concat "" (map list_line s)))) /\
    (parent_ok (fs unordered_world)
       (Os.path_join (decrypted_dir task_a) "filelist.txt") = true ->
     Os.is_dir (fs unordered_world)
       (Os.path_join (decrypted_dir task_a) "filelist.txt") = false ->
     exists w',
       create_file_list task_a unordered_world
       = (inr (Os.path_join (decrypted_dir task_a) "filelist.txt"), w')).
Proof.
  assert (Hg : Os.glob (fs unordered_world) (decrypted_dir task_a) ".ts"
               = map (segment_path (decrypted_dir task_a)) [3; 1; 2])
    by (vm_compute; reflexivity).
  split; [exact Hg|]. split; [vm_compute; reflexivity|].
  exact (proj2 (proj2 (decrypt_and_concat_in_index_order
                         (fun _ _ d => Decrypted d) task_a "iv" "key" []
                         unordered_world)) _ Hg).
Defined.

(** * Isolation of tasks *)

Section TaskLoop.

Variable fetch : string -> exn + string.
Variable aes_cbc_decrypt : string -> string -> string -> outcome.
Variable ffmpeg_concat : Os.filesystem -> list string -> option string.
Variable as_completed : list (nat * string) -> list (nat * string).
Variable resolve : string -> string.
Variable size_mb : Os.node -> string.

Local Abbreviation run_task :=
  (process_task fetch aes_cbc_decrypt ffmpeg_concat as_completed).
Local Abbreviation run_tasks :=
  (process_tasks fetch aes_cbc_decrypt ffmpeg_concat as_completed).
Local Abbreviation run_main :=
  (main fetch aes_cbc_decrypt ffmpeg_concat as_completed resolve size_mb).

Lemma inner_not_processing (e : event) : inner e -> is_processing e = false.
Proof.
  unfold inner, is_processing.
  destruct (printed e); [intros [H _]; exact H | reflexivity].
Qed.

Lemma filter_inner (d : list event) :
  Forall inner d -> filter is_processing d = [].
Proof.
  induction 1 as [|e d He _ IH]; [reflexivity|].
  cbn [filter]. now rewrite (inner_not_processing e He).
Qed.

Lemma processing_line_is_processing (task : Task) :
  is_processing (processing_line task) = true.
Proof.
  exact (prefix_app (NL +++ "Processing ")
           (base_name task +++ " " +++ version task)).
Qed.

(** A task prints its opening line and then nothing that looks like the
    opening or the failure report of a task. *)
Lemma process_task_log (task : Task) (w : world) :
  exists d,
    log (snd (run_task task w)) = log w ++ processing_line task :: d /\
    Forall inner d.
Proof.
  rewrite process_task_spec.
  destruct (respects_process_task_body fetch aes_cbc_decrypt ffmpeg_concat
              as_completed (fun _ => True) inner task
              (fun _ _ _ _ => Logic.I) (fun _ _ _ _ _ => Logic.I)
              (fun _ H => H)
              (World (fs w) (log w ++ [processing_line task])) Logic.I)
    as [_ (d & Hl & Hd)].
  exists d. rewrite Hl. cbn [log]. now rewrite <- app_assoc.
Qed.

Lemma process_tasks_cons (task : Task) (rest : list Task)
    (output_files : list string) (w : world) :
  run_tasks (task :: rest) output_files w
  = match run_task task w with
    | (inr output_file, w1) => run_tasks rest (output_files ++ [output_file]) w1
    | (inl e, w1) =>
        run_tasks rest output_files
          (World (fs w1) (log w1 ++ [failure_record task e]))
    end.
Proof.
  cbn [process_tasks]. unfold bind, try_except, print_exn, emit, ret.
  destruct (run_task task w) as [[e|o] w1]; reflexivity.
Qed.

(** The loop never raises, and its log only grows; among what it adds, the
    opening lines are those of all the tasks, in order. *)
Lemma process_tasks_log (tasks : list Task) (output_files : list string)
    (w : world) :
  (exists out, fst (run_tasks tasks output_files w) = inr out) /\
  exists d,
    log (snd (run_tasks tasks output_files w)) = log w ++ d /\
    filter is_processing d = map processing_line tasks.
Proof.
  revert output_files w. induction tasks as [|task rest IH];
    intros output_files w.
  - split; [now eexists|]. exists []. cbn. now rewrite app_nil_r.
  - rewrite process_tasks_cons.
    destruct (process_task_log task w) as (d & Hl & Hd).
    destruct (run_task task w) as [[e|o] w1]; cbn [snd] in Hl.
    + destruct (IH output_files
                  (World (fs w1) (log w1 ++ [failure_record task e])))
        as [Hr (d' & Hl' & Hd')].
      split; [exact Hr|].
      exists ((processing_line task :: d)
              ++ failure_record task e :: d').
      rewrite Hl'. cbn [log]. rewrite Hl, <- !app_assoc.
      split; [reflexivity|].
      rewrite filter_app. cbn [filter].
      rewrite processing_line_is_processing, (filter_inner d Hd).
      cbn [is_processing app map]. now rewrite Hd'.
    + destruct (IH (output_files ++ [o]) w1) as [Hr (d' & Hl' & Hd')].
      split; [exact Hr|].
      exists ((processing_line task :: d) ++ d').
      rewrite Hl', Hl, <- !app_assoc. split; [reflexivity|].
      rewrite filter_app. cbn [filter].
      rewrite processing_line_is_processing, (filter_inner d Hd).
      cbn [app map]. now rewrite Hd'.
Qed.

Lemma process_tasks_app (pre rest : list Task) (output_files : list string)
    (w : world) :
  exists out,
    run_tasks (pre ++ rest) output_files w
    = run_tasks rest out (snd (run_tasks pre output_files w)).
Proof.
  revert output_files w. induction pre as [|task pre IH];
    intros output_files w.
  - now exists output_files.
  - cbn [app]. rewrite !process_tasks_cons.
    destruct (run_task task w) as [[e|o] w1]; apply IH.
Qed.

Lemma filter_skip_warnings (paths : list string) :
  filter is_processing (map skip_warning paths) = [].
Proof. induction paths as [|p r IH]; [reflexivity | exact IH]. Qed.

Lemma report_loop (output_files : list string) :
  report resolve size_mb output_files
  = (print (NL +++ "Successfully created files:") ;;;
     for_each output_files (report_line resolve size_mb)).
Proof. reflexivity. Qed.

Lemma report_line_spec (file : string) (w : world) :
  exists d,
    report_line resolve size_mb file w = (inr tt, World (fs w) (log w ++ d)) /\
    filter is_processing d = [].
Proof.
  unfold report_line, bind, get_fs, print, emit, ret.
  destruct (Os.lookup (fs w) file) as [n|].
  - eexists. split; reflexivity.
  - exists []. rewrite app_nil_r. now destruct w.
Qed.

(** The report prints its lines and never raises. *)
Lemma report_spec (output_files : list string) (w : world) :
  exists d,
    report resolve size_mb output_files w
    = (inr tt, World (fs w) (log w ++ d)) /\
    filter is_processing d = [].
Proof.
  assert (Hloop : forall l w1,
            exists d,
              for_each l (report_line resolve size_mb) w1
              = (inr tt, World (fs w1) (log w1 ++ d)) /\
              filter is_processing d = []).
  { induction l as [|file l IH]; intros w1.
    - exists []. cbn. rewrite app_nil_r. now destruct w1.
    - cbn [for_each]. unfold bind.
      destruct (report_line_spec file w1) as (d0 & -> & H0).
      destruct (IH (World (fs w1) (log w1 ++ d0))) as (d & -> & Hd).
      exists (d0 ++ d). cbn [fs log]. rewrite <- app_assoc.
      split; [reflexivity|]. now rewrite filter_app, H0, Hd. }
  rewrite report_loop. unfold bind, print, emit. cbn [fs log].
  destruct (Hloop output_files
              (World (fs w)
                 (log w ++ [Print (NL +++ "Successfully created files:")])))
    as (d & -> & Hd).
  eexists. cbn [fs log]. rewrite <- app_assoc. split; [reflexivity|].
  exact Hd.
Qed.

(** A run that finds tasks goes through all of them and ends normally. *)
Lemma main_attempts_all (w : world) (task : Task) (rest : list Task) :
  Os.path_exists (fs w) input_dir = true ->
  workspace_free (fs w) ->
  fst (find_tasks (World (reset (fs w)) (log w))) = inr (task :: rest) ->
  fst (run_main w) = inr tt /\
  exists d,
    log (snd (run_main w)) = log w ++ d /\
    filter is_processing d = map processing_line (task :: rest).
Proof.
  intros Hin Hfree Hfind. rewrite main_spec, main_body_spec, Hin.
  cbn [negb]. rewrite (mkdir_base _ _ (reset_workspace_free _ Hfree)).
  fold (reset (fs w)).
  destruct (find_tasks_cases (World (reset (fs w)) (log w)))
    as [(_ & tasks & E & _)|(pre & q & post & b & v & _ & _ & _ & _ & E)];
    rewrite E in Hfind |- *; cbn [fst] in Hfind; [|discriminate].
  injection Hfind as ->. cbn [fs log].
  destruct (process_tasks_log (task :: rest) []
              (World (reset (fs w))
                 (log w ++ map skip_warning
                             (filter bad_name
                                (Os.glob (reset (fs w)) input_dir ".m3u8")))))
    as [[out Hr] (d & Hl & Hd)].
  destruct (run_tasks (task :: rest) [] _) as [r w4].
  cbn [fst snd log] in Hr, Hl. subst r.
  destruct (report_spec out w4) as (d' & -> & Hd').
  cbn [fst snd log]. split; [reflexivity|].
  eexists. rewrite Hl, <- !app_assoc. split; [reflexivity|].
  rewrite !filter_app, filter_skip_warnings, Hd, Hd'. cbn.
  now rewrite app_nil_r.
Qed.

(** C2. Whatever the tasks and whatever happens to each of them, the loop
    over the tasks does not raise, and it starts every task, in order.  When
    a task fails, with whatever exception, the line [Failed to process],
    the base name of that task, its version and the exception, is recorded
    right after what the task did, and the loop goes on with the tasks that
    follow from there, so that the record stays in the log.  A run of
    [main] that discovers tasks therefore starts each of them and ends
    without an error of its own. *)
Theorem task_failure_is_isolated (tasks : list Task) (w : world) :
  (exists output_files, fst (run_tasks tasks [] w) = inr output_files) /\
  (exists d,
     log (snd (run_tasks tasks [] w)) = log w ++ d /\
     filter is_processing d = map processing_line tasks) /\
  (forall pre task post e w1,
     tasks = pre ++ task :: post ->
     run_task task (snd (run_tasks pre [] w)) = (inl e, w1) ->
     (exists output_files,
        run_tasks tasks [] w
        = run_tasks post output_files
            (World (fs w1)
               (log w1 ++ [PrintExn ("Failed to process " +++ base_name task
                                     +++ " " +++ version task +++ ": ") e])))
     /\
     In (PrintExn ("Failed to process " +++ base_name task +++ " "
                   +++ version task +++ ": ") e)
        (log (snd (run_tasks tasks [] w)))) /\
  (forall task rest,
     tasks = task :: rest ->
     Os.path_exists (fs w) input_dir = true ->
     workspace_free (fs w) ->
     fst (find_tasks (World (reset (fs w)) (log w))) = inr tasks ->
     fst (run_main w) = inr tt /\
     exists d,
       log (snd (run_main w)) = log w ++ d /\
       filter is_processing d = map processing_line tasks).
Proof.
  destruct (process_tasks_log tasks [] w) as [Hr Hl].
  split; [exact Hr|]. split; [exact Hl|]. split.
  - intros pre task post e w1 -> He.
    destruct (process_tasks_app pre (task :: post) [] w) as [out ->].
    rewrite process_tasks_cons, He. unfold failure_record.
    split; [now exists out|].
    destruct (process_tasks_log post out
                (World (fs w1)
                   (log w1 ++ [PrintExn ("Failed to process "
                                         +++ base_name task +++ " "
                                         +++ version task +++ ": ") e])))
      as [_ (d & -> & _)].
    cbn [log]. apply in_or_app. left. apply in_or_app. right. now left.
  - intros task rest -> Hin Hfree Hfind. now apply main_attempts_all.
Qed.

End TaskLoop.

Lemma task_failure_is_isolated_witness :
  [task_1; task_2] = [] ++ task_1 :: [task_2] /\
  process_task sample_fetch sample_decrypt sample_ffmpeg last_first
    task_1
    (snd (process_tasks sample_fetch sample_decrypt sample_ffmpeg
            last_first [] [] two_tasks_world))
  = (inl (ValueError "IV not found in inputfiles/a1.0.m3u8"),
     failed_task_world) /\
  In (PrintExn "Failed to process a 1.0: "
        (ValueError "IV not found in inputfiles/a1.0.m3u8"))
     (log (snd (process_tasks sample_fetch sample_decrypt sample_ffmpeg
                  last_first [task_1; task_2] [] two_tasks_world))) /\
  Os.path_exists (fs two_tasks_world) input_dir = true /\
  workspace_free (fs two_tasks_world) /\
  fst (find_tasks (World (reset (fs two_tasks_world)) (log two_tasks_world)))
  = inr [task_1; task_2] /\
  fst (main sample_fetch sample_decrypt sample_ffmpeg last_first
         sample_resolve sample_size two_tasks_world) = inr tt.
Proof.
  assert (Hs : [task_1; task_2] = [] ++ task_1 :: [task_2]) by reflexivity.
  assert (He : process_task sample_fetch sample_decrypt sample_ffmpeg
                 last_first task_1
                 (snd (process_tasks sample_fetch sample_decrypt
                         sample_ffmpeg last_first [] []
                         two_tasks_world))
               = (inl (ValueError "IV not found in inputfiles/a1.0.m3u8"),
                  failed_task_world))
    by (vm_compute; reflexivity).
  assert (Hin : Os.path_exists (fs two_tasks_world) input_dir = true)
    by reflexivity.
  assert (Hfree : workspace_free (fs two_tasks_world)) by reflexivity.
  assert (Hfind : fst (find_tasks (World (reset (fs two_tasks_world))
                                         (log two_tasks_world)))
                  = inr [task_1; task_2]) by (vm_compute; reflexivity).
  destruct (task_failure_is_isolated sample_fetch sample_decrypt
              sample_ffmpeg last_first sample_resolve sample_size
              [task_1; task_2] two_tasks_world)
    as (_ & _ & Hreport & Hmain).
  split; [exact Hs|]. split; [exact He|].
  split; [exact (proj2 (Hreport _ _ _ _ _ Hs He))|].
  split; [exact Hin|]. split; [exact Hfree|]. split; [exact Hfind|].
  exact (proj1 (Hmain _ _ eq_refl Hin Hfree Hfind)).
Defined.

(** * Segments: downloads, their names, and missing files *)

Lemma task_2_discovered : discovered task_2.
Proof.
  exists "a", "2.0", "inputfiles/a2.0.m3u8", "inputfiles/a2.0.bin".
  split; [|reflexivity]. exists "2", "0".
  repeat split; (reflexivity || discriminate).
Qed.

Lemma download_ready_no_segment_dirs (j : nat) :
  Os.is_dir (fs download_ready_world)
            (segment_path (downloaded_dir task_2) j) = false.
Proof.
  unfold Os.is_dir. cbn [fs download_ready_world Os.lookup].
  replace (_ =? _)%string with false
    by (symmetry; apply String.eqb_neq; discriminate).
  replace (_ =? _)%string with false; [reflexivity|].
  symmetry. apply String.eqb_neq. intros H.
  exact (segment_path_not_dir _ j (eq_sym H)).
Qed.

Lemma last_first_perm (l : list (nat * string)) : Permutation (last_first l) l.
Proof. apply Permutation_sym, Permutation_rev. Qed.

Section Segments.

Variable fetch : string -> exn + string.
Variable aes_cbc_decrypt : string -> string -> string -> outcome.
Variable ffmpeg_concat : Os.filesystem -> list string -> option string.
Variable as_completed : list (nat * string) -> list (nat * string).

(** The pool hands back every submitted future, once, in some order. *)
Hypothesis as_completed_perm : forall l, Permutation (as_completed l) l.

Lemma download_segments_loop (task : Task) (segments : list string) :
  download_segments fetch as_completed task segments
  = for_each (as_completed (Py.enumerate segments)) (download_step fetch task).
Proof. reflexivity. Qed.

(** C3. The download stage of a task never raises and issues exactly one
    request per submitted segment, whichever requests fail; every request
    that succeeds has its content stored, whatever happens to the others.
    If after that stage the file of some position is missing, the task
    fails with the error of a decryption command, having run decryption
    commands only: no request is repeated. *)
Theorem failed_fetch_spares_siblings (task : Task) (w : world) :
  discovered task ->
  (forall segments,
     fst (download_segments fetch as_completed task segments w) = inr tt /\
     (exists d,
        log (snd (download_segments fetch as_completed task segments w))
        = log w ++ d /\
        Permutation (filter is_get d) (map HttpGet segments)) /\
     (forall i url content,
        nth_error segments i = Some url -> fetch url = inr content ->
        Os.is_dir (fs w) (downloaded_dir task) = true ->
        (forall j,
           Os.is_dir (fs w) (segment_path (downloaded_dir task) j) = false) ->
        Os.lookup
          (fs (snd (download_segments fetch as_completed task segments w)))
          (segment_path (downloaded_dir task) i)
        = Some (Os.File content))) /\
  (forall key_hex iv segments i,
     let started := World (fs w) (log w ++ [processing_line task]) in
     let downloaded := snd (before_decrypt fetch as_completed task started) in
     fst (before_decrypt fetch as_completed task started)
     = inr (key_hex, iv, segments) ->
     i < List.length segments ->
     Os.is_file (fs downloaded) (segment_path (downloaded_dir task) i) = false ->
     exists j k,
       j < List.length segments /\
       fst (process_task fetch aes_cbc_decrypt ffmpeg_concat as_completed
              task w)
       = inl (CalledProcessError (decrypt_command task iv key_hex j)) /\
       log (snd (process_task fetch aes_cbc_decrypt ffmpeg_concat
                   as_completed task w))
       = log downloaded
         ++ map (fun i => Run (decrypt_command task iv key_hex i)) (seq 0 k)).
Proof.
  intros Hd. split.
  - intros segments. rewrite download_segments_loop.
    destruct (download_loop_log fetch task Hd
                (as_completed (Py.enumerate segments)) w) as [Hr (d & Hl & Hg)].
    split; [exact Hr|]. split.
    + exists d. split; [exact Hl|]. rewrite Hg.
      rewrite <- (enumerate_from_snd 0 segments) at 2.
      rewrite (map_map snd HttpGet).
      apply Permutation_map, as_completed_perm.
    + intros i url content Hn Hf Hdir Hfiles.
      apply (download_loop_file fetch task Hd _ w i url content); auto.
      * apply (Permutation_NoDup (l := map fst (Py.enumerate segments)));
          [|apply enumerate_NoDup].
        apply Permutation_map, Permutation_sym, as_completed_perm.
      * eapply Permutation_in; [apply Permutation_sym, as_completed_perm|].
        now apply enumerate_nth.
  - intros key_hex iv segments i started downloaded Hb Hi Hm.
    rewrite process_task_spec, process_task_body_split. fold started.
    unfold bind. subst downloaded.
    destruct (before_decrypt fetch as_completed task started) as [r w1].
    cbn [fst snd] in *. subst r.
    unfold from_decrypt, bind. cbn [fst snd]. unfold decrypt_segments.
    destruct (decrypt_loop_log aes_cbc_decrypt task iv key_hex
                (List.length segments) 0 w1) as (k & Hk & Hl & _ & Herr).
    pose proof (decrypt_loop_missing aes_cbc_decrypt task Hd iv key_hex
                  (List.length segments) 0 i w1 (conj (Nat.le_0_l i) Hi) Hm)
      as Hfail.
    cbv zeta in Hl, Herr.
    destruct (for_each (seq 0 (List.length segments)) _ w1) as [[e|[]] w2];
      cbn [fst snd] in *; [|congruence].
    destruct (Herr e eq_refl) as [Hpos ->].
    exists (0 + k - 1), k. split; [lia|]. split; [reflexivity | exact Hl].
Qed.

(** C8, amended. The URL at position [i] of the playlist, positions counted
    from zero, is submitted with index [i]; whatever the order in which the
    downloads complete, its content is stored as [segment<i>.ts] in the
    download directory.  The decryption stage runs the commands of the
    positions from zero on, in order, the command of position [j] reading
    [segment<j>.ts] of the download directory and writing [segment<j>.ts]
    of the decrypt directory; when the stage succeeds it has run the
    command of every position, and [segment<i>.ts] of the decrypt directory
    holds the plain text of [segment<i>.ts] of the download directory.
    Different positions have different files. *)
Theorem position_names_segment_files
    (task : Task) (segments : list string) (w : world) (i : nat)
    (url : string) :
  discovered task ->
  nth_error segments i = Some url ->
  In (i, url) (Py.enumerate segments) /\
  (forall content,
     fetch url = inr content ->
     Os.is_dir (fs w) (downloaded_dir task) = true ->
     (forall j,
        Os.is_dir (fs w) (segment_path (downloaded_dir task) j) = false) ->
     Os.lookup
       (fs (snd (download_segments fetch as_completed task segments w)))
       (downloaded_dir task +++ "/segment" +++ Py.str i +++ ".ts")
     = Some (Os.File content)) /\
  (forall iv key_hex,
     exists k,
       k <= List.length segments /\
       log (snd (decrypt_segments aes_cbc_decrypt task iv key_hex segments w))
       = log w
         ++ map (fun j =>
                   Run ["openssl"; "aes-128-cbc"; "-d";
                        "-in"; downloaded_dir task +++ "/segment"
                               +++ Py.str j +++ ".ts";
                        "-out"; decrypted_dir task +++ "/segment"
                                +++ Py.str j +++ ".ts";
                        "-nosalt"; "-iv"; iv; "-K"; key_hex])
                (seq 0 k) /\
       (fst (decrypt_segments aes_cbc_decrypt task iv key_hex segments w)
        = inr tt ->
        k = List.length segments /\
        exists data plain,
          Os.lookup (fs w)
            (downloaded_dir task +++ "/segment" +++ Py.str i +++ ".ts")
          = Some (Os.File data) /\
          aes_cbc_decrypt key_hex iv data = Decrypted plain /\
          Os.lookup
            (fs (snd (decrypt_segments aes_cbc_decrypt task iv key_hex
                        segments w)))
            (decrypted_dir task +++ "/segment" +++ Py.str i +++ ".ts")
          = Some (Os.File plain))) /\
  (forall dir j,
     dir +++ "/segment" +++ Py.str i +++ ".ts"
     = dir +++ "/segment" +++ Py.str j +++ ".ts" -> i = j).
Proof.
  intros Hd Hn. split; [now apply enumerate_nth|]. split.
  - intros content Hf Hdir Hfiles. rewrite download_segments_loop.
    apply (download_loop_file fetch task Hd _ w i url content); auto.
    + apply (Permutation_NoDup (l := map fst (Py.enumerate segments)));
        [|apply enumerate_NoDup].
      apply Permutation_map, Permutation_sym, as_completed_perm.
    + eapply Permutation_in; [apply Permutation_sym, as_completed_perm|].
      now apply enumerate_nth.
  - split; [|intros dir j H; exact (segment_path_inj dir i j H)].
    intros iv key_hex. unfold decrypt_segments.
    destruct (decrypt_loop_log aes_cbc_decrypt task iv key_hex
                (List.length segments) 0 w) as (k & Hk & Hl & Hok & _).
    cbv zeta in Hl, Hok.
    exists k. split; [exact Hk|]. split.
    + rewrite Hl. f_equal. apply map_ext. intros j.
      now rewrite (decrypt_command_words task Hd).
    + intros Hr. split; [exact (Hok Hr)|].
      assert (Hi : i < List.length segments)
        by (apply nth_error_Some; congruence).
      exact (decrypt_loop_data aes_cbc_decrypt task Hd iv key_hex
               (List.length segments) 0 w Hr i (conj (Nat.le_0_l i) Hi)).
Qed.

End Segments.

(** C8, as the claim states it, fails: the only URL of a playlist is
    submitted with index 0 and stored as [segment0.ts]; no [segment1.ts]
    appears. *)
Lemma first_segment_is_number_zero :
  Py.enumerate [url_a] = [(0, url_a)] /\
  Os.lookup
    (fs (snd (download_segments sample_fetch last_first task_2 [url_a]
                download_ready_world)))
    "processing/downloaded_2.0/segment0.ts" = Some (Os.File url_a) /\
  Os.lookup
    (fs (snd (download_segments sample_fetch last_first task_2 [url_a]
                download_ready_world)))
    "processing/downloaded_2.0/segment1.ts" = None.
Proof. repeat split; vm_compute; reflexivity. Qed.

Lemma position_names_segment_files_witness :
  nth_error [url_a; url_b] 0 = Some url_a /\
  sample_fetch url_a = inr url_a /\
  Os.is_dir (fs download_ready_world) (downloaded_dir task_2) = true /\
  Os.lookup
    (fs (snd (download_segments sample_fetch last_first task_2
                [url_a; url_b] download_ready_world)))
    (downloaded_dir task_2 +++ "/segment" +++ Py.str 0 +++ ".ts")
  = Some (Os.File url_a).
Proof.
  assert (Hn : nth_error [url_a; url_b] 0 = Some url_a) by reflexivity.
  assert (Hf : sample_fetch url_a = inr url_a) by reflexivity.
  assert (Hd : Os.is_dir (fs download_ready_world) (downloaded_dir task_2)
               = true) by reflexivity.
  split; [exact Hn|]. split; [exact Hf|]. split; [exact Hd|].
  refine (proj1 (proj2 (position_names_segment_files sample_fetch
                          sample_decrypt last_first
                          last_first_perm task_2 [url_a; url_b]
                          download_ready_world 0 url_a task_2_discovered Hn))
                _ Hf Hd _).
  exact download_ready_no_segment_dirs.
Defined.

(** One download of two fails; the other is stored, and the task fails at
    the decryption command of the missing file. *)
Lemma failed_fetch_spares_siblings_witness :
  fst (before_decrypt flaky_fetch last_first task_2
         (World (fs two_tasks_world)
                (log two_tasks_world ++ [processing_line task_2])))
  = inr ("4b", "AB", [url_a; url_b]) /\
  1 < List.length [url_a; url_b] /\
  Os.is_file
    (fs (snd (before_decrypt flaky_fetch last_first task_2
                (World (fs two_tasks_world)
                       (log two_tasks_world ++ [processing_line task_2])))))
    (segment_path (downloaded_dir task_2) 1) = false /\
  exists j k,
    j < List.length [url_a; url_b] /\
    fst (process_task flaky_fetch sample_decrypt sample_ffmpeg last_first
           task_2 two_tasks_world)
    = inl (CalledProcessError (decrypt_command task_2 "AB" "4b" j)) /\
    log (snd (process_task flaky_fetch sample_decrypt sample_ffmpeg
                last_first task_2 two_tasks_world))
    = log (snd (before_decrypt flaky_fetch last_first task_2
                  (World (fs two_tasks_world)
                         (log two_tasks_world ++ [processing_line task_2]))))
      ++ map (fun i => Run (decrypt_command task_2 "AB" "4b" i)) (seq 0 k).
Proof.
  assert (Hb : fst (before_decrypt flaky_fetch last_first task_2
                      (World (fs two_tasks_world)
                             (log two_tasks_world ++ [processing_line task_2])))
               = inr ("4b", "AB", [url_a; url_b]))
    by (vm_compute; reflexivity).
  assert (Hi : 1 < List.length [url_a; url_b]) by (simpl; lia).
  assert (Hm : Os.is_file
                 (fs (snd (before_decrypt flaky_fetch last_first task_2
                             (World (fs two_tasks_world)
                                    (log two_tasks_world
                                     ++ [processing_line task_2])))))
                 (segment_path (downloaded_dir task_2) 1) = false)
    by (vm_compute; reflexivity).
  split; [exact Hb|]. split; [exact Hi|]. split; [exact Hm|].
  exact (proj2 (failed_fetch_spares_siblings flaky_fetch sample_decrypt
                  sample_ffmpeg last_first last_first_perm task_2
                  two_tasks_world task_2_discovered)
               "4b" "AB" [url_a; url_b] 1 Hb Hi Hm).
Defined.

(** * The run as a whole: fatal errors and cleanup *)

Lemma tasks_of_playlist (paths : list string) (t : Task) :
  In t (tasks_of paths) -> bad_name (playlist t) = false.
Proof.
  induction paths as [|p r IH]; cbn [tasks_of]; [intros []|].
  destruct (re_match (Os.basename p)) as [[b v]|] eqn:E; [|exact IH].
  intros [<-|H]; [|now apply IH].
  unfold bad_name. cbn [playlist make_task]. now rewrite E.
Qed.

Section Run.

Variable fetch : string -> exn + string.
Variable aes_cbc_decrypt : string -> string -> string -> outcome.
Variable ffmpeg_concat : Os.filesystem -> list string -> option string.
Variable as_completed : list (nat * string) -> list (nat * string).
Variable resolve : string -> string.
Variable size_mb : Os.node -> string.

Local Abbreviation run_main_body :=
  (main_body fetch aes_cbc_decrypt ffmpeg_concat as_completed resolve size_mb).
Local Abbreviation run_main :=
  (main fetch aes_cbc_decrypt ffmpeg_concat as_completed resolve size_mb).

(** C5. Let [p] be a playlist of the input directory.  If its name follows
    the pattern and its key file is missing, [find_tasks] raises
    [FileNotFoundError] and returns no task, and [main] ends with that
    error having printed only warnings and the cleanup lines: no task is
    started.  If instead no key file is missing and the name of [p] does not
    follow the pattern, [find_tasks] succeeds, prints the warning for [p]
    and returns no task for [p]. *)
Theorem missing_key_file_is_fatal (w : world) (p : string) :
  In p (Os.glob (fs w) input_dir ".m3u8") ->
  (missing_key (fs w) p = true ->
   (exists msg, fst (find_tasks w) = inl (FileNotFoundError msg)) /\
   (workspace_free (fs w) ->
    exists msg warned,
      fst (run_main w) = inl (FileNotFoundError msg) /\
      log (snd (run_main w))
      = log w ++ map skip_warning warned ++ cleanup_lines)) /\
  (forallb (fun q => negb (missing_key (fs w) q))
           (Os.glob (fs w) input_dir ".m3u8") = true ->
   bad_name p = true ->
   exists tasks,
     fst (find_tasks w) = inr tasks /\
     In (skip_warning p) (log (snd (find_tasks w))) /\
     forall t, In t tasks -> playlist t <> p).
Proof.
  intros Hin. split.
  - intros Hm. split.
    + destruct (find_tasks_cases w)
        as [(Hall & _)|(pre & q & post & b & v & _ & _ & _ & _ & E)].
      * exfalso. rewrite forallb_forall in Hall. specialize (Hall p Hin).
        rewrite Hm in Hall. discriminate Hall.
      * rewrite E. now eexists.
    + intros Hfree.
      destruct (main_missing_key fetch aes_cbc_decrypt ffmpeg_concat
                  as_completed resolve size_mb w p Hin Hm Hfree)
        as (msg & warned & E).
      exists msg, warned. rewrite E. split; reflexivity.
  - intros Hall Hbad.
    destruct (find_tasks_cases w)
      as [(_ & tasks & E & HP & _)|(pre & q & post & b & v & Hg & _ & Hq & _)].
    + exists tasks. rewrite E. cbn [fst snd log].
      split; [reflexivity|]. split.
      * apply in_or_app. right. apply in_map, filter_In. auto.
      * intros t Ht Hp.
        assert (Hb : bad_name (playlist t) = false).
        { apply (tasks_of_playlist (Os.glob (fs w) input_dir ".m3u8")).
          eapply Permutation_in; eassumption. }
        rewrite Hp, Hbad in Hb. discriminate Hb.
    + exfalso. rewrite forallb_forall in Hall.
      assert (Hin' : In q (Os.glob (fs w) input_dir ".m3u8"))
        by (rewrite Hg; apply in_or_app; right; now left).
      specialize (Hall q Hin'). rewrite Hq in Hall. discriminate Hall.
Qed.

(** C7. However the run ends -- with every task done, with some tasks
    failed, or stopped by an error before any task -- [main] runs the final
    cleanup after its [try] block and returns what that block returned; in
    the filesystem it leaves, the workspace is not a directory, and nothing
    at all stands at its path unless a regular file stood there before the
    run. *)
Theorem workspace_removed_on_every_exit (w : world) :
  fst (run_main w) = fst (run_main_body w) /\
  log (snd (run_main w)) = log (snd (run_main_body w)) ++ cleanup_lines /\
  Os.is_dir (fs (snd (run_main w))) base_dir = false /\
  (workspace_free (fs w) ->
   Os.path_exists (fs (snd (run_main w))) base_dir = false).
Proof.
  rewrite main_spec. cbn [fst snd fs log].
  split; [reflexivity|]. split; [reflexivity|].
  destruct (cleaned_spec (fs (snd (run_main_body w)))) as [Hdir Hgone].
  split; [exact Hdir|]. intros Hfree. apply Hgone.
  now apply main_body_keeps_free.
Qed.

End Run.

Lemma missing_key_file_is_fatal_witness :
  In "inputfiles/a1.0.m3u8"
     (Os.glob (fs missing_key_world) input_dir ".m3u8") /\
  missing_key (fs missing_key_world) "inputfiles/a1.0.m3u8" = true /\
  workspace_free (fs missing_key_world) /\
  (exists msg, fst (find_tasks missing_key_world)
               = inl (FileNotFoundError msg)) /\
  (exists msg warned,
     fst (main sample_fetch sample_decrypt sample_ffmpeg last_first
            sample_resolve sample_size missing_key_world)
     = inl (FileNotFoundError msg) /\
     log (snd (main sample_fetch sample_decrypt sample_ffmpeg last_first
                 sample_resolve sample_size missing_key_world))
     = log missing_key_world ++ map skip_warning warned ++ cleanup_lines).
Proof.
  assert (Hin : In "inputfiles/a1.0.m3u8"
                   (Os.glob (fs missing_key_world) input_dir ".m3u8"))
    by (vm_compute; auto).
  assert (Hm : missing_key (fs missing_key_world) "inputfiles/a1.0.m3u8"
               = true) by (vm_compute; reflexivity).
  assert (Hfree : workspace_free (fs missing_key_world))
    by (vm_compute; reflexivity).
  split; [exact Hin|]. split; [exact Hm|]. split; [exact Hfree|].
  destruct (proj1 (missing_key_file_is_fatal sample_fetch sample_decrypt
                     sample_ffmpeg last_first sample_resolve sample_size
                     missing_key_world "inputfiles/a1.0.m3u8" Hin) Hm)
    as [Hfind Hmain].
  split; [exact Hfind | exact (Hmain Hfree)].
Defined.

(** A playlist outside the naming pattern is passed over with a warning. *)
Example odd_name_is_skipped :
  find_tasks odd_name_world
  = (inr [task_2],
     World (fs odd_name_world)
           [Print "Skipping invalid filename format: notes.m3u8"]).
Proof. vm_compute. reflexivity. Qed.

Lemma workspace_removed_on_every_exit_witness :
  workspace_free (fs two_tasks_world) /\
  Os.path_exists
    (fs (snd (main sample_fetch sample_decrypt sample_ffmpeg last_first
                sample_resolve sample_size two_tasks_world)))
    base_dir = false.
Proof.
  assert (Hfree : workspace_free (fs two_tasks_world))
    by (vm_compute; reflexivity).
  split; [exact Hfree|].
  exact (proj2 (proj2 (proj2 (workspace_removed_on_every_exit sample_fetch
                                sample_decrypt sample_ffmpeg last_first
                                sample_resolve sample_size two_tasks_world)))
               Hfree).
Defined.

(** The exits of a run: all tasks done, one task failed, a key file
    missing, no input directory. *)
Example exits_of_a_run :
  fst (main sample_fetch sample_decrypt sample_ffmpeg last_first
         sample_resolve sample_size odd_name_world) = inr tt /\
  fst (main flaky_fetch sample_decrypt sample_ffmpeg last_first
         sample_resolve sample_size odd_name_world) = inr tt /\
  fst (main sample_fetch sample_decrypt sample_ffmpeg last_first
         sample_resolve sample_size missing_key_world)
  = inl (FileNotFoundError "Missing key file: a1.0.bin") /\
  fst (main sample_fetch sample_decrypt sample_ffmpeg last_first
         sample_resolve sample_size (World [] []))
  = inl (FileNotFoundError "Input directory 'inputfiles' not found") /\
  fst (main sample_fetch sample_decrypt sample_ffmpeg last_first
         sample_resolve sample_size (World [("inputfiles", Os.Dir)] []))
  = inl (ValueError "No valid playlist/key pairs found in inputfiles").
Proof. repeat split; vm_compute; reflexivity. Qed.

(** Digits of any script make a version: a playlist named with
    Arabic-Indic digits follows the pattern, and its key file is asked
    for. *)
Example arabic_version_needs_its_key :
  fst (find_tasks
         (World [("inputfiles", Os.Dir);
                 ("inputfiles/a" +++ arabic_three +++ "." +++ arabic_four
                  +++ ".m3u8", Os.File "")] []))
  = inl (FileNotFoundError
           ("Missing key file: a" +++ arabic_three +++ "." +++ arabic_four
            +++ ".bin")).
Proof. vm_compute. reflexivity. Qed.

(** * More on the file name pattern and the tasks it yields *)

Section PatternFacts.

Lemma span_digits_app (d r : list string) :
  forallb Py.is_digit d = true ->
  (forall c r', r = c :: r' -> Py.is_digit c = false) ->
  span_digits (d ++ r) = (d, r).
Proof.
  intros Hd Hr. induction d as [|c d IH]; cbn [app].
  - destruct r as [|c r']; [reflexivity|].
    cbn [span_digits]. now rewrite (Hr c r' eq_refl).
  - simpl in Hd. apply andb_prop in Hd as [Hc Hd].
    cbn [span_digits]. rewrite Hc, (IH Hd). reflexivity.
Qed.

(** The version pattern, with its tests written out. *)
Lemma match_version_eq (l : list string) :
  match_version l
  = let (d1, r1) := span_digits l in
    match d1 with
    | [] => None
    | _ :: _ =>
        match r1 with
        | [] => None
        | x :: r2 =>
            if (x =? ".")%string
            then let (d2, r3) := span_digits r2 in
                 match d2 with
                 | [] => None
                 | _ :: _ =>
                     if (Py.join r3 =? ".m3u8")%string
                        || (Py.join r3 =? ".m3u8" +++ NL)%string
                     then Some (Py.join d1 +++ "." +++ Py.join d2)
                     else None
                 end
            else None
        end
    end.
Proof.
  unfold match_version. destruct (span_digits l) as [d1 r1].
  destruct d1 as [|c1 d1]; destruct r1 as [|x r2]; try reflexivity;
    (destruct x as [|a t]; [reflexivity|]);
    destruct a as [[] [] [] [] [] [] [] []]; destruct t; reflexivity.
Qed.

(** A match of the version part leaves the extension, perhaps with a final
    newline, and nothing else. *)
Lemma match_version_sound (l : list string) (v : string) :
  match_version l = Some v ->
  dotted_version v /\
  (Py.join l = v +++ ".m3u8" \/ Py.join l = v +++ ".m3u8" +++ NL).
Proof.
  intros H. split; [eapply match_version_spec; exact H|].
  apply match_version_shape in H
    as (c1 & d1 & c2 & d2 & r3 & -> & _ & _ & Hr & ->).
  rewrite join_app. cbn [Py.join]. rewrite join_app.
  change (Py.join (c2 :: d2)) with (c2 +++ Py.join d2).
  change (Py.join (c1 :: d1)) with (c1 +++ Py.join d1).
  destruct Hr as [-> | ->]; [left|right]; now rewrite !append_assoc.
Qed.

Lemma re_grow_sound (rest : list string) (base b v : string) :
  re_grow base rest = Some (b, v) ->
  dotted_version v /\
  (exists x, b = base +++ x) /\
  (base +++ Py.join rest = b +++ v +++ ".m3u8" \/
   base +++ Py.join rest = b +++ v +++ ".m3u8" +++ NL).
Proof.
  revert base. induction rest as [|c rest IH]; intros base; cbn [re_grow].
  - destruct (match_version []) as [v'|] eqn:E; [|discriminate].
    discriminate E.
  - destruct (match_version (c :: rest)) as [v'|] eqn:E.
    + intros H. injection H as <- <-.
      destruct (match_version_sound _ _ E) as [Hv [Hs|Hs]];
        rewrite Hs; (split; [exact Hv|]);
        (split; [exists ""; now rewrite append_nil_r|]); auto.
    + destruct (c =? NL)%string; [discriminate|]. intros H.
      destruct (IH _ H) as (Hv & [x Hx] & Hs).
      rewrite append_assoc in Hx, Hs.
      split; [exact Hv|]. split; [now exists (c +++ x) | exact Hs].
Qed.

(** A matching file name is its two groups followed by the extension. *)
Lemma re_match_sound (filename b v : string) :
  re_match filename = Some (b, v) ->
  dotted_version v /\ b <> "" /\
  (filename = b +++ v +++ ".m3u8" \/ filename = b +++ v +++ ".m3u8" +++ NL).
Proof.
  unfold re_match. destruct (Py.chars filename) as [|c r] eqn:Ec;
    [discriminate|].
  destruct (c =? NL)%string; [discriminate|]. intros H.
  destruct (re_grow_sound _ _ _ _ H) as (Hv & [x ->] & Hs).
  assert (Hc : c <> "")
    by (apply (chars_elements filename); rewrite Ec; now left).
  split; [exact Hv|]. split; [destruct c; [congruence | discriminate]|].
  rewrite <- (chars_join filename), Ec. exact Hs.
Qed.

Lemma endswith_app (p x : string) : Py.endswith p (x +++ p) = true.
Proof.
  induction x as [|c x IH]; cbn [append].
  - destruct p; cbn [Py.endswith]; now rewrite String.eqb_refl.
  - cbn [Py.endswith]. rewrite IH. apply orb_true_r.
Qed.

Lemma endswith_decompose (p s : string) :
  Py.endswith p s = true -> exists x, s = x +++ p.
Proof.
  induction s as [|c s IH]; cbn [Py.endswith].
  - rewrite orb_false_r. intros H. apply String.eqb_eq in H. subst p.
    now exists "".
  - intros H. apply orb_true_iff in H as [H|H].
    + apply String.eqb_eq in H. subst p. now exists "".
    + destruct (IH H) as [x ->]. now exists (String c x).
Qed.

Lemma endswith_nl_extension (x : string) :
  Py.endswith NL (x +++ ".m3u8") = false.
Proof.
  induction x as [|c x IH]; [reflexivity|].
  cbn [append Py.endswith]. rewrite IH, orb_false_r.
  unfold NL. rewrite string_eqb_cons.
  replace (x +++ ".m3u8" =? "")%string with false;
    [apply andb_false_r|].
  symmetry. apply String.eqb_neq. apply append_not_empty. discriminate.
Qed.

(** A name that ends with the extension does not end with a newline. *)
Lemma extension_not_newline (x y : string) :
  x +++ ".m3u8" <> y +++ ".m3u8" +++ NL.
Proof.
  intros H. apply (f_equal (Py.endswith NL)) in H.
  rewrite endswith_nl_extension in H.
  replace (y +++ ".m3u8" +++ NL) with ((y +++ ".m3u8") +++ NL) in H
    by apply append_assoc.
  rewrite endswith_app in H. discriminate H.
Qed.

Lemma length_append (a b : string) :
  String.length (a +++ b) = String.length a + String.length b.
Proof. induction a as [|c a IH]; simpl; [reflexivity | now rewrite IH]. Qed.

(** What [glob] returns lies directly in the directory and has the
    suffix. *)
Lemma glob_elem (f : Os.filesystem) (dir suffix p : string) :
  In p (Os.glob f dir suffix) ->
  Os.is_dir f dir = true /\ Os.path_exists f p = true /\
  exists name,
    p = dir +++ "/" +++ name /\ avoids "/" name = true /\
    Py.endswith suffix name = true.
Proof.
  unfold Os.glob. destruct (Os.is_dir f dir); [|intros []].
  intros H. apply filter_In in H as [Hin Hg]. split; [reflexivity|]. split.
  - unfold Os.path_exists. clear Hg.
    induction f as [|[q n] f IH]; [destruct Hin|].
    cbn [Os.lookup]. destruct (q =? p)%string eqn:E; [reflexivity|].
    apply IH. destruct Hin as [Hq|Hin]; [|exact Hin].
    cbn [fst] in Hq. subst q. now rewrite String.eqb_refl in E.
  - unfold Os.glob_match in Hg.
    apply andb_prop in Hg as [Hpre Hg]. apply andb_prop in Hg as [Hg Hend].
    apply andb_prop in Hg as [Hg _]. apply andb_prop in Hg as [_ Hslash].
    apply prefix_decompose in Hpre.
    rewrite length_append in Hpre. cbn [String.length] in Hpre.
    exists (Py.drop (String.length dir + 1) p).
    split; [now rewrite <- append_assoc|]. split; [|exact Hend].
    apply negb_true_iff in Hslash. rewrite contains_slash in Hslash.
    now apply negb_false_iff in Hslash.
Qed.

Lemma tasks_of_in (paths : list string) (t : Task) :
  In t (tasks_of paths) ->
  exists p b v,
    In p paths /\ re_match (Os.basename p) = Some (b, v) /\
    t = make_task b v p (Os.path_join input_dir (key_file_of b v)).
Proof.
  induction paths as [|q r IH]; cbn [tasks_of]; [intros []|].
  destruct (re_match (Os.basename q)) as [[b v]|] eqn:E.
  - intros [<-|H].
    + exists q, b, v. repeat split; auto. now left.
    + destruct (IH H) as (p & b' & v' & Hp & Hm & Ht).
      exists p, b', v'. repeat split; auto. now right.
  - intros H. destruct (IH H) as (p & b' & v' & Hp & Hm & Ht).
    exists p, b', v'. repeat split; auto. now right.
Qed.

Lemma join_input (name : string) :
  name <> "" -> avoids "/" name = true ->
  Os.path_join input_dir name = "inputfiles/" +++ name.
Proof.
  intros Hne Hs. unfold Os.path_join, Py.startswith.
  destruct name as [|c name]; [congruence|].
  rewrite prefix_cons. simpl in Hs. apply andb_prop in Hs as [Hc _].
  apply negb_true_iff in Hc. rewrite Ascii.eqb_sym, Hc. reflexivity.
Qed.

(** The fields of the tasks [find_tasks] returns, and the files they name. *)
Lemma find_tasks_fields (w : world) (tasks : list Task) (t : Task) :
  fst (find_tasks w) = inr tasks -> In t tasks ->
  exists b v,
    dotted_version v /\ b <> "" /\ avoids "/" b = true /\
    t = make_task b v ("inputfiles/" +++ b +++ v +++ ".m3u8")
                      ("inputfiles/" +++ b +++ v +++ ".bin") /\
    Os.path_exists (fs w) ("inputfiles/" +++ b +++ v +++ ".m3u8") = true /\
    Os.path_exists (fs w) ("inputfiles/" +++ b +++ v +++ ".bin") = true.
Proof.
  intros Hf Ht.
  destruct (find_tasks_cases w)
    as [(Hall & ts & E & HP & _)|(pre & q & post & b & v & _ & _ & _ & _ & E)];
    rewrite E in Hf; cbn [fst] in Hf; [|discriminate].
  injection Hf as <-.
  apply (Permutation_in _ HP) in Ht.
  destruct (tasks_of_in _ _ Ht) as (p & b & v & Hp & Hm & ->).
  destruct (glob_elem _ _ _ _ Hp) as (_ & Hex & name & -> & Hslash & Hend).
  rewrite basename_join in Hm by exact Hslash.
  destruct (re_match_sound _ _ _ Hm) as (Hv & Hb & Hname).
  assert (Hn : name = b +++ v +++ ".m3u8").
  { destruct Hname as [Hn|Hn]; [exact Hn|]. exfalso.
    destruct (endswith_decompose _ _ Hend) as [x Hx].
    rewrite Hn in Hx. rewrite <- !append_assoc in Hx.
    symmetry in Hx.
    replace (((b +++ v) +++ ".m3u8") +++ NL)
      with ((b +++ v) +++ ".m3u8" +++ NL) in Hx
      by (now rewrite !append_assoc).
    exact (extension_not_newline _ _ Hx). }
  subst name.
  assert (Hbs : avoids "/" b = true).
  { rewrite avoids_app in Hslash. now apply andb_prop in Hslash as [H _]. }
  assert (Hkey : Os.path_join input_dir (key_file_of b v)
                 = "inputfiles/" +++ b +++ v +++ ".bin").
  { apply join_input.
    - unfold key_file_of. destruct b; [congruence | discriminate].
    - unfold key_file_of. rewrite !avoids_app, Hbs.
      rewrite (dotted_version_avoids "/" v eq_refl eq_refl Hv). reflexivity. }
  exists b, v. rewrite Hkey. repeat split; auto.
  rewrite forallb_forall in Hall. specialize (Hall _ Hp).
  apply negb_true_iff in Hall. unfold missing_key in Hall.
  rewrite basename_join, Hm, Hkey in Hall by exact Hslash.
  now apply negb_false_iff in Hall.
Qed.

Lemma find_tasks_found (w : world) (tasks : list Task) :
  fst (find_tasks w) = inr tasks -> Forall found tasks.
Proof.
  intros Hf. apply Forall_forall. intros t Ht.
  destruct (find_tasks_fields w tasks t Hf Ht)
    as (b & v & Hv & _ & Hb & -> & _).
  now exists b, v, ("inputfiles/" +++ b +++ v +++ ".m3u8"),
             ("inputfiles/" +++ b +++ v +++ ".bin").
Qed.

Lemma found_discovered (t : Task) : found t -> discovered t.
Proof. intros (b & v & p & k & Hv & _ & ->). now exists b, v, p, k. Qed.

Lemma append_inj_r (s a b : string) : a +++ s = b +++ s -> a = b.
Proof.
  revert b. induction a as [|c a IH]; intros [|d b] H; cbn [append] in H.
  - reflexivity.
  - exfalso. apply (f_equal String.length) in H.
    cbn [String.length] in H. rewrite length_append in H. lia.
  - exfalso. apply (f_equal String.length) in H.
    cbn [String.length] in H. rewrite length_append in H. lia.
  - injection H as -> H. f_equal. now apply IH.
Qed.

(** A string splits in one way only at the last occurrence of a
    character. *)
Lemma split_at_last (c : ascii) (x y x' y' : string) :
  avoids c y = true -> avoids c y' = true ->
  x +++ String c y = x' +++ String c y' -> x = x' /\ y = y'.
Proof.
  intros Hy Hy'. revert x'.
  induction x as [|a x IH]; intros [|a' x'] H; cbn [append] in H.
  - injection H as H. auto.
  - exfalso. injection H as <- H. rewrite H, avoids_app in Hy.
    cbn [avoids] in Hy. rewrite Ascii.eqb_refl in Hy.
    cbn [negb andb] in Hy. now rewrite andb_false_r in Hy.
  - exfalso. injection H as -> H. rewrite <- H, avoids_app in Hy'.
    cbn [avoids] in Hy'. rewrite Ascii.eqb_refl in Hy'.
    cbn [negb andb] in Hy'. now rewrite andb_false_r in Hy'.
  - injection H as -> H. destruct (IH _ H) as [-> ->]. auto.
Qed.

(** ** The shortest base *)

Lemma last_is_digit_cons (x y : string) (l : list string) :
  last_is_digit (x :: y :: l) = last_is_digit (y :: l).
Proof.
  unfold last_is_digit. cbn [rev].
  destruct (rev l) as [|z r]; reflexivity.
Qed.

(** In characters that do not end with a digit the run of digits at the
    head stops before the end. *)
Lemma span_digits_stop (l : list string) :
  l <> [] -> last_is_digit l = false ->
  exists d t,
    span_digits l = (d, t) /\ t <> [] /\ last_is_digit t = false.
Proof.
  induction l as [|x l IH]; [congruence|]. intros _ Hl.
  cbn [span_digits]. destruct (Py.is_digit x) eqn:Ex.
  - destruct l as [|y l].
    + unfold last_is_digit in Hl. cbn in Hl. congruence.
    + rewrite last_is_digit_cons in Hl.
      destruct (IH ltac:(discriminate) Hl) as (d & t & E & Ht & Hd).
      rewrite E. now exists (x :: d), t.
  - exists [], (x :: l). split; [reflexivity|]. split; [discriminate|exact Hl].
Qed.

Lemma span_digits_app_stop (l d t rest : list string) :
  span_digits l = (d, t) -> t <> [] ->
  span_digits (l ++ rest) = (d, t ++ rest).
Proof.
  revert d t. induction l as [|x l IH]; intros d t; cbn [span_digits app].
  - intros H. injection H as <- <-. congruence.
  - destruct (Py.is_digit x).
    + destruct (span_digits l) as [d' t'] eqn:E. intros H Ht.
      injection H as <- <-. now rewrite (IH d' t' eq_refl Ht).
    + intros H _. injection H as <- <-. reflexivity.
Qed.

Lemma chars_extension : Py.chars ".m3u8" = ["."; "m"; "3"; "u"; "8"].
Proof. reflexivity. Qed.

(** The first byte of a character continues no sequence. *)
Lemma starts_char_char (c t : string) :
  Py.is_char c = true -> starts_char (c +++ t) = true.
Proof.
  destruct c as [|a [|b [|c' [|d [|e r]]]]]; cbn [Py.is_char];
    try discriminate; intros H; cbn [String.append starts_char];
    apply negb_true_iff; unfold Py.seq2, Py.seq3, Py.seq4 in H;
    unfold Py.is_cont; bool_false.
Qed.

Lemma starts_char_number (s t : string) :
  number s -> starts_char (s +++ t) = true.
Proof.
  intros [Hd Hne]. rewrite <- (chars_join s).
  pose proof (all_digits_chars s Hd) as Hc.
  destruct (Py.chars s) as [|c l] eqn:E;
    [exfalso; apply Hne, chars_empty, E|].
  cbn [forallb] in Hc. apply andb_prop in Hc as [Hc _].
  cbn [Py.join]. rewrite !append_assoc. now apply starts_char_char.
Qed.

(** The characters of a version followed by the extension. *)
Lemma chars_version (major minor : string) :
  number major -> number minor ->
  Py.chars ((major +++ "." +++ minor) +++ ".m3u8")
  = Py.chars major ++ "." :: Py.chars minor ++ ["."; "m"; "3"; "u"; "8"].
Proof.
  intros [H1 _] [H2 _]. rewrite !append_assoc.
  rewrite <- (chars_join major) at 1.
  rewrite chars_join_app by apply all_digits_chars, H1. f_equal.
  change ("." +++ minor +++ ".m3u8") with (String "." (minor +++ ".m3u8")).
  rewrite chars_cons_ascii by reflexivity. f_equal.
  rewrite <- (chars_join minor) at 1.
  now rewrite chars_join_app by apply all_digits_chars, H2.
Qed.

Lemma number_chars (s : string) :
  number s -> exists c l, Py.chars s = c :: l.
Proof.
  intros [_ Hne]. destruct (Py.chars s) as [|c l] eqn:E; [|eauto].
  exfalso. apply Hne, chars_empty, E.
Qed.

(** The version part of a name that is just a version and the extension. *)
Lemma match_version_dotted (v : string) :
  dotted_version v -> match_version (Py.chars (v +++ ".m3u8")) = Some v.
Proof.
  intros (major & minor & -> & HM & Hm).
  rewrite chars_version by assumption. rewrite match_version_eq.
  rewrite span_digits_app;
    [|apply HM | intros c r' E; injection E as <- _; reflexivity].
  replace (major +++ "." +++ minor)
    with (Py.join (Py.chars major) +++ "." +++ Py.join (Py.chars minor))
    by now rewrite !chars_join.
  destruct (number_chars _ HM) as (c1 & d1 & E1).
  destruct (number_chars _ Hm) as (c2 & d2 & E2).
  assert (H2 : span_digits (Py.chars minor ++ ["."; "m"; "3"; "u"; "8"])
               = (Py.chars minor, ["."; "m"; "3"; "u"; "8"])).
  { apply span_digits_app; [apply Hm|].
    intros c r' E; injection E as <- _; reflexivity. }
  rewrite E1. cbn [String.eqb Ascii.eqb Bool.eqb]. rewrite H2, E2.
  reflexivity.
Qed.

Lemma long_is_no_extension (s : string) :
  6 < String.length s ->
  ((s =? ".m3u8")%string || (s =? ".m3u8" +++ NL)%string)%bool = false.
Proof.
  intros H. apply orb_false_iff. split; apply String.eqb_neq; intros ->;
    cbn in H; lia.
Qed.

Lemma dotted_version_length (v : string) :
  dotted_version v -> 3 <= String.length v.
Proof.
  intros (major & minor & -> & [_ H1] & [_ H2]).
  rewrite !length_append. cbn [String.length].
  destruct major; [congruence|]. destruct minor; [congruence|].
  cbn [String.length]. lia.
Qed.

(** The version part does not match where a character that is not a digit
    stands between the position and the version. *)
Lemma match_version_blocked (l : list string) (v : string) :
  l <> [] -> last_is_digit l = false -> dotted_version v ->
  match_version (l ++ Py.chars (v +++ ".m3u8")) = None.
Proof.
  intros Hne Hl Hv. rewrite match_version_eq.
  destruct (span_digits_stop l Hne Hl) as (d & t & E & Ht & Hlt).
  rewrite (span_digits_app_stop _ _ _ _ E Ht).
  destruct d as [|c1 d]; [reflexivity|].
  destruct t as [|x t]; [congruence|]. cbn [app].
  destruct (x =? ".")%string; [|reflexivity].
  destruct t as [|y t].
  - cbn [app]. destruct Hv as (major & minor & -> & HM & Hm).
    rewrite chars_version by assumption.
    rewrite span_digits_app;
      [|apply HM | intros c r' E'; injection E' as <- _; reflexivity].
    destruct (number_chars _ HM) as (c2 & d2 & E2). rewrite E2.
    rewrite long_is_no_extension; [reflexivity|].
    cbn [Py.join]. rewrite join_app. cbn [Py.join String.append].
    rewrite chars_join. cbn [String.length]. rewrite length_append.
    destruct Hm as [_ Hm]. destruct minor; [congruence|].
    cbn [String.length]. lia.
  - rewrite last_is_digit_cons in Hlt.
    destruct (span_digits_stop (y :: t) ltac:(discriminate) Hlt)
      as (d2 & t2 & E2 & Ht2 & _).
    rewrite (span_digits_app_stop _ _ _ _ E2 Ht2).
    destruct d2 as [|c2 d2]; [reflexivity|].
    rewrite long_is_no_extension; [reflexivity|].
    rewrite join_app, chars_join, !length_append.
    pose proof (dotted_version_length v Hv). cbn [String.length]. lia.
Qed.

Lemma re_grow_lazy (r : list string) (base v : string) :
  forallb (fun c => negb (c =? NL)%string) r = true ->
  last_is_digit r = false -> dotted_version v ->
  re_grow base (r ++ Py.chars (v +++ ".m3u8")) = Some (base +++ Py.join r, v).
Proof.
  intros Hn He Hv. revert base Hn He.
  induction r as [|c r IH]; intros base Hn He.
  - cbn [app Py.join]. rewrite append_nil_r.
    destruct (Py.chars (v +++ ".m3u8")) as [|x l] eqn:E.
    + apply chars_empty in E. destruct v; discriminate E.
    + cbn [re_grow]. rewrite <- E. now rewrite (match_version_dotted _ Hv).
  - cbn [app re_grow].
    change (c :: r ++ Py.chars (v +++ ".m3u8"))
      with ((c :: r) ++ Py.chars (v +++ ".m3u8")).
    rewrite (match_version_blocked (c :: r) v) by (discriminate || auto).
    cbn [forallb] in Hn. apply andb_prop in Hn as [Hc Hn].
    apply negb_true_iff in Hc. rewrite Hc.
    assert (He' : last_is_digit r = false).
    { destruct r as [|y r]; [reflexivity|].
      now rewrite last_is_digit_cons in He. }
    rewrite (IH _ Hn He'). cbn [Py.join]. now rewrite append_assoc.
Qed.

(** The characters of a string without newline are not newlines. *)
Lemma avoids_nl_chars (s : string) :
  avoids Py.nl s = true ->
  forallb (fun c => negb (c =? NL)%string) (Py.chars s) = true.
Proof.
  intros H. apply forallb_forall. intros c Hc. apply negb_true_iff.
  apply String.eqb_neq. intros ->.
  assert (Hs : forall l, In NL l -> avoids Py.nl (Py.join l) = false).
  { induction l as [|x l IH]; [intros []|]. cbn [Py.join].
    rewrite avoids_app. intros [->|Hin]; [reflexivity|].
    rewrite (IH Hin). apply andb_false_r. }
  rewrite <- (chars_join s), (Hs _ Hc) in H. discriminate H.
Qed.

End PatternFacts.

(** * Further properties of task discovery *)

(** X1. Every task [find_tasks] returns was read off a playlist name
    [<base><version>.m3u8] directly in the input directory: the version is
    a dotted pair of numbers, the base is not empty, the key is the file
    [<base><version>.bin] beside the playlist, the output is
    [<base> <version>.mp4], and both the playlist and the key exist. *)
Theorem found_task_names_its_files (w : world) (tasks : list Task) (t : Task) :
  fst (find_tasks w) = inr tasks -> In t tasks ->
  dotted_version (version t) /\ base_name t <> "" /\
  playlist t = "inputfiles/" +++ base_name t +++ version t +++ ".m3u8" /\
  key t = "inputfiles/" +++ base_name t +++ version t +++ ".bin" /\
  output_file t = base_name t +++ " " +++ version t +++ ".mp4" /\
  Os.path_exists (fs w) (playlist t) = true /\
  Os.path_exists (fs w) (key t) = true.
Proof.
  intros Hf Ht.
  destruct (find_tasks_fields w tasks t Hf Ht)
    as (b & v & Hv & Hb & _ & -> & Hp & Hk).
  cbn [version base_name playlist key output_file make_task].
  repeat split; assumption.
Qed.

Lemma found_task_names_its_files_witness :
  fst (find_tasks odd_name_world) = inr [task_2] /\ In task_2 [task_2] /\
  dotted_version (version task_2) /\ base_name task_2 <> "" /\
  playlist task_2
  = "inputfiles/" +++ base_name task_2 +++ version task_2 +++ ".m3u8" /\
  key task_2
  = "inputfiles/" +++ base_name task_2 +++ version task_2 +++ ".bin" /\
  output_file task_2 = base_name task_2 +++ " " +++ version task_2 +++ ".mp4" /\
  Os.path_exists (fs odd_name_world) (playlist task_2) = true /\
  Os.path_exists (fs odd_name_world) (key task_2) = true.
Proof.
  assert (Hf : fst (find_tasks odd_name_world) = inr [task_2])
    by (vm_compute; reflexivity).
  assert (Hi : In task_2 [task_2]) by (simpl; auto).
  split; [exact Hf|]. split; [exact Hi|].
  exact (found_task_names_its_files _ _ _ Hf Hi).
Defined.

(** X2. Two tasks of one discovery that would write the same output file
    are the same task: same base name, version, playlist and key.  Output
    files never collide, although workspaces can. *)
Theorem output_files_do_not_collide
  (w : world) (tasks : list Task) (t1 t2 : Task) :
  fst (find_tasks w) = inr tasks -> In t1 tasks -> In t2 tasks ->
  output_file t1 = output_file t2 -> t1 = t2.
Proof.
  intros Hf H1 H2.
  destruct (find_tasks_fields w tasks t1 Hf H1)
    as (b1 & v1 & Hv1 & _ & _ & -> & _).
  destruct (find_tasks_fields w tasks t2 Hf H2)
    as (b2 & v2 & Hv2 & _ & _ & -> & _).
  cbn [output_file make_task]. intros Ho.
  assert (Hx : b1 +++ String " " v1 = b2 +++ String " " v2).
  { apply (append_inj_r ".mp4").
    rewrite !append_assoc. exact Ho. }
  apply split_at_last in Hx as [-> ->];
    [reflexivity
    |apply (dotted_version_avoids " " v1 eq_refl eq_refl Hv1)
    |apply (dotted_version_avoids " " v2 eq_refl eq_refl Hv2)].
Qed.

Lemma output_files_do_not_collide_witness :
  fst (find_tasks (World same_version_fs [])) = inr [task_a; task_b] /\
  In task_a [task_a; task_b] /\ In task_a [task_a; task_b] /\
  output_file task_a = output_file task_a /\ task_a = task_a.
Proof.
  assert (Hf : fst (find_tasks (World same_version_fs []))
               = inr [task_a; task_b]) by (vm_compute; reflexivity).
  assert (Ha : In task_a [task_a; task_b]) by (simpl; auto).
  split; [exact Hf|]. split; [exact Ha|]. split; [exact Ha|].
  split; [reflexivity|].
  exact (output_files_do_not_collide _ _ _ _ Hf Ha Ha eq_refl).
Defined.

(** X3. The base name is the shortest the pattern allows.  A name made of
    a base without newline whose last character, when it has more than
    one, is no decimal digit of any script, followed by a version and
    [.m3u8], splits into exactly that base and that version.  A
    one-character base may be a digit: of a name that is digits only, the
    first digit is the base. *)
Theorem base_name_is_shortest (b v c : string) (r : list string) :
  Py.chars b = c :: r -> avoids Py.nl b = true ->
  last_is_digit r = false -> dotted_version v ->
  re_match (b +++ v +++ ".m3u8") = Some (b, v).
Proof.
  intros Hb Hn He Hv. unfold re_match.
  assert (Hs : starts_char (v +++ ".m3u8") = true).
  { destruct Hv as (major & minor & -> & HM & _).
    rewrite append_assoc. now apply starts_char_number. }
  rewrite (chars_app b _ Hs), Hb. cbn [app].
  pose proof (avoids_nl_chars b Hn) as Hc. rewrite Hb in Hc.
  cbn [forallb] in Hc. apply andb_prop in Hc as [Hc Hr].
  apply negb_true_iff in Hc. rewrite Hc.
  rewrite (re_grow_lazy r c v Hr He Hv).
  change (c +++ Py.join r) with (Py.join (c :: r)).
  now rewrite <- Hb, chars_join.
Qed.

Lemma base_name_is_shortest_witness :
  Py.chars "1" = ["1"] /\ avoids Py.nl "1" = true /\
  last_is_digit [] = false /\ dotted_version "2.5" /\
  re_match ("1" +++ "2.5" +++ ".m3u8") = Some ("1", "2.5").
Proof.
  assert (Hv : dotted_version "2.5").
  { exists "2", "5". repeat split; (reflexivity || discriminate). }
  split; [reflexivity|]. split; [reflexivity|]. split; [reflexivity|].
  split; [exact Hv|].
  exact (base_name_is_shortest "1" "2.5" "1" [] eq_refl eq_refl eq_refl Hv).
Defined.

(** Digits of any script count: in [a<U+0663>1.0.m3u8] the base is [a] and
    the version starts with the Arabic-Indic three; [a<U+0663>.<U+0664>.m3u8]
    follows the pattern. *)
Example digits_of_any_script :
  re_match ("a" +++ arabic_three +++ "1.0.m3u8")
  = Some ("a", arabic_three +++ "1.0") /\
  re_match ("a" +++ arabic_three +++ "." +++ arabic_four +++ ".m3u8")
  = Some ("a", arabic_three +++ "." +++ arabic_four) /\
  version_key (make_task "a" (arabic_three +++ "." +++ arabic_four) "" "")
  = inr [3%Z; 4%Z].
Proof. repeat split; vm_compute; reflexivity. Qed.

(** * Further properties of playlist parsing and of segment names *)

Section LineFacts.

(** Putting a carriage return before the line feeds adds empty lines at
    most. *)
Lemma lines_go_crlf (s cur : string) :
  filter nonempty (Py.lines_go cur (crlf s))
  = filter nonempty (Py.lines_go cur s).
Proof.
  revert cur. induction s as [|c r IH]; intros cur; [reflexivity|].
  cbn [crlf]. destruct (Ascii.eqb c Py.nl) eqn:En.
  - cbn [Py.lines_go]. rewrite En.
    change (Ascii.eqb Py.cr Py.nl) with false.
    change (Ascii.eqb Py.cr Py.cr) with true.
    change (Ascii.eqb Py.nl Py.nl) with true.
    cbn [filter]. now rewrite IH.
  - cbn [Py.lines_go]. rewrite En.
    destruct (Ascii.eqb c Py.cr) eqn:Ec; [|apply IH].
    destruct r as [|c' r']; [reflexivity|].
    specialize (IH ""). cbn [crlf] in IH |- *.
    destruct (Ascii.eqb c' Py.nl) eqn:En'.
    + change (Ascii.eqb Py.cr Py.nl) with false.
      cbn [Py.lines_go] in IH. rewrite En' in IH.
      change (Ascii.eqb Py.cr Py.nl) with false in IH.
      change (Ascii.eqb Py.cr Py.cr) with true in IH.
      change (Ascii.eqb Py.nl Py.nl) with true in IH.
      cbn [filter] in IH |- *.
      change (nonempty "") with false in IH. cbv iota in IH.
      cbn [Py.lines_go].
      change (Ascii.eqb Py.cr Py.nl) with false.
      change (Ascii.eqb Py.cr Py.cr) with true.
      change (Ascii.eqb Py.nl Py.nl) with true.
      cbn [filter]. change (nonempty "") with false. cbv iota.
      now rewrite IH.
    + rewrite En'. cbn [filter]. now rewrite IH.
Qed.

(** Empty lines change nothing in what the scan of a playlist finds. *)
Lemma scan_lines_nonempty (ls : list string) (iv : option string)
    (segments : list string) :
  scan_lines iv segments (filter nonempty ls) = scan_lines iv segments ls.
Proof.
  revert iv segments. induction ls as [|raw r IH]; intros iv segments;
    [reflexivity|].
  cbn [filter]. destruct raw as [|c raw].
  - change (nonempty "") with false. cbv iota.
    rewrite IH. reflexivity.
  - change (nonempty (String c raw)) with true. cbv iota.
    cbn [scan_lines]. cbv zeta.
    destruct (Py.startswith "#EXT-X-KEY" (Py.strip (String c raw))).
    + destruct (nth_error _ 1) as [attrs|]; [|reflexivity].
      destruct (scan_attrs iv _) as [e|iv']; [reflexivity | apply IH].
    + destruct (Py.contains ".ts?" (Py.strip (String c raw))); apply IH.
Qed.

End LineFacts.

(** X4. A playlist saved with Windows line ends parses as the same
    playlist with plain line feeds: the IV, the segment URLs and the
    errors are the same. *)
Theorem line_ends_do_not_matter (playlist_path text : string) :
  parse_text playlist_path (crlf text) = parse_text playlist_path text.
Proof.
  unfold parse_text, Py.lines.
  rewrite <- (scan_lines_nonempty (Py.lines_go "" (crlf text))).
  rewrite <- (scan_lines_nonempty (Py.lines_go "" text)).
  now rewrite lines_go_crlf.
Qed.

(** X5. The sort key of the file list reads back the index a segment file
    was named with, in whatever directory the file lies; so two different
    indices never get the same key. *)
Theorem sort_key_reads_index (dir : string) (i : nat) :
  segment_key (dir +++ "/" +++ segment_name i) = inr (Z.of_nat i).
Proof. exact (segment_key_path dir i). Qed.

(** * Further properties of the download stage *)

Section DownloadResult.

Variable fetch : string -> exn + string.
Variable task : Task.
Hypothesis task_discovered : discovered task.

Local Abbreviation seg := (segment_path (downloaded_dir task)).

Lemma parent_ok_store_segment (j i : nat) (d : string) (f : Os.filesystem) :
  parent_ok (Os.store (seg j) (Os.File d) f) (seg i) = parent_ok f (seg i).
Proof.
  unfold parent_ok. rewrite parent_segment, is_dir_store_file.
  replace (seg j =? downloaded_dir task)%string with false; [reflexivity|].
  symmetry. apply String.eqb_neq, segment_path_not_dir.
Qed.

(** What one completed future leaves at the path of its segment. *)
Lemma download_step_lookup (i : nat) (url : string) (w : world) :
  Os.lookup (fs (snd (download_step fetch task (i, url) w))) (seg i)
  = stored (fs w) (seg i) (fetch url).
Proof.
  rewrite (download_step_spec fetch task task_discovered). cbv zeta.
  unfold stored. destruct (fetch url) as [e|content]; [reflexivity|].
  destruct (Os.lookup (fs w) (seg i)) as [[x|]|] eqn:E;
    try destruct (parent_ok (fs w) (seg i));
    cbn [snd fs]; rewrite ?lookup_store_eq; auto.
Qed.

(** One completed future changes no path but that of its segment. *)
Lemma download_step_frame (i : nat) (url p : string) (w : world) :
  p <> seg i ->
  Os.lookup (fs (snd (download_step fetch task (i, url) w))) p
  = Os.lookup (fs w) p.
Proof.
  intros Hp.
  destruct (download_step_cases fetch task task_discovered i url w)
    as (f' & errs & E & _ & Hf & _).
  rewrite E. cbn [snd fs].
  destruct Hf as [->|(content & _ & ->)]; [reflexivity|].
  apply lookup_store_neq. congruence.
Qed.

Lemma download_step_parent (j i : nat) (url : string) (w : world) :
  parent_ok (fs (snd (download_step fetch task (j, url) w))) (seg i)
  = parent_ok (fs w) (seg i).
Proof.
  destruct (download_step_cases fetch task task_discovered j url w)
    as (f' & errs & E & _ & Hf & _).
  rewrite E. cbn [snd fs].
  destruct Hf as [->|(content & _ & ->)]; [reflexivity|].
  apply parent_ok_store_segment.
Qed.

Lemma stored_ext (f g : Os.filesystem) (p : string) (r : exn + string) :
  Os.lookup f p = Os.lookup g p -> parent_ok f p = parent_ok g p ->
  stored f p r = stored g p r.
Proof. intros H1 H2. unfold stored. now rewrite H1, H2. Qed.

(** Paths that belong to none of the futures stay as they are. *)
Lemma download_loop_frame (futures : list (nat * string)) (w : world)
    (p : string) :
  (forall i, In i (map fst futures) -> p <> seg i) ->
  Os.lookup (fs (snd (for_each futures (download_step fetch task) w))) p
  = Os.lookup (fs w) p.
Proof.
  revert w. induction futures as [|[j url] futures IH]; intros w Hp;
    [reflexivity|].
  cbn [for_each]. unfold bind.
  pose proof (download_step_frame j url p w (Hp j (or_introl eq_refl))) as Hs.
  destruct (download_step_cases fetch task task_discovered j url w)
    as (f' & errs & E & _).
  rewrite E in Hs |- *. cbn [snd fs] in Hs.
  rewrite IH by (intros i Hi; apply Hp; now right). exact Hs.
Qed.

(** What the loop leaves at the path of a segment depends on the request
    for that segment and on what was there before, not on the order of the
    futures. *)
Lemma download_loop_lookup (futures : list (nat * string)) (w : world)
    (i : nat) (url : string) :
  NoDup (map fst futures) -> In (i, url) futures ->
  Os.lookup (fs (snd (for_each futures (download_step fetch task) w))) (seg i)
  = stored (fs w) (seg i) (fetch url).
Proof.
  revert w. induction futures as [|[j u] futures IH]; intros w Hnd Hin;
    [destruct Hin|].
  cbn [map fst] in Hnd. apply NoDup_cons_iff in Hnd as [Hj Hnd].
  cbn [for_each]. unfold bind.
  pose proof (download_step_lookup j u w) as Hl.
  pose proof (fun k => download_step_parent j k u w) as Hpar.
  pose proof (fun p => download_step_frame j u p w) as Hfr.
  destruct (download_step_cases fetch task task_discovered j u w)
    as (f' & errs & E & _).
  rewrite E in Hl, Hpar, Hfr |- *. cbn [snd fs] in Hl, Hpar, Hfr.
  destruct Hin as [Heq|Hin].
  - injection Heq as -> ->.
    rewrite (download_loop_other fetch task task_discovered) by exact Hj.
    exact Hl.
  - rewrite (IH _ Hnd Hin). cbn [fs]. apply stored_ext; [|apply Hpar].
    apply Hfr. intros H. apply segment_path_inj in H. subst j.
    apply Hj. apply (in_map fst) in Hin. exact Hin.
Qed.

Section AnyOrder.

Variable as_completed : list (nat * string) -> list (nat * string).
Hypothesis as_completed_perm : forall l, Permutation (as_completed l) l.

Lemma completed_NoDup (segments : list string) :
  NoDup (map fst (as_completed (Py.enumerate segments))).
Proof.
  apply (Permutation_NoDup (l := map fst (Py.enumerate segments)));
    [|apply enumerate_NoDup].
  apply Permutation_map, Permutation_sym, as_completed_perm.
Qed.

Lemma completed_index (segments : list string) (i : nat) :
  In i (map fst (as_completed (Py.enumerate segments))) ->
  i < List.length segments.
Proof.
  intros H.
  apply (Permutation_in (l' := map fst (Py.enumerate segments))) in H;
    [|apply Permutation_map, as_completed_perm].
  unfold Py.enumerate in H. rewrite enumerate_from_fst in H.
  apply in_seq in H. lia.
Qed.

Lemma completed_nth (segments : list string) (i : nat) (url : string) :
  nth_error segments i = Some url ->
  In (i, url) (as_completed (Py.enumerate segments)).
Proof.
  intros H. eapply Permutation_in; [apply Permutation_sym, as_completed_perm|].
  now apply enumerate_nth.
Qed.

(** The download stage at the path of a submitted segment. *)
Lemma download_segments_lookup (segments : list string) (w : world)
    (i : nat) (url : string) :
  nth_error segments i = Some url ->
  Os.lookup (fs (snd (download_segments fetch as_completed task segments w)))
            (seg i)
  = stored (fs w) (seg i) (fetch url).
Proof.
  intros Hn. apply download_loop_lookup;
    [apply completed_NoDup | now apply completed_nth].
Qed.

(** The download stage at any other path. *)
Lemma download_segments_frame (segments : list string) (w : world)
    (p : string) :
  (forall i, i < List.length segments -> p <> seg i) ->
  Os.lookup (fs (snd (download_segments fetch as_completed task segments w))) p
  = Os.lookup (fs w) p.
Proof.
  intros Hp. apply download_loop_frame.
  intros i Hi. apply Hp. now apply (completed_index segments).
Qed.

End AnyOrder.

End DownloadResult.

(** X6. Whatever the order in which the downloads complete, the download
    stage leaves the same content at every path: the outcome of the
    concurrent stage does not depend on scheduling. *)
Theorem download_order_is_irrelevant
    (fetch : string -> exn + string)
    (order1 order2 : list (nat * string) -> list (nat * string))
    (task : Task) (segments : list string) (w : world) (p : string) :
  (forall l, Permutation (order1 l) l) ->
  (forall l, Permutation (order2 l) l) ->
  discovered task ->
  Os.lookup (fs (snd (download_segments fetch order1 task segments w))) p
  = Os.lookup (fs (snd (download_segments fetch order2 task segments w))) p.
Proof.
  intros H1 H2 Hd.
  destruct (in_dec string_dec p
              (map (segment_path (downloaded_dir task))
                   (seq 0 (List.length segments)))) as [Hin|Hout].
  - apply in_map_iff in Hin as (i & <- & Hi). apply in_seq in Hi.
    destruct (nth_error segments i) as [url|] eqn:En;
      [|apply nth_error_None in En; lia].
    rewrite (download_segments_lookup fetch task Hd order1 H1 _ _ _ _ En).
    now rewrite (download_segments_lookup fetch task Hd order2 H2 _ _ _ _ En).
  - assert (Hp : forall i, i < List.length segments ->
                           p <> segment_path (downloaded_dir task) i).
    { intros i Hi ->. apply Hout, in_map, in_seq. lia. }
    rewrite (download_segments_frame fetch task Hd order1 H1 _ _ _ Hp).
    now rewrite (download_segments_frame fetch task Hd order2 H2 _ _ _ Hp).
Qed.

Lemma download_order_is_irrelevant_witness :
  (forall l, Permutation (last_first l) l) /\
  (forall l, Permutation (in_order l) l) /\
  discovered task_2 /\
  Os.lookup
    (fs (snd (download_segments flaky_fetch last_first task_2
                [url_a; url_b] download_ready_world)))
    "processing/downloaded_2.0/segment0.ts"
  = Os.lookup
      (fs (snd (download_segments flaky_fetch in_order task_2
                  [url_a; url_b] download_ready_world)))
      "processing/downloaded_2.0/segment0.ts".
Proof.
  assert (H2 : forall l, Permutation (in_order l) l)
    by (intros l; apply Permutation_refl).
  split; [exact last_first_perm|]. split; [exact H2|].
  split; [exact task_2_discovered|].
  exact (download_order_is_irrelevant flaky_fetch last_first in_order task_2
           [url_a; url_b] download_ready_world
           "processing/downloaded_2.0/segment0.ts"
           last_first_perm H2 task_2_discovered).
Defined.

(** X7. The download stage writes the segment files of the submitted
    positions and nothing else: every other path holds what it held
    before, and so does the path of a segment whose request failed; no
    empty or partial file stands for a failed download. *)
Theorem download_writes_fetched_segments_only
    (fetch : string -> exn + string)
    (as_completed : list (nat * string) -> list (nat * string))
    (task : Task) (segments : list string) (w : world) :
  (forall l, Permutation (as_completed l) l) ->
  discovered task ->
  let after := fs (snd (download_segments fetch as_completed task segments w)) in
  (forall p,
     (forall i, i < List.length segments ->
                p <> downloaded_dir task +++ "/" +++ segment_name i) ->
     Os.lookup after p = Os.lookup (fs w) p) /\
  (forall i url e,
     nth_error segments i = Some url -> fetch url = inl e ->
     Os.lookup after (downloaded_dir task +++ "/" +++ segment_name i)
     = Os.lookup (fs w) (downloaded_dir task +++ "/" +++ segment_name i)).
Proof.
  intros Hperm Hd after. subst after. split.
  - intros p Hp.
    exact (download_segments_frame fetch task Hd as_completed Hperm _ _ _ Hp).
  - intros i url e Hn He.
    fold (segment_path (downloaded_dir task) i).
    rewrite (download_segments_lookup fetch task Hd as_completed Hperm
               _ _ _ _ Hn).
    unfold stored. now rewrite He.
Qed.

Lemma download_writes_fetched_segments_only_witness :
  (forall l, Permutation (last_first l) l) /\
  discovered task_2 /\
  nth_error [url_a; url_b] 1 = Some url_b /\
  flaky_fetch url_b = inl (RequestException "404 Client Error") /\
  Os.lookup
    (fs (snd (download_segments flaky_fetch last_first task_2
                [url_a; url_b] download_notes_world)))
    (downloaded_dir task_2 +++ "/" +++ segment_name 1)
  = Os.lookup (fs download_notes_world)
      (downloaded_dir task_2 +++ "/" +++ segment_name 1).
Proof.
  assert (Hn : nth_error [url_a; url_b] 1 = Some url_b) by reflexivity.
  assert (He : flaky_fetch url_b = inl (RequestException "404 Client Error"))
    by reflexivity.
  split; [exact last_first_perm|]. split; [exact task_2_discovered|].
  split; [exact Hn|]. split; [exact He|].
  exact (proj2 (download_writes_fetched_segments_only flaky_fetch last_first
                  task_2 [url_a; url_b] download_notes_world
                  last_first_perm task_2_discovered) 1 url_b _ Hn He).
Defined.

(** * Further properties of a task *)

Lemma no_event_nil (d : list event) : Forall no_event d -> d = [].
Proof. destruct 1 as [|e d He _]; [reflexivity | destruct He]. Qed.

(** Making a directory prints nothing and keeps what new directories
    keep. *)
Lemma mkdir_quiet (I : Os.filesystem -> Prop) (parents exist_ok : bool)
    (p : string) (w : world) :
  (forall f q, I f -> Os.lookup f q = None -> I (f ++ [(q, Os.Dir)])) ->
  I (fs w) ->
  I (fs (snd (mkdir parents exist_ok p w))) /\
  log (snd (mkdir parents exist_ok p w)) = log w.
Proof.
  intros Hnew HI.
  destruct (respects_mkdir I no_event Hnew parents exist_ok p w HI)
    as [H (d & Hl & Hd)].
  split; [exact H|]. rewrite Hl, (no_event_nil d Hd). apply app_nil_r.
Qed.

Section TaskStages.

Variable fetch : string -> exn + string.
Variable aes_cbc_decrypt : string -> string -> string -> outcome.
Variable ffmpeg_concat : Os.filesystem -> list string -> option string.
Variable as_completed : list (nat * string) -> list (nat * string).

Local Abbreviation run_body :=
  (process_task_body fetch aes_cbc_decrypt ffmpeg_concat as_completed).
Local Abbreviation run_task :=
  (process_task fetch aes_cbc_decrypt ffmpeg_concat as_completed).

(** When reading the key and parsing the playlist cannot both succeed, the
    task stops there, having printed nothing. *)
Lemma process_task_body_stops (I : Os.filesystem -> Prop) (task : Task)
    (w : world) :
  (forall f q, I f -> Os.lookup f q = None -> I (f ++ [(q, Os.Dir)])) ->
  (forall w', I (fs w') ->
     exists e,
       bind (read_file (key task)) (fun _ => parse_m3u8 (playlist task)) w'
       = (inl e, w')) ->
  I (fs w) ->
  exists e,
    fst (run_body task w) = inl e /\ log (snd (run_body task w)) = log w.
Proof.
  intros Hnew Hstop HI. unfold process_task_body.
  destruct (mkdir_quiet I true true (downloaded_dir task) w Hnew HI)
    as [H1 L1].
  rewrite bind_eq.
  destruct (mkdir true true (downloaded_dir task) w) as [[e|[]] w1];
    cbn [fst snd] in H1, L1 |- *; [now exists e|].
  destruct (mkdir_quiet I true true (decrypted_dir task) w1 Hnew H1)
    as [H2 L2].
  rewrite bind_eq.
  destruct (mkdir true true (decrypted_dir task) w1) as [[e|[]] w2];
    cbn [fst snd] in H2, L2 |- *; [exists e; split; congruence|].
  destruct (Hstop w2 H2) as [e He]. rewrite bind_eq in He. rewrite bind_eq.
  destruct (read_file (key task) w2) as [[e'|key_bytes] w3].
  - injection He as -> ->. exists e. split; [reflexivity|].
    cbn [snd]. congruence.
  - cbv beta iota zeta in He |- *. rewrite bind_eq, He.
    exists e. split; [reflexivity|]. cbn [snd]. congruence.
Qed.

Lemma read_file_fails (p : string) (w : world) :
  Os.is_file (fs w) p = false -> exists e, read_file p w = (inl e, w).
Proof.
  unfold Os.is_file, read_file, bind, get_fs, raise, ret.
  destruct (Os.lookup (fs w) p) as [[d|]|]; [discriminate|eauto..].
Qed.

Lemma read_file_world (p : string) (w : world) : snd (read_file p w) = w.
Proof.
  unfold read_file, bind, get_fs, raise, ret.
  destruct (Os.lookup (fs w) p) as [[d|]|]; reflexivity.
Qed.

Lemma is_file_new_dir (p : string) (f : Os.filesystem) (q : string) :
  Os.is_file f p = false -> Os.lookup f q = None ->
  Os.is_file (f ++ [(q, Os.Dir)]) p = false.
Proof.
  unfold Os.is_file. intros H _. rewrite lookup_app.
  destruct (Os.lookup f p) as [[d|]|]; try assumption.
  cbn [Os.lookup]. destruct (q =? p)%string; reflexivity.
Qed.

Lemma lookup_new_dir (p : string) (n : Os.node) (f : Os.filesystem)
    (q : string) :
  Os.lookup f p = Some n -> Os.lookup f q = None ->
  Os.lookup (f ++ [(q, Os.Dir)]) p = Some n.
Proof. intros H _. now rewrite lookup_app, H. Qed.

(** What a successful run of ffmpeg leaves. *)
Lemma run_ffmpeg_done (task_file_list output : string) (w w' : world) :
  run_ffmpeg ffmpeg_concat task_file_list output w = (inr tt, w') ->
  exists data,
    ffmpeg_concat (fs w) (ffmpeg_argv task_file_list output) = Some data /\
    w' = World (Os.store output (Os.File data) (fs w))
               (log w ++ [Run (ffmpeg_argv task_file_list output)]).
Proof.
  unfold run_ffmpeg. rewrite bind_eq. unfold emit.
  rewrite bind_eq. unfold get_fs. cbn [fs log].
  destruct (ffmpeg_concat (fs w) _) as [data|]; [|discriminate].
  unfold try_except. rewrite write_file_spec. cbn [fs log].
  intros H. exists data. split; [reflexivity|].
  destruct (Os.lookup (fs w) output) as [[x|]|];
    try destruct (parent_ok (fs w) output);
    try discriminate; now injection H.
Qed.

Lemma create_file_list_path (task : Task) (w w' : world) (list_path : string) :
  create_file_list task w = (inr list_path, w') ->
  list_path = Os.path_join (decrypted_dir task) "filelist.txt".
Proof.
  rewrite create_file_list_spec. cbv zeta.
  destruct (sorted _ _ _) as [e|segments]; [discriminate|].
  destruct (write_file _ _ w) as [[e|[]] w1]; [discriminate|].
  intros H. now injection H.
Qed.

(** A second half of a task that returns has run ffmpeg on the file list
    and stored what it produced as the output file. *)
Lemma from_decrypt_done (task : Task) (x : string * string * list string)
    (w w' : world) (out : string) :
  from_decrypt aes_cbc_decrypt ffmpeg_concat task x w = (inr out, w') ->
  out = output_file task /\
  exists f data,
    ffmpeg_concat f (ffmpeg_argv
                       (Os.path_join (decrypted_dir task) "filelist.txt")
                       (output_file task)) = Some data /\
    fs w' = Os.store (output_file task) (Os.File data) f.
Proof.
  unfold from_decrypt. rewrite bind_eq.
  destruct (decrypt_segments _ _ _ _ _ w) as [[e|[]] w1]; [discriminate|].
  rewrite bind_eq.
  destruct (create_file_list task w1) as [[e|list_path] w2] eqn:Ec;
    [discriminate|].
  apply create_file_list_path in Ec. subst list_path.
  rewrite bind_eq. unfold print, emit. rewrite bind_eq.
  destruct (run_ffmpeg ffmpeg_concat _ _ _) as [[e|[]] w3] eqn:Ef;
    [discriminate|].
  unfold ret. intros H. injection H as <- <-.
  apply run_ffmpeg_done in Ef as (data & Hdata & ->). cbn [fs] in *.
  split; [reflexivity|]. now exists (fs w2), data.
Qed.

(** A task that returns has stored what ffmpeg produced as its output
    file. *)
Lemma process_task_done (task : Task) (w : world) (out : string) :
  fst (run_task task w) = inr out ->
  out = output_file task /\
  exists f data,
    ffmpeg_concat f (ffmpeg_argv
                       (Os.path_join (decrypted_dir task) "filelist.txt")
                       (output_file task)) = Some data /\
    Os.lookup (fs (snd (run_task task w))) (output_file task)
    = Some (Os.File data).
Proof.
  rewrite process_task_spec, process_task_body_split, bind_eq.
  destruct (before_decrypt fetch as_completed task _) as [[e|x] w1];
    [discriminate|].
  destruct (from_decrypt aes_cbc_decrypt ffmpeg_concat task x w1)
    as [[e|o] w2] eqn:E; [discriminate|].
  cbn [fst snd]. intros H. injection H as ->.
  destruct (from_decrypt_done task x w1 w2 out E)
    as (Ho & f & data & Hdata & Hfs).
  split; [exact Ho|]. exists f, data. split; [exact Hdata|].
  rewrite Hfs. apply lookup_store_eq.
Qed.

Lemma create_file_list_done (task : Task) (w w' : world)
    (list_path : string) :
  create_file_list task w = (inr list_path, w') ->
  exists files,
    sorted segment_key Z.ltb (Os.glob (fs w) (decrypted_dir task) ".ts")
    = inr files /\
    list_path = Os.path_join (decrypted_dir task) "filelist.txt" /\
    w' = World (Os.store (Os.path_join (decrypted_dir task) "filelist.txt")
                  (Os.File (String.concat "" (map file_list_line files)))
                  (fs w))
               (log w).
Proof.
  rewrite create_file_list_spec. cbv zeta.
  destruct (sorted _ _ _) as [e|files]; [discriminate|].
  destruct (write_file _ _ w) as [[e|[]] w1] eqn:E; [discriminate|].
  intros H. injection H as <- <-. exists files.
  split; [reflexivity|]. split; [reflexivity|].
  now apply write_file_done in E.
Qed.

(** A task that returns: its first half succeeded, the decryption stage
    succeeded, the [.ts] files of the decrypt directory were sorted and
    listed, ffmpeg ran in the filesystem with that list, and what it
    produced was stored as the output file. *)
Lemma process_task_listed (task : Task) (w : world) (out : string) :
  fst (run_task task w) = inr out ->
  out = output_file task /\
  exists key_hex iv segments w1 w2 files data,
    before_decrypt fetch as_completed task
      (World (fs w) (log w ++ [processing_line task]))
    = (inr (key_hex, iv, segments), w1) /\
    decrypt_segments aes_cbc_decrypt task iv key_hex segments w1
    = (inr tt, w2) /\
    sorted segment_key Z.ltb (Os.glob (fs w2) (decrypted_dir task) ".ts")
    = inr files /\
    ffmpeg_concat
      (Os.store (Os.path_join (decrypted_dir task) "filelist.txt")
         (Os.File (String.concat "" (map file_list_line files))) (fs w2))
      (ffmpeg_argv (Os.path_join (decrypted_dir task) "filelist.txt")
                   (output_file task))
    = Some data /\
    fs (snd (run_task task w))
    = Os.store (output_file task) (Os.File data)
        (Os.store (Os.path_join (decrypted_dir task) "filelist.txt")
           (Os.File (String.concat "" (map file_list_line files))) (fs w2)).
Proof.
  rewrite process_task_spec, process_task_body_split, bind_eq.
  destruct (before_decrypt fetch as_completed task _)
    as [[e|[[key_hex iv] segments]] w1] eqn:Eb; [discriminate|].
  unfold from_decrypt. cbn [fst snd]. rewrite bind_eq.
  destruct (decrypt_segments _ _ _ _ _ w1) as [[e|[]] w2] eqn:Ed;
    [discriminate|].
  rewrite bind_eq.
  destruct (create_file_list task w2) as [[e|list_path] w3] eqn:Ec;
    [discriminate|].
  apply create_file_list_done in Ec as (files & Hs & -> & ->).
  rewrite bind_eq. unfold print, emit. rewrite bind_eq.
  destruct (run_ffmpeg ffmpeg_concat _ _ _) as [[e|[]] w4] eqn:Ef;
    [discriminate|].
  unfold ret. cbn [fst snd]. intros H. injection H as <-.
  apply run_ffmpeg_done in Ef as (data & Hdata & ->). cbn [fs] in *.
  split; [reflexivity|].
  exists key_hex, iv, segments, w1, w2, files, data.
  split; [reflexivity|]. split; [exact Ed|]. split; [exact Hs|].
  split; [exact Hdata | reflexivity].
Qed.

End TaskStages.

Section DecryptStage.

Variable aes_cbc_decrypt : string -> string -> string -> outcome.
Variable task : Task.
Hypothesis task_discovered : discovered task.
Variables iv key_hex : string.

Local Abbreviation src := (segment_path (downloaded_dir task)).
Local Abbreviation dst := (segment_path (decrypted_dir task)).
Local Abbreviation body :=
  (fun i =>
     run_openssl aes_cbc_decrypt
       (Os.path_join (downloaded_dir task) (segment_name i))
       (Os.path_join (decrypted_dir task) (segment_name i)) iv key_hex).

Lemma drop_app (p s : string) : Py.drop (String.length p) (p +++ s) = s.
Proof. induction p as [|c p IH]; [now destruct s | exact IH]. Qed.

Lemma glob_match_segment (dir : string) (i : nat) :
  Os.glob_match dir ".ts" (segment_path dir i) = true.
Proof.
  unfold Os.glob_match, segment_path.
  rewrite <- (append_assoc dir "/").
  unfold Py.startswith at 1. rewrite prefix_app.
  replace (String.length dir + 1) with (String.length (dir +++ "/"))
    by (rewrite length_append; reflexivity).
  rewrite drop_app. cbn [andb].
  rewrite contains_slash, segment_name_avoids_slash.
  unfold segment_name at 3. rewrite <- append_assoc, endswith_app.
  reflexivity.
Qed.

Lemma in_map_fst (f : Os.filesystem) (p : string) (n : Os.node) :
  Os.lookup f p = Some n -> In p (map fst f).
Proof.
  induction f as [|[q m] f IH]; cbn [Os.lookup map fst]; [discriminate|].
  destruct (q =? p)%string eqn:E.
  - apply String.eqb_eq in E. intros _. now left.
  - intros H. right. now apply IH.
Qed.

Lemma store_new (p : string) (n : Os.node) (f : Os.filesystem) :
  Os.lookup f p = None -> Os.store p n f = f ++ [(p, n)].
Proof.
  induction f as [|[q m] f IH]; cbn [Os.lookup Os.store app]; [reflexivity|].
  destruct (q =? p)%string; [discriminate|]. intros H. now rewrite IH.
Qed.

Lemma seq_sorted (a n : nat) : StronglySorted le (seq a n).
Proof.
  revert a. induction n as [|n IH]; intros a; cbn [seq]; constructor;
    [apply IH|].
  apply Forall_forall. intros i Hi. apply in_seq in Hi. lia.
Qed.

(** In a decrypt directory that held the segments before [a] and no other
    [.ts] file, a loop that succeeds leaves the segments before [a + n], in
    the order of their positions. *)
Lemma decrypt_loop_glob (n a : nat) (w : world) :
  fst (for_each (seq a n) body w) = inr tt ->
  Os.glob (fs w) (decrypted_dir task) ".ts" = map dst (seq 0 a) ->
  Os.glob (fs (snd (for_each (seq a n) body w))) (decrypted_dir task) ".ts"
  = map dst (seq 0 (a + n)).
Proof.
  revert a w. induction n as [|n IH]; intros a w Hok Hg.
  - now rewrite Nat.add_0_r.
  - cbn [seq for_each] in Hok |- *. rewrite bind_eq in Hok |- *.
    destruct (decrypt_step_cases aes_cbc_decrypt task task_discovered
                iv key_hex a w)
      as [(data & plain & _ & _ & Hpar & E)|(f' & E & _)];
      cbv zeta beta in E; rewrite E in Hok |- *; [|discriminate].
    replace (a + S n) with (S a + n) by lia.
    apply IH; [exact Hok|]. cbn [fs].
    assert (Hdir : Os.is_dir (fs w) (decrypted_dir task) = true).
    { unfold parent_ok in Hpar. rewrite parent_segment in Hpar.
      apply orb_true_iff in Hpar as [Hpar|Hpar]; [|exact Hpar].
      apply String.eqb_eq in Hpar.
      destruct task_discovered as (b & v & q & k & _ & Ht).
      rewrite Ht, decrypted_dir_make in Hpar. discriminate Hpar. }
    assert (Hnew : Os.lookup (fs w) (dst a) = None).
    { destruct (Os.lookup (fs w) (dst a)) as [x|] eqn:El; [|reflexivity].
      exfalso. apply in_map_fst in El.
      assert (Hin : In (dst a) (Os.glob (fs w) (decrypted_dir task) ".ts")).
      { unfold Os.glob. rewrite Hdir. apply filter_In.
        split; [exact El | apply glob_match_segment]. }
      rewrite Hg in Hin. apply in_map_iff in Hin as (j & Hj & Hin).
      apply segment_path_inj in Hj. apply in_seq in Hin. lia. }
    rewrite (store_new _ _ _ Hnew).
    unfold Os.glob in Hg |- *. rewrite Hdir in Hg.
    replace (Os.is_dir (fs w ++ [(dst a, Os.File plain)]) (decrypted_dir task))
      with true
      by (unfold Os.is_dir in Hdir |- *; rewrite lookup_app;
          destruct (Os.lookup (fs w) (decrypted_dir task)) as [[x|]|];
          (discriminate || reflexivity)).
    rewrite map_app, filter_app, Hg. cbn [map fst filter].
    rewrite glob_match_segment.
    now rewrite (seq_S a 0), map_app.
Qed.

End DecryptStage.

(** * Further properties of the stages of a task *)

(** X8. A task whose key is not a readable file, whose playlist is not a
    readable file, or whose playlist is a file the parser fails on, fails
    before the download stage: it ends with an error having printed its
    opening line and nothing else, so no request is sent and no command is
    run. *)
Theorem unusable_inputs_stop_a_task_early
    (fetch : string -> exn + string)
    (aes_cbc_decrypt : string -> string -> string -> outcome)
    (ffmpeg_concat : Os.filesystem -> list string -> option string)
    (as_completed : list (nat * string) -> list (nat * string))
    (task : Task) (w : world) :
  Os.is_file (fs w) (key task) = false \/
  Os.is_file (fs w) (playlist task) = false \/
  (exists data e,
     Os.lookup (fs w) (playlist task) = Some (Os.File data) /\
     fst (parse_m3u8 (playlist task) w) = inl e) ->
  exists e,
    fst (process_task fetch aes_cbc_decrypt ffmpeg_concat as_completed task w)
    = inl e /\
    log (snd (process_task fetch aes_cbc_decrypt ffmpeg_concat as_completed
                task w))
    = log w ++ [processing_line task].
Proof.
  intros H. rewrite process_task_spec.
  set (w0 := World (fs w) (log w ++ [processing_line task])).
  change (log w ++ [processing_line task]) with (log w0).
  destruct H as [Hk|[Hp|(data & e & Hl & He)]].
  - apply (process_task_body_stops fetch aes_cbc_decrypt ffmpeg_concat
             as_completed (fun f => Os.is_file f (key task) = false));
      [apply is_file_new_dir | | exact Hk].
    intros w' HI. destruct (read_file_fails _ _ HI) as [e E].
    exists e. now rewrite bind_eq, E.
  - apply (process_task_body_stops fetch aes_cbc_decrypt ffmpeg_concat
             as_completed (fun f => Os.is_file f (playlist task) = false));
      [apply is_file_new_dir | | exact Hp].
    intros w' HI. rewrite bind_eq.
    pose proof (read_file_world (key task) w') as Hw.
    destruct (read_file (key task) w') as [[e|key_bytes] w2];
      cbn [snd] in Hw; subst w2; [now exists e|].
    unfold parse_m3u8. rewrite bind_eq.
    destruct (read_file_fails _ _ HI) as [e E]. exists e. now rewrite E.
  - apply (process_task_body_stops fetch aes_cbc_decrypt ffmpeg_concat
             as_completed
             (fun f => Os.lookup f (playlist task) = Some (Os.File data)));
      [intros f q; apply lookup_new_dir | | exact Hl].
    intros w' HI. rewrite bind_eq.
    pose proof (read_file_world (key task) w') as Hw.
    destruct (read_file (key task) w') as [[e'|key_bytes] w2];
      cbn [snd] in Hw; subst w2; [now exists e'|].
    exists e. rewrite (parse_m3u8_reads _ _ _ Hl) in He. cbn [fst] in He.
    now rewrite (parse_m3u8_reads _ _ _ HI), He.
Qed.

Lemma unusable_inputs_stop_a_task_early_witness :
  Os.is_file (fs keyless_world) (key task_2) = false /\
  exists e,
    fst (process_task sample_fetch sample_decrypt sample_ffmpeg last_first
           task_2 keyless_world) = inl e /\
    log (snd (process_task sample_fetch sample_decrypt sample_ffmpeg
                last_first task_2 keyless_world))
    = log keyless_world ++ [processing_line task_2].
Proof.
  assert (Hk : Os.is_file (fs keyless_world) (key task_2) = false)
    by reflexivity.
  split; [exact Hk|].
  exact (unusable_inputs_stop_a_task_early sample_fetch sample_decrypt
           sample_ffmpeg last_first task_2 keyless_world (or_introl Hk)).
Defined.

(** X9. When the decrypt directory holds no [.ts] file before the
    decryption stage and the stage succeeds, the directory then holds
    exactly one decrypted file per segment of the playlist, and the file
    list written from it names [segment0.ts] up to the last segment, each
    once, in playlist order. *)
Theorem clean_decrypt_lists_every_segment
    (aes_cbc_decrypt : string -> string -> string -> outcome)
    (task : Task) (iv key_hex : string) (segments : list string) (w : world) :
  discovered task ->
  Os.glob (fs w) (decrypted_dir task) ".ts" = [] ->
  fst (decrypt_segments aes_cbc_decrypt task iv key_hex segments w) = inr tt ->
  let w1 := snd (decrypt_segments aes_cbc_decrypt task iv key_hex segments w) in
  Os.glob (fs w1) (decrypted_dir task) ".ts"
  = map (segment_path (decrypted_dir task)) (seq 0 (List.length segments)) /\
  forall list_path w2,
    create_file_list task w1 = (inr list_path, w2) ->
    Os.lookup (fs w2) list_path
    = Some (Os.File (String.concat ""
                       (map list_line (seq 0 (List.length segments))))).
Proof.
  intros Hd Hg Hok w1.
  assert (Hglob : Os.glob (fs w1) (decrypted_dir task) ".ts"
                  = map (segment_path (decrypted_dir task))
                        (seq 0 (List.length segments))).
  { exact (decrypt_loop_glob aes_cbc_decrypt task Hd iv key_hex
             (List.length segments) 0 w Hok Hg). }
  split; [exact Hglob|]. intros list_path w2 Hc.
  destruct (create_file_list_sorted _ _ _ _ Hc) as (files & Hs & Hl).
  rewrite Hglob in Hs.
  destruct (sorted_segment_paths (decrypted_dir task)
              (seq 0 (List.length segments))) as (s & HP & HS & Hsorted).
  rewrite Hsorted in Hs. injection Hs as <-.
  rewrite (sorted_perm_unique s _ HS (seq_sorted 0 _) HP) in Hl.
  now rewrite file_list_lines in Hl.
Qed.

Lemma clean_decrypt_lists_every_segment_witness :
  discovered task_2 /\
  Os.glob (fs decrypt_ready_world) (decrypted_dir task_2) ".ts" = [] /\
  fst (decrypt_segments sample_decrypt task_2 "iv" "key" [url_a; url_b]
         decrypt_ready_world) = inr tt /\
  Os.glob
    (fs (snd (decrypt_segments sample_decrypt task_2 "iv" "key"
                [url_a; url_b] decrypt_ready_world)))
    (decrypted_dir task_2) ".ts"
  = map (segment_path (decrypted_dir task_2)) (seq 0 2).
Proof.
  assert (Hg : Os.glob (fs decrypt_ready_world) (decrypted_dir task_2) ".ts"
               = []) by (vm_compute; reflexivity).
  assert (Hok : fst (decrypt_segments sample_decrypt task_2 "iv" "key"
                       [url_a; url_b] decrypt_ready_world) = inr tt)
    by (vm_compute; reflexivity).
  split; [exact task_2_discovered|]. split; [exact Hg|].
  split; [exact Hok|].
  exact (proj1 (clean_decrypt_lists_every_segment sample_decrypt task_2
                  "iv" "key" [url_a; url_b] decrypt_ready_world
                  task_2_discovered Hg Hok)).
Defined.

(** X10. A decryption stage that succeeds has, for every position of the
    playlist, read the downloaded segment of that position and stored its
    AES plain text under the task's key and IV as the decrypted segment of
    the same position.  Failing or not, the stage changes no path other
    than those decrypted segments; the downloads stay as they are. *)
Theorem decrypted_segments_come_from_downloads
    (aes_cbc_decrypt : string -> string -> string -> outcome)
    (task : Task) (iv key_hex : string) (segments : list string) (w : world) :
  discovered task ->
  let after :=
    fs (snd (decrypt_segments aes_cbc_decrypt task iv key_hex segments w)) in
  (forall p,
     (forall i, i < List.length segments ->
                p <> decrypted_dir task +++ "/" +++ segment_name i) ->
     Os.lookup after p = Os.lookup (fs w) p) /\
  (fst (decrypt_segments aes_cbc_decrypt task iv key_hex segments w) = inr tt ->
   forall i, i < List.length segments ->
     exists data plain,
       Os.lookup (fs w) (downloaded_dir task +++ "/" +++ segment_name i)
       = Some (Os.File data) /\
       aes_cbc_decrypt key_hex iv data = Decrypted plain /\
       Os.lookup after (decrypted_dir task +++ "/" +++ segment_name i)
       = Some (Os.File plain)).
Proof.
  intros Hd after. subst after. split.
  - intros p Hp.
    apply (decrypt_loop_frame aes_cbc_decrypt task Hd iv key_hex).
    intros i Hi. apply Hp. lia.
  - intros Hok i Hi.
    apply (decrypt_loop_data aes_cbc_decrypt task Hd iv key_hex
             (List.length segments) 0 w Hok i).
    lia.
Qed.

Lemma decrypted_segments_come_from_downloads_witness :
  discovered task_2 /\
  fst (decrypt_segments sample_decrypt task_2 "iv" "key" [url_a; url_b]
         decrypt_ready_world) = inr tt /\
  1 < List.length [url_a; url_b] /\
  exists data plain,
    Os.lookup (fs decrypt_ready_world)
      (downloaded_dir task_2 +++ "/" +++ segment_name 1)
    = Some (Os.File data) /\
    sample_decrypt "key" "iv" data = Decrypted plain /\
    Os.lookup
      (fs (snd (decrypt_segments sample_decrypt task_2 "iv" "key"
                  [url_a; url_b] decrypt_ready_world)))
      (decrypted_dir task_2 +++ "/" +++ segment_name 1)
    = Some (Os.File plain).
Proof.
  assert (Hok : fst (decrypt_segments sample_decrypt task_2 "iv" "key"
                       [url_a; url_b] decrypt_ready_world) = inr tt)
    by (vm_compute; reflexivity).
  assert (Hi : 1 < List.length [url_a; url_b]) by (simpl; lia).
  split; [exact task_2_discovered|]. split; [exact Hok|]. split; [exact Hi|].
  exact (proj2 (decrypted_segments_come_from_downloads sample_decrypt task_2
                  "iv" "key" [url_a; url_b] decrypt_ready_world
                  task_2_discovered) Hok 1 Hi).
Defined.

(** X11. A task that returns, returns its own output file name, and it
    has gone through its stages: the stages before decryption and the
    decryption stage succeeded; the [.ts] files the decrypt directory then
    held were put in the order of their indices and written, by name, one
    to a line, to [filelist.txt] there; ffmpeg ran with that list in place
    and produced the data that the filesystem the task leaves holds as the
    output file, everything else being as ffmpeg found it.  Success is
    never reported without the output. *)
Theorem finished_task_leaves_its_output
    (fetch : string -> exn + string)
    (aes_cbc_decrypt : string -> string -> string -> outcome)
    (ffmpeg_concat : Os.filesystem -> list string -> option string)
    (as_completed : list (nat * string) -> list (nat * string))
    (task : Task) (w : world) (out : string) :
  fst (process_task fetch aes_cbc_decrypt ffmpeg_concat as_completed task w)
  = inr out ->
  out = output_file task /\
  exists key_hex iv segments w1 w2 files data,
    before_decrypt fetch as_completed task
      (World (fs w)
         (log w ++ [Print (NL +++ "Processing " +++ base_name task +++ " "
                           +++ version task)]))
    = (inr (key_hex, iv, segments), w1) /\
    decrypt_segments aes_cbc_decrypt task iv key_hex segments w1
    = (inr tt, w2) /\
    sorted segment_key Z.ltb (Os.glob (fs w2) (decrypted_dir task) ".ts")
    = inr files /\
    ffmpeg_concat
      (Os.store (Os.path_join (decrypted_dir task) "filelist.txt")
         (Os.File
            (String.concat ""
               (map (fun seg => "file '" +++ Os.basename seg +++ "'" +++ NL)
                    files)))
         (fs w2))
      ["ffmpeg"; "-hide_banner"; "-loglevel"; "error"; "-f"; "concat";
       "-safe"; "0"; "-i"; Os.path_join (decrypted_dir task) "filelist.txt";
       "-c"; "copy"; output_file task]
    = Some data /\
    fs (snd (process_task fetch aes_cbc_decrypt ffmpeg_concat as_completed
               task w))
    = Os.store (output_file task) (Os.File data)
        (Os.store (Os.path_join (decrypted_dir task) "filelist.txt")
           (Os.File
              (String.concat ""
                 (map (fun seg => "file '" +++ Os.basename seg +++ "'" +++ NL)
                      files)))
           (fs w2)) /\
    Os.lookup
      (fs (snd (process_task fetch aes_cbc_decrypt ffmpeg_concat as_completed
                  task w)))
      (output_file task)
    = Some (Os.File data).
Proof.
  intros H.
  destruct (process_task_listed fetch aes_cbc_decrypt ffmpeg_concat
              as_completed task w out H)
    as (Ho & key_hex & iv & segments & w1 & w2 & files & data
        & Hb & Hd & Hs & Hf & Hfs).
  split; [exact Ho|].
  exists key_hex, iv, segments, w1, w2, files, data.
  repeat (split; [assumption|]).
  rewrite Hfs. apply lookup_store_eq.
Qed.

Lemma finished_task_leaves_its_output_witness :
  fst (process_task sample_fetch sample_decrypt list_reader last_first
         task_2 two_tasks_world) = inr "a 2.0.mp4" /\
  "a 2.0.mp4" = output_file task_2 /\
  Os.lookup
    (fs (snd (process_task sample_fetch sample_decrypt list_reader
                last_first task_2 two_tasks_world)))
    "a 2.0.mp4"
  = Some (Os.File ("file 'segment0.ts'" +++ NL
                   +++ "file 'segment1.ts'" +++ NL)).
Proof.
  assert (Hr : fst (process_task sample_fetch sample_decrypt list_reader
                      last_first task_2 two_tasks_world) = inr "a 2.0.mp4")
    by (vm_compute; reflexivity).
  split; [exact Hr|].
  split;
    [exact (proj1 (finished_task_leaves_its_output sample_fetch
                     sample_decrypt list_reader last_first task_2
                     two_tasks_world "a 2.0.mp4" Hr))
    |vm_compute; reflexivity].
Defined.

(** * More on a whole run *)

Section RunFacts.

Variable fetch : string -> exn + string.
Variable aes_cbc_decrypt : string -> string -> string -> outcome.
Variable ffmpeg_concat : Os.filesystem -> list string -> option string.
Variable as_completed : list (nat * string) -> list (nat * string).
Variable resolve : string -> string.
Variable size_mb : Os.node -> string.

Local Abbreviation run_task :=
  (process_task fetch aes_cbc_decrypt ffmpeg_concat as_completed).
Local Abbreviation run_tasks :=
  (process_tasks fetch aes_cbc_decrypt ffmpeg_concat as_completed).
Local Abbreviation run_main_body :=
  (main_body fetch aes_cbc_decrypt ffmpeg_concat as_completed resolve size_mb).
Local Abbreviation run_main :=
  (main fetch aes_cbc_decrypt ffmpeg_concat as_completed resolve size_mb).

Section Keeps.

Variable I : Os.filesystem -> Prop.
Hypothesis I_new_dir :
  forall f p, I f -> Os.lookup f p = None -> I (f ++ [(p, Os.Dir)]).

Lemma task_keeps (task : Task) :
  (forall p d f, task_writes task p -> I f -> I (Os.store p (Os.File d) f)) ->
  respects I any_event (run_task task).
Proof.
  intros Hw. unfold process_task.
  apply respects_bind; [now apply respects_emit|]. intros _.
  apply respects_try_finally; [|apply respects_ret].
  apply respects_process_task_body; [exact I_new_dir | exact Hw|].
  intros e _. exact Logic.I.
Qed.

Lemma tasks_keep (tasks : list Task) (output_files : list string) :
  (forall task p d f,
     In task tasks -> task_writes task p -> I f ->
     I (Os.store p (Os.File d) f)) ->
  respects I any_event (run_tasks tasks output_files).
Proof.
  revert output_files. induction tasks as [|task rest IH];
    intros output_files Hw; cbn [process_tasks].
  - apply respects_ret.
  - apply respects_bind;
      [|intros out; apply IH; intros t p d f Ht; apply Hw; now right].
    apply respects_try_except.
    + apply respects_bind; [|intros o; apply respects_ret].
      apply task_keeps. intros p d f. apply Hw. now left.
    + intros e. apply respects_bind; [now apply respects_emit|].
      intros _. apply respects_ret.
Qed.

End Keeps.

(** The output name of a task found in the input directory has no
    slash. *)
Lemma output_name_no_slash (b v : string) :
  avoids "/" b = true -> dotted_version v ->
  avoids "/" (b +++ " " +++ v +++ ".mp4") = true.
Proof.
  intros Hb Hv. rewrite !avoids_app, Hb.
  now rewrite (dotted_version_avoids "/" v eq_refl eq_refl Hv).
Qed.

(** A found task writes in the workspace and to its output file only. *)
Lemma found_writes (task : Task) (q : string) :
  found task -> task_writes task q ->
  Py.startswith "processing/" q = true \/
  exists b v,
    avoids "/" b = true /\ dotted_version v /\ q = b +++ " " +++ v +++ ".mp4".
Proof.
  intros Hf Hw. pose proof (found_discovered task Hf) as Hd.
  destruct Hw as [[i ->]|[[i ->]|[->| ->]]].
  - left. rewrite (download_path task i Hd).
    destruct Hf as (b & v & p & k & _ & _ & ->). reflexivity.
  - left. rewrite (decrypt_path task i Hd).
    destruct Hf as (b & v & p & k & _ & _ & ->). reflexivity.
  - left. destruct Hf as (b & v & p & k & Hv & _ & ->).
    rewrite decrypted_dir_make, join_in_workspace by (auto || reflexivity).
    reflexivity.
  - right. destruct Hf as (b & v & p & k & Hv & Hb & ->). now exists b, v.
Qed.

Lemma lookup_cleaned (f : Os.filesystem) (p : string) :
  p <> base_dir -> Py.startswith "processing/" p = false ->
  Os.lookup (cleaned f) p = Os.lookup f p.
Proof.
  intros H1 H2. unfold cleaned.
  destruct (Os.path_exists f base_dir); [|reflexivity].
  apply lookup_rmtree_other; [now apply String.eqb_neq | exact H2].
Qed.

(** An entry that is neither in the workspace nor named like an output
    file is still there, unchanged, when [main] ends. *)
Lemma main_keeps_entry (w : world) (p : string) (n : Os.node) :
  p <> base_dir -> Py.startswith "processing/" p = false ->
  (forall b v, avoids "/" b = true -> dotted_version v ->
               p <> b +++ " " +++ v +++ ".mp4") ->
  Os.lookup (fs w) p = Some n ->
  Os.lookup (fs (snd (run_main w))) p = Some n.
Proof.
  intros H1 H2 H3 Hl. rewrite main_spec. cbn [snd fs].
  rewrite (lookup_cleaned _ p H1 H2). rewrite main_body_spec.
  destruct (negb (Os.path_exists (fs w) input_dir)); [exact Hl|].
  set (I := fun f => Os.lookup f p = Some n).
  assert (Inew : forall f q, I f -> Os.lookup f q = None ->
                             I (f ++ [(q, Os.Dir)])).
  { intros f q Hf _. unfold I in *. now rewrite lookup_app, Hf. }
  assert (I1 : I (Os.rmtree base_dir (fs w))).
  { unfold I. rewrite lookup_rmtree_other;
      [exact Hl | now apply String.eqb_neq | exact H2]. }
  destruct (respects_mkdir I any_event Inew false true base_dir
              (World (Os.rmtree base_dir (fs w)) (log w)) I1) as [I2 _].
  destruct (mkdir false true base_dir _) as [[e|[]] w2]; [exact I2|].
  cbn [snd] in I2.
  pose proof (find_tasks_fs w2) as Hfs.
  pose proof (find_tasks_found w2) as Hfound.
  destruct (find_tasks w2) as [[e|tasks] w3]; cbn [fst snd] in *;
    rewrite <- Hfs in I2; [exact I2|].
  destruct tasks as [|task rest]; [exact I2|].
  specialize (Hfound _ eq_refl). rewrite Forall_forall in Hfound.
  assert (Iw : forall t q d f,
             In t (task :: rest) -> task_writes t q -> I f ->
             I (Os.store q (Os.File d) f)).
  { intros t q d f Ht Hq Hf. unfold I in *.
    rewrite lookup_store_neq; [exact Hf|]. intros ->.
    destruct (found_writes t p (Hfound t Ht) Hq) as [H|(b & v & Hb & Hv & H)].
    - congruence.
    - exact (H3 b v Hb Hv H). }
  destruct (tasks_keep I Inew (task :: rest) [] Iw w3 I2) as [I3 _].
  destruct (run_tasks (task :: rest) [] w3) as [[e|output_files] w4];
    [exact I3|]. cbn [snd] in I3.
  destruct (report_spec resolve size_mb output_files w4) as (d & -> & _).
  exact I3.
Qed.

Lemma input_path_shape (name : string) :
  "inputfiles/" +++ name <> base_dir /\
  Py.startswith "processing/" ("inputfiles/" +++ name) = false /\
  avoids "/" ("inputfiles/" +++ name) = false.
Proof. repeat split. discriminate. Qed.

(** *** The loop over the tasks *)

Lemma is_file_store (p q d : string) (f : Os.filesystem) :
  Os.is_file f q = true -> Os.is_file (Os.store p (Os.File d) f) q = true.
Proof.
  unfold Os.is_file. destruct (string_dec p q) as [->|Hne].
  - now rewrite lookup_store_eq.
  - now rewrite lookup_store_neq.
Qed.

Lemma is_file_kept_new_dir (o : string) (f : Os.filesystem) (q : string) :
  Os.is_file f o = true -> Os.lookup f q = None ->
  Os.is_file (f ++ [(q, Os.Dir)]) o = true.
Proof.
  unfold Os.is_file. intros H _. rewrite lookup_app.
  destruct (Os.lookup f o) as [[d|]|]; (reflexivity || discriminate).
Qed.

(** A file is still a file after a task, whatever the task does. *)
Lemma task_keeps_file (task : Task) (w : world) (o : string) :
  Os.is_file (fs w) o = true ->
  Os.is_file (fs (snd (run_task task w))) o = true.
Proof.
  intros H.
  apply (task_keeps (fun f => Os.is_file f o = true)
           (is_file_kept_new_dir o) task); [|exact H].
  intros p d f _. apply is_file_store.
Qed.

(** The output files the loop returns are all there when it ends. *)
Lemma tasks_outputs_exist (tasks : list Task) (output_files : list string)
    (w : world) (outs : list string) :
  Forall (fun o => Os.is_file (fs w) o = true) output_files ->
  fst (run_tasks tasks output_files w) = inr outs ->
  Forall (fun o => Os.is_file (fs (snd (run_tasks tasks output_files w))) o
                   = true) outs.
Proof.
  revert output_files w. induction tasks as [|task rest IH];
    intros output_files w Hfiles.
  - cbn. intros H. injection H as <-. exact Hfiles.
  - rewrite process_tasks_cons.
    assert (Hkept : Forall (fun o => Os.is_file (fs (snd (run_task task w))) o
                                     = true) output_files).
    { eapply Forall_impl; [|exact Hfiles].
      intros o. apply task_keeps_file. }
    pose proof (process_task_done fetch aes_cbc_decrypt ffmpeg_concat
                  as_completed task w) as Hdone.
    destruct (run_task task w) as [[e|o] w1]; cbn [fst snd] in *.
    + apply IH. exact Hkept.
    + apply IH. apply Forall_app. split; [exact Hkept|].
      constructor; [|constructor].
      destruct (Hdone o eq_refl) as (-> & f & data & _ & Hl).
      unfold Os.is_file. now rewrite Hl.
Qed.

(** The report has one line for every file of its list that exists. *)
Lemma report_all_files (output_files : list string) (f : Os.filesystem) :
  Forall (fun o => Os.is_file f o = true) output_files ->
  forall l,
  exists d,
    for_each output_files (report_line resolve size_mb) (World f l)
    = (inr tt, World f (l ++ d)) /\
    Forall2 (fun o e =>
               exists data,
                 Os.lookup f o = Some (Os.File data) /\
                 e = created_line resolve size_mb o data)
            output_files d.
Proof.
  induction 1 as [|o rest Ho _ IH]; intros l.
  - exists []. cbn. rewrite app_nil_r. split; [reflexivity | constructor].
  - unfold Os.is_file in Ho.
    destruct (Os.lookup f o) as [[data|]|] eqn:El; try discriminate.
    destruct (IH (l ++ [created_line resolve size_mb o data]))
      as (d & Hd & Hall).
    exists (created_line resolve size_mb o data :: d).
    cbn [for_each]. rewrite bind_eq.
    unfold report_line at 1. rewrite bind_eq. unfold get_fs.
    cbn [fs]. rewrite El. unfold print, emit. cbn [fs log].
    fold (created_line resolve size_mb o data).
    rewrite Hd, <- app_assoc. split; [reflexivity|].
    constructor; [now exists data | exact Hall].
Qed.

(** *** Counting outcomes *)

Lemma inner_not_failed (e : event) : inner e -> is_failed e = false.
Proof.
  unfold inner, is_failed.
  destruct (printed e); [intros [_ H]; exact H | reflexivity].
Qed.

Lemma filter_failed_inner (d : list event) :
  Forall inner d -> filter is_failed d = [].
Proof.
  induction 1 as [|e d He _ IH]; [reflexivity|].
  cbn [filter]. now rewrite (inner_not_failed e He).
Qed.

Lemma failure_record_is_failed (task : Task) (e : exn) :
  is_failed (failure_record task e) = true.
Proof.
  exact (prefix_app "Failed to process "
           (base_name task +++ " " +++ version task +++ ": ")).
Qed.

(** Every task either adds its output file to the list or has its failure
    printed, never both and never neither. *)
Lemma tasks_accounted (tasks : list Task) (output_files : list string)
    (w : world) :
  exists outs d,
    fst (run_tasks tasks output_files w) = inr outs /\
    log (snd (run_tasks tasks output_files w)) = log w ++ d /\
    List.length outs + List.length (filter is_failed d)
    = List.length output_files + List.length tasks /\
    (forall o, In o outs ->
       In o output_files \/ exists task, In task tasks /\ o = output_file task).
Proof.
  revert output_files w. induction tasks as [|task rest IH];
    intros output_files w.
  - exists output_files, []. cbn [process_tasks ret fst snd].
    rewrite app_nil_r. split; [reflexivity|]. split; [reflexivity|].
    cbn [filter List.length]. split; [lia | auto].
  - rewrite process_tasks_cons.
    destruct (process_task_log fetch aes_cbc_decrypt ffmpeg_concat
                as_completed task w) as (d0 & Hl0 & Hd0).
    pose proof (process_task_done fetch aes_cbc_decrypt ffmpeg_concat
                  as_completed task w) as Hdone.
    destruct (run_task task w) as [[e|o] w1]; cbn [fst snd] in *.
    + destruct (IH output_files
                  (World (fs w1) (log w1 ++ [failure_record task e])))
        as (outs & d & Hr & Hl & Hc & Hin).
      exists outs, ((processing_line task :: d0)
                    ++ failure_record task e :: d).
      split; [exact Hr|]. split.
      { rewrite Hl. cbn [log]. rewrite Hl0, <- !app_assoc. reflexivity. }
      split.
      { rewrite filter_app. cbn [filter].
        change (is_failed (processing_line task)) with false. cbv iota.
        rewrite (filter_failed_inner d0 Hd0), failure_record_is_failed.
        cbn [app List.length]. lia. }
      intros o Ho. destruct (Hin o Ho) as [H|(t & Ht & ->)]; [now left|].
      right. exists t. split; [now right | reflexivity].
    + destruct (IH (output_files ++ [o]) w1)
        as (outs & d & Hr & Hl & Hc & Hin).
      exists outs, ((processing_line task :: d0) ++ d).
      split; [exact Hr|]. split.
      { rewrite Hl, Hl0, <- !app_assoc. reflexivity. }
      split.
      { rewrite filter_app. cbn [filter].
        change (is_failed (processing_line task)) with false. cbv iota.
        rewrite (filter_failed_inner d0 Hd0).
        rewrite length_app in Hc. cbn [app List.length] in Hc |- *. lia. }
      intros o' Ho. destruct (Hin o' Ho) as [H|(t & Ht & ->)].
      * apply in_app_or in H as [H|[<-|[]]]; [now left|].
        right. exists task. split; [now left|].
        exact (proj1 (Hdone o eq_refl)).
      * right. exists t. split; [now right | reflexivity].
Qed.

(** *** No task at all *)

Lemma all_bad_names (paths : list string) :
  forallb bad_name paths = true ->
  tasks_of paths = [] /\ filter bad_name paths = paths.
Proof.
  induction paths as [|p r IH]; [auto|].
  cbn [forallb tasks_of filter]. intros H.
  apply andb_prop in H as [Hp Hr]. rewrite Hp.
  unfold bad_name in Hp.
  destruct (re_match (Os.basename p)) as [[b v]|]; [discriminate|].
  destruct (IH Hr) as [-> ->]. auto.
Qed.

(** With no playlist that follows the naming pattern, [main] prints one
    warning per playlist and raises its error for an empty task list. *)
Lemma main_no_task (w : world) :
  Os.path_exists (fs w) input_dir = true ->
  workspace_free (fs w) ->
  forallb bad_name (Os.glob (fs w) input_dir ".m3u8") = true ->
  run_main w
  = (inl (ValueError "No valid playlist/key pairs found in inputfiles"),
     World (cleaned (reset (fs w)))
           (log w ++ map skip_warning (Os.glob (fs w) input_dir ".m3u8")
                  ++ cleanup_lines)).
Proof.
  intros Hin Hfree Hbad. rewrite main_spec, main_body_spec, Hin.
  cbn [negb]. rewrite (mkdir_base _ _ (reset_workspace_free _ Hfree)).
  fold (reset (fs w)).
  destruct (all_bad_names _ Hbad) as [Hnone Hall].
  destruct (find_tasks_cases (World (reset (fs w)) (log w)))
    as [(_ & tasks & E & HP & _)
       |(pre & q & post & b & v & Hsplit & _ & _ & Hm & _)];
    cbn [fs log] in *; rewrite glob_reset in *.
  - rewrite Hnone in HP. apply Permutation_sym, Permutation_nil in HP.
    subst tasks.
    rewrite E, Hall. cbn [fst snd fs log].
    now rewrite <- app_assoc.
  - exfalso. rewrite forallb_forall in Hbad.
    assert (Hq : In q (Os.glob (fs w) input_dir ".m3u8"))
      by (rewrite Hsplit; apply in_or_app; right; now left).
    specialize (Hbad q Hq). unfold bad_name in Hbad.
    now rewrite Hm in Hbad.
Qed.

End RunFacts.

(** * Further properties of a whole run *)

(** X12. A run changes and removes nothing outside its workspace except
    output files: an entry whose path is not [processing], does not lie
    under [processing/] and is not named like the output file of a task
    is still there, unchanged, when [main] ends, however [main] ends.  In
    particular everything in the input directory, playlists and keys, is
    left as it was. *)
Theorem main_keeps_everything_else
    (fetch : string -> exn + string)
    (aes_cbc_decrypt : string -> string -> string -> outcome)
    (ffmpeg_concat : Os.filesystem -> list string -> option string)
    (as_completed : list (nat * string) -> list (nat * string))
    (resolve : string -> string) (size_mb : Os.node -> string) (w : world) :
  let after :=
    fs (snd (main fetch aes_cbc_decrypt ffmpeg_concat as_completed
               resolve size_mb w)) in
  (forall p n,
     p <> "processing" -> Py.startswith "processing/" p = false ->
     (forall b v, avoids "/" b = true -> dotted_version v ->
                  p <> b +++ " " +++ v +++ ".mp4") ->
     Os.lookup (fs w) p = Some n -> Os.lookup after p = Some n) /\
  (forall name n,
     Os.lookup (fs w) ("inputfiles/" +++ name) = Some n ->
     Os.lookup after ("inputfiles/" +++ name) = Some n).
Proof.
  intros after. subst after. split.
  - intros p n H1 H2 H3 Hl. now apply main_keeps_entry.
  - intros name n Hl.
    destruct (input_path_shape name) as (H1 & H2 & H3).
    apply main_keeps_entry; auto.
    intros b v Hb Hv H. rewrite H, (output_name_no_slash b v Hb Hv) in H3.
    discriminate H3.
Qed.

Lemma main_keeps_everything_else_witness :
  Os.lookup (fs sample_world) ("inputfiles/" +++ "a1.0.bin")
  = Some (Os.File "K") /\
  Os.lookup
    (fs (snd (main sample_fetch sample_decrypt sample_ffmpeg last_first
                sample_resolve sample_size sample_world)))
    ("inputfiles/" +++ "a1.0.bin")
  = Some (Os.File "K").
Proof.
  assert (Hl : Os.lookup (fs sample_world) ("inputfiles/" +++ "a1.0.bin")
               = Some (Os.File "K")) by reflexivity.
  split; [exact Hl|].
  exact (proj2 (main_keeps_everything_else sample_fetch sample_decrypt
                  sample_ffmpeg last_first sample_resolve sample_size
                  sample_world) "a1.0.bin" (Os.File "K") Hl).
Defined.

(** X13. When the input directory holds no playlist that follows the
    naming pattern, [main] prints one warning per playlist, in the order
    of the directory, raises [ValueError] with the message for an empty
    task list, and cleans up; no task is started. *)
Theorem no_matching_playlist_is_an_error
    (fetch : string -> exn + string)
    (aes_cbc_decrypt : string -> string -> string -> outcome)
    (ffmpeg_concat : Os.filesystem -> list string -> option string)
    (as_completed : list (nat * string) -> list (nat * string))
    (resolve : string -> string) (size_mb : Os.node -> string) (w : world) :
  Os.path_exists (fs w) input_dir = true ->
  workspace_free (fs w) ->
  forallb bad_name (Os.glob (fs w) input_dir ".m3u8") = true ->
  main fetch aes_cbc_decrypt ffmpeg_concat as_completed resolve size_mb w
  = (inl (ValueError "No valid playlist/key pairs found in inputfiles"),
     World (cleaned (reset (fs w)))
           (log w ++ map skip_warning (Os.glob (fs w) input_dir ".m3u8")
                  ++ cleanup_lines)).
Proof. apply main_no_task. Qed.

Lemma no_matching_playlist_is_an_error_witness :
  Os.path_exists (fs no_task_world) input_dir = true /\
  workspace_free (fs no_task_world) /\
  forallb bad_name (Os.glob (fs no_task_world) input_dir ".m3u8") = true /\
  main sample_fetch sample_decrypt sample_ffmpeg last_first sample_resolve
    sample_size no_task_world
  = (inl (ValueError "No valid playlist/key pairs found in inputfiles"),
     World (cleaned (reset (fs no_task_world)))
           (log no_task_world
            ++ map skip_warning (Os.glob (fs no_task_world) input_dir ".m3u8")
            ++ cleanup_lines)).
Proof.
  assert (Hin : Os.path_exists (fs no_task_world) input_dir = true)
    by reflexivity.
  assert (Hfree : workspace_free (fs no_task_world)) by reflexivity.
  assert (Hbad : forallb bad_name
                   (Os.glob (fs no_task_world) input_dir ".m3u8") = true)
    by (vm_compute; reflexivity).
  split; [exact Hin|]. split; [exact Hfree|]. split; [exact Hbad|].
  exact (no_matching_playlist_is_an_error sample_fetch sample_decrypt
           sample_ffmpeg last_first sample_resolve sample_size no_task_world
           Hin Hfree Hbad).
Defined.

(** X14. The loop over the tasks accounts for every task exactly once:
    the number of output files it returns plus the number of failure
    lines it prints is the number of tasks, and every output file it
    returns is the output file of one of the tasks. *)
Theorem every_task_succeeds_or_is_reported
    (fetch : string -> exn + string)
    (aes_cbc_decrypt : string -> string -> string -> outcome)
    (ffmpeg_concat : Os.filesystem -> list string -> option string)
    (as_completed : list (nat * string) -> list (nat * string))
    (tasks : list Task) (w : world) :
  exists outs d,
    fst (process_tasks fetch aes_cbc_decrypt ffmpeg_concat as_completed
           tasks [] w) = inr outs /\
    log (snd (process_tasks fetch aes_cbc_decrypt ffmpeg_concat as_completed
                tasks [] w)) = log w ++ d /\
    List.length outs + List.length (filter is_failed d) = List.length tasks /\
    (forall o, In o outs -> exists task, In task tasks /\ o = output_file task).
Proof.
  destruct (tasks_accounted fetch aes_cbc_decrypt ffmpeg_concat as_completed
              tasks [] w) as (outs & d & Hr & Hl & Hc & Hin).
  exists outs, d. split; [exact Hr|]. split; [exact Hl|]. split; [exact Hc|].
  intros o Ho. destruct (Hin o Ho) as [[]|H]. exact H.
Qed.

Lemma every_task_succeeds_or_is_reported_witness :
  exists outs d,
    fst (process_tasks sample_fetch sample_decrypt sample_ffmpeg last_first
           [task_1; task_2] [] two_tasks_world) = inr outs /\
    log (snd (process_tasks sample_fetch sample_decrypt sample_ffmpeg
                last_first [task_1; task_2] [] two_tasks_world))
    = log two_tasks_world ++ d /\
    List.length outs + List.length (filter is_failed d)
    = List.length [task_1; task_2] /\
    (forall o, In o outs ->
       exists task, In task [task_1; task_2] /\ o = output_file task).
Proof.
  exact (every_task_succeeds_or_is_reported sample_fetch sample_decrypt
           sample_ffmpeg last_first [task_1; task_2] two_tasks_world).
Defined.

(** X15. Every output file the loop over the tasks returns still exists
    when the report is printed, whatever the later tasks did, so the
    report has one line for each of them, in the order of the tasks: a
    task that succeeded is never left out of the report. *)
Theorem report_lists_every_output
    (fetch : string -> exn + string)
    (aes_cbc_decrypt : string -> string -> string -> outcome)
    (ffmpeg_concat : Os.filesystem -> list string -> option string)
    (as_completed : list (nat * string) -> list (nat * string))
    (resolve : string -> string) (size_mb : Os.node -> string)
    (tasks : list Task) (w : world) (outs : list string) :
  fst (process_tasks fetch aes_cbc_decrypt ffmpeg_concat as_completed
         tasks [] w) = inr outs ->
  let w1 := snd (process_tasks fetch aes_cbc_decrypt ffmpeg_concat
                   as_completed tasks [] w) in
  exists d,
    report resolve size_mb outs w1
    = (inr tt,
       World (fs w1)
             (log w1 ++ Print (NL +++ "Successfully created files:") :: d)) /\
    Forall2 (fun o e =>
               exists data,
                 Os.lookup (fs w1) o = Some (Os.File data) /\
                 e = created_line resolve size_mb o data)
            outs d.
Proof.
  intros Hr w1.
  pose proof (tasks_outputs_exist fetch aes_cbc_decrypt ffmpeg_concat
                as_completed tasks [] w outs (Forall_nil _) Hr) as Hfiles.
  fold w1 in Hfiles.
  destruct (report_all_files resolve size_mb outs (fs w1) Hfiles
              (log w1 ++ [Print (NL +++ "Successfully created files:")]))
    as (d & Hd & Hall).
  exists d. split; [|exact Hall].
  rewrite report_loop, bind_eq. unfold print, emit.
  rewrite Hd, <- app_assoc. reflexivity.
Qed.

Lemma report_lists_every_output_witness :
  fst (process_tasks sample_fetch sample_decrypt sample_ffmpeg last_first
         [task_1; task_2] [] two_tasks_world) = inr ["a 2.0.mp4"] /\
  exists d,
    report sample_resolve sample_size ["a 2.0.mp4"]
      (snd (process_tasks sample_fetch sample_decrypt sample_ffmpeg
              last_first [task_1; task_2] [] two_tasks_world))
    = (inr tt,
       World (fs (snd (process_tasks sample_fetch sample_decrypt
                         sample_ffmpeg last_first [task_1; task_2] []
                         two_tasks_world)))
             (log (snd (process_tasks sample_fetch sample_decrypt
                          sample_ffmpeg last_first [task_1; task_2] []
                          two_tasks_world))
              ++ Print (NL +++ "Successfully created files:") :: d)) /\
    Forall2 (fun o e =>
               exists data,
                 Os.lookup
                   (fs (snd (process_tasks sample_fetch sample_decrypt
                               sample_ffmpeg last_first [task_1; task_2] []
                               two_tasks_world))) o
                 = Some (Os.File data) /\
                 e = created_line sample_resolve sample_size o data)
            ["a 2.0.mp4"] d.
Proof.
  assert (Hr : fst (process_tasks sample_fetch sample_decrypt sample_ffmpeg
                      last_first [task_1; task_2] [] two_tasks_world)
               = inr ["a 2.0.mp4"]) by (vm_compute; reflexivity).
  split; [exact Hr|].
  exact (report_lists_every_output sample_fetch sample_decrypt sample_ffmpeg
           last_first sample_resolve sample_size [task_1; task_2]
           two_tasks_world ["a 2.0.mp4"] Hr).
Defined.

(** * The trace of a task, and the workspace a run starts from *)

Section TraceFacts.

Variable fetch : string -> exn + string.
Variable aes_cbc_decrypt : string -> string -> string -> outcome.
Variable ffmpeg_concat : Os.filesystem -> list string -> option string.
Variable as_completed : list (nat * string) -> list (nat * string).
Hypothesis as_completed_perm : forall l, Permutation (as_completed l) l.
Variable task : Task.
Hypothesis task_discovered : discovered task.

(** The download loop prints and sends requests; it runs no command. *)
Lemma download_loop_trace (futures : list (nat * string)) (w : world) :
  exists d,
    for_each futures (download_step fetch task) w
    = (inr tt,
       World (fs (snd (for_each futures (download_step fetch task) w)))
             (log w ++ d)) /\
    filter is_get d = map (fun future => HttpGet (snd future)) futures /\
    filter is_run d = [].
Proof.
  revert w. induction futures as [|[i url] futures IH]; intros w.
  - exists []. cbn. rewrite app_nil_r. now destruct w.
  - cbn [for_each]. rewrite bind_eq.
    destruct (download_step_cases fetch task task_discovered i url w)
      as (f' & errs & E & Hg & _).
    assert (Hr : filter is_run errs = []).
    { pose proof (download_step_spec fetch task task_discovered i url w) as Hs.
      cbv zeta in Hs. rewrite E in Hs.
      destruct (fetch url) as [e|content];
        [|destruct (Os.lookup (fs w) _) as [[x|]|];
          try destruct (parent_ok (fs w) _)];
        injection Hs as _ Hs; apply app_inv_head in Hs;
        injection Hs as ->; reflexivity. }
    rewrite E.
    destruct (IH (World f' (log w ++ HttpGet url :: errs)))
      as (d & Hd & Hget & Hrun).
    exists ((HttpGet url :: errs) ++ d).
    rewrite Hd at 1. cbn [fs log snd]. rewrite <- app_assoc.
    split; [reflexivity|].
    rewrite !filter_app. cbn [filter is_get is_run map snd].
    now rewrite Hg, Hget, Hr, Hrun.
Qed.

Lemma parse_m3u8_world (p : string) (w : world) : snd (parse_m3u8 p w) = w.
Proof.
  unfold parse_m3u8. rewrite bind_eq.
  pose proof (read_file_world p w) as H.
  destruct (read_file p w) as [[e|text] w1]; cbn [snd] in H; subst w1;
    [reflexivity|].
  destruct (Py.decode text) as [seen|t]; [|reflexivity].
  rewrite bind_eq. unfold lift, raise.
  destruct (scan_lines None [] seen); reflexivity.
Qed.

Lemma mkdir_log (parents exist_ok : bool) (p : string) (w : world) :
  log (snd (mkdir parents exist_ok p w)) = log w.
Proof.
  exact (proj2 (mkdir_quiet (fun _ => True) parents exist_ok p w
                  (fun _ _ _ _ => Logic.I) Logic.I)).
Qed.

(** Making a directory puts no regular file anywhere. *)
Lemma mkdir_no_new_file (parents exist_ok : bool) (p q d : string)
    (w : world) :
  Os.lookup (fs (snd (mkdir parents exist_ok p w))) q = Some (Os.File d) ->
  Os.lookup (fs w) q = Some (Os.File d).
Proof.
  refine (proj1 (mkdir_quiet
                   (fun f => Os.lookup f q = Some (Os.File d) ->
                             Os.lookup (fs w) q = Some (Os.File d))
                   parents exist_ok p w _ _)).
  - intros f r Hf _ H. apply Hf. rewrite lookup_app in H.
    destruct (Os.lookup f q) as [n|]; [exact H|].
    cbn [Os.lookup] in H. destruct (r =? q)%string; discriminate H.
  - exact (fun H => H).
Qed.

Lemma read_file_done (p d : string) (w w' : world) :
  read_file p w = (inr d, w') -> Os.lookup (fs w) p = Some (Os.File d).
Proof.
  unfold read_file, bind, get_fs, raise, ret.
  destruct (Os.lookup (fs w) p) as [[x|]|]; try discriminate.
  intros H. now injection H as ->.
Qed.

Lemma parse_m3u8_done (p : string) (w w' : world)
    (parsed : string * list string) :
  parse_m3u8 p w = (inr parsed, w') ->
  exists text,
    Os.lookup (fs w) p = Some (Os.File text) /\
    utf8_valid text = true /\
    parse_text p text = inr parsed.
Proof.
  intros H.
  assert (Hl : exists text, Os.lookup (fs w) p = Some (Os.File text)).
  { revert H. unfold parse_m3u8. rewrite bind_eq.
    destruct (read_file p w) as [[e|text] w1] eqn:E; [discriminate|].
    apply read_file_done in E. eauto. }
  destruct Hl as [text Hl]. exists text. split; [exact Hl|].
  destruct parsed as [iv segments].
  apply (parse_m3u8_success p text iv segments w Hl). now rewrite H.
Qed.

(** The first half of a task that returns has read the key file and the
    playlist, printed the two stage lines and, between them, sent one
    request per segment. *)
Lemma before_decrypt_trace (w w1 : world) (key_hex iv : string)
    (segments : list string) :
  before_decrypt fetch as_completed task w
  = (inr (key_hex, iv, segments), w1) ->
  (exists key_bytes text,
     Os.lookup (fs w) (key task) = Some (Os.File key_bytes) /\
     key_hex = Py.hex key_bytes /\
     Os.lookup (fs w) (playlist task) = Some (Os.File text) /\
     utf8_valid text = true /\
     parse_text (playlist task) text = inr (iv, segments)) /\
  exists dl,
    log w1
    = log w
      ++ Print ("Downloading " +++ Py.str (List.length segments)
                +++ " segments...")
      :: dl ++ [Print "Decrypting segments..."] /\
    Permutation (filter is_get dl) (map HttpGet segments) /\
    filter is_run dl = [].
Proof.
  unfold before_decrypt. rewrite bind_eq.
  pose proof (mkdir_log true true (downloaded_dir task) w) as L1.
  pose proof (fun q d => mkdir_no_new_file true true (downloaded_dir task)
                           q d w) as N1.
  destruct (mkdir true true (downloaded_dir task) w) as [[e|[]] wa];
    [discriminate|]. cbn [snd] in L1, N1.
  rewrite bind_eq.
  pose proof (mkdir_log true true (decrypted_dir task) wa) as L2.
  pose proof (fun q d => mkdir_no_new_file true true (decrypted_dir task)
                           q d wa) as N2.
  destruct (mkdir true true (decrypted_dir task) wa) as [[e|[]] wb];
    [discriminate|]. cbn [snd] in L2, N2.
  rewrite bind_eq.
  pose proof (read_file_world (key task) wb) as Hk.
  destruct (read_file (key task) wb) as [[e|key_bytes] wc] eqn:Ek;
    [discriminate|]. cbn [snd] in Hk. subst wc.
  apply read_file_done in Ek.
  rewrite bind_eq.
  pose proof (parse_m3u8_world (playlist task) wb) as Hp.
  destruct (parse_m3u8 (playlist task) wb) as [[e|parsed] wc] eqn:Ep;
    [discriminate|]. cbn [snd] in Hp. subst wc.
  apply parse_m3u8_done in Ep as (text & Htext & Hvalid & Hparse).
  rewrite bind_eq. unfold print at 1, emit. rewrite bind_eq.
  change (download_segments fetch as_completed task (snd parsed))
    with (for_each (as_completed (Py.enumerate (snd parsed)))
            (download_step fetch task)).
  destruct (download_loop_trace (as_completed (Py.enumerate (snd parsed)))
              (World (fs wb)
                 (log wb ++ [Print ("Downloading "
                                    +++ Py.str (List.length (snd parsed))
                                    +++ " segments...")])))
    as (dl & -> & Hget & Hrun).
  cbn [fs log]. rewrite bind_eq. unfold print, emit, ret. cbn [fs log].
  intros H. injection H as <- <- <- <-. split.
  - exists key_bytes, text. split; [apply N1, N2, Ek|].
    split; [reflexivity|]. split; [apply N1, N2, Htext|].
    split; [exact Hvalid|].
    rewrite Hparse. now destruct parsed.
  - exists dl. cbn [log]. rewrite L2, L1, <- !app_assoc. cbn [app].
    split; [reflexivity|]. split; [|exact Hrun].
    rewrite Hget. rewrite <- (enumerate_from_snd 0 (snd parsed)) at 2.
    rewrite (map_map snd HttpGet). apply Permutation_map, as_completed_perm.
Qed.

Lemma create_file_list_log (w : world) :
  log (snd (create_file_list task w)) = log w.
Proof.
  rewrite create_file_list_spec. cbv zeta.
  destruct (sorted _ _ _) as [e|segments]; [reflexivity|].
  rewrite write_file_spec.
  destruct (Os.lookup (fs w) _) as [[x|]|];
    try destruct (parent_ok (fs w) _); reflexivity.
Qed.

(** The second half of a task that returns has run the decryption
    commands of all positions, in order, and then ffmpeg. *)
Lemma from_decrypt_trace (w w' : world) (key_hex iv : string)
    (segments : list string) (out : string) :
  from_decrypt aes_cbc_decrypt ffmpeg_concat task (key_hex, iv, segments) w
  = (inr out, w') ->
  log w'
  = log w
    ++ map (fun i => Run (decrypt_command task iv key_hex i))
           (seq 0 (List.length segments))
    ++ [Print ("Creating " +++ output_file task);
        Run (ffmpeg_argv (Os.path_join (decrypted_dir task) "filelist.txt")
                         (output_file task))].
Proof.
  unfold from_decrypt. cbn [fst snd]. rewrite bind_eq.
  destruct (decrypt_loop_log aes_cbc_decrypt task iv key_hex
              (List.length segments) 0 w) as (k & _ & Hl & Hok & _).
  cbv zeta in Hl, Hok. unfold decrypt_segments.
  destruct (for_each (seq 0 (List.length segments)) _ w) as [[e|[]] w1];
    [discriminate|]. cbn [fst snd] in Hl, Hok.
  rewrite (Hok eq_refl) in Hl. rewrite bind_eq.
  pose proof (create_file_list_log w1) as Hc.
  destruct (create_file_list task w1) as [[e|list_path] w2] eqn:Ec;
    [discriminate|]. cbn [snd] in Hc.
  apply create_file_list_path in Ec. subst list_path.
  rewrite bind_eq. unfold print, emit. rewrite bind_eq.
  destruct (run_ffmpeg ffmpeg_concat _ _ _) as [[e|[]] w3] eqn:Ef;
    [discriminate|].
  unfold ret. intros H. injection H as _ <-.
  apply (run_ffmpeg_done ffmpeg_concat) in Ef as (data & _ & ->).
  cbn [fs log]. rewrite Hc, Hl, <- !app_assoc. reflexivity.
Qed.

End TraceFacts.

Section WorkspaceFacts.

Lemma rmtree_twice (p : string) (f : Os.filesystem) :
  Os.rmtree p (Os.rmtree p f) = Os.rmtree p f.
Proof.
  unfold Os.rmtree at 1. rewrite lookup_rmtree_self.
  destruct (Os.lookup f p) as [[d|]|]; reflexivity.
Qed.

Lemma input_dir_survives (f : Os.filesystem) :
  Os.path_exists (Os.rmtree base_dir f) input_dir = Os.path_exists f input_dir.
Proof.
  unfold Os.path_exists.
  now rewrite (lookup_rmtree_other base_dir input_dir f eq_refl eq_refl).
Qed.

Lemma cleaned_rmtree (f : Os.filesystem) :
  cleaned (Os.rmtree base_dir f) = cleaned f.
Proof.
  unfold cleaned, Os.path_exists. rewrite lookup_rmtree_self, rmtree_twice.
  unfold Os.rmtree.
  destruct (Os.lookup f base_dir) as [[d|]|]; reflexivity.
Qed.

End WorkspaceFacts.

(** X16. A task that succeeds has gone through its stages in order, on
    the inputs it was given: the key and the playlist were regular files
    before it started, the playlist is well-formed text, the IV is the
    value of its last [IV] attribute and the segments are its segment
    lines.  After its opening line the task prints the number of
    segments, sends one request per segment and runs no command
    meanwhile; only when all downloads are over it prints the decryption
    line and runs openssl for the positions 0, 1, 2, ... in that order,
    each time from [segment<i>.ts] of the download directory to
    [segment<i>.ts] of the decrypt directory, with that IV and with the
    hex form of the key file as the key; last it prints the output name
    and runs ffmpeg on the file list, once. *)
Theorem stages_of_a_finished_task
    (fetch : string -> exn + string)
    (aes_cbc_decrypt : string -> string -> string -> outcome)
    (ffmpeg_concat : Os.filesystem -> list string -> option string)
    (as_completed : list (nat * string) -> list (nat * string))
    (task : Task) (w : world) (out : string) :
  (forall l, Permutation (as_completed l) l) ->
  discovered task ->
  fst (process_task fetch aes_cbc_decrypt ffmpeg_concat as_completed task w)
  = inr out ->
  exists key_bytes text attrs attr dl,
    Os.lookup (fs w) (key task) = Some (Os.File key_bytes) /\
    Os.lookup (fs w) (playlist task) = Some (Os.File text) /\
    utf8_valid text = true /\
    iv_attrs text = attrs ++ [attr] /\
    log (snd (process_task fetch aes_cbc_decrypt ffmpeg_concat as_completed
                task w))
    = log w
      ++ [Print (NL +++ "Processing " +++ base_name task +++ " "
                 +++ version task);
          Print ("Downloading "
                 +++ Py.str (List.length (segment_lines text))
                 +++ " segments...")]
      ++ dl
      ++ [Print "Decrypting segments..."]
      ++ map (fun i =>
                Run ["openssl"; "aes-128-cbc"; "-d";
                     "-in"; downloaded_dir task +++ "/segment"
                            +++ Py.str i +++ ".ts";
                     "-out"; decrypted_dir task +++ "/segment"
                             +++ Py.str i +++ ".ts";
                     "-nosalt"; "-iv"; iv_value attr;
                     "-K"; Py.hex key_bytes])
             (seq 0 (List.length (segment_lines text)))
      ++ [Print ("Creating " +++ output_file task);
          Run ["ffmpeg"; "-hide_banner"; "-loglevel"; "error"; "-f";
               "concat"; "-safe"; "0";
               "-i"; decrypted_dir task +++ "/filelist.txt";
               "-c"; "copy"; output_file task]] /\
    Permutation (filter is_get dl) (map HttpGet (segment_lines text)) /\
    filter is_run dl = [].
Proof.
  intros Hperm Hd.
  rewrite process_task_spec, process_task_body_split, bind_eq.
  destruct (before_decrypt fetch as_completed task _)
    as [[e|[[key_hex iv] segments]] w1] eqn:Eb; [discriminate|].
  destruct (from_decrypt aes_cbc_decrypt ffmpeg_concat task _ w1)
    as [[e|o] w2] eqn:Ef; [discriminate|].
  cbn [fst snd]. intros _.
  destruct (before_decrypt_trace fetch as_completed Hperm task Hd _ _ _ _ _ Eb)
    as ((key_bytes & text & Hk & Hhex & Ht & Hvalid & Hparse)
        & dl & Hl1 & Hget & Hrun).
  pose proof (from_decrypt_trace aes_cbc_decrypt ffmpeg_concat task
                _ _ _ _ _ _ Ef) as Hl2.
  destruct (parse_text_success _ _ _ _ Hparse)
    as ((attrs & attr & Hattrs & Hiv) & _ & Hsegs).
  subst key_hex iv segments.
  exists key_bytes, text, attrs, attr, dl.
  split; [exact Hk|]. split; [exact Ht|]. split; [exact Hvalid|].
  split; [exact Hattrs|]. split; [|split; assumption].
  rewrite Hl2, Hl1. cbn [log].
  rewrite <- !app_assoc. cbn [app]. rewrite <- !app_assoc.
  assert (Hlist : Os.path_join (decrypted_dir task) "filelist.txt"
                  = decrypted_dir task +++ "/filelist.txt").
  { destruct Hd as (b & v & p & k & Hv & ->). rewrite decrypted_dir_make.
    rewrite (join_in_workspace "processing/decrypted_" v "filelist.txt" Hv
               eq_refl).
    reflexivity. }
  rewrite Hlist.
  rewrite (map_ext
             (fun i =>
                Run (decrypt_command task (iv_value attr)
                       (Py.hex key_bytes) i))
             (fun i =>
                Run ["openssl"; "aes-128-cbc"; "-d";
                     "-in"; downloaded_dir task +++ "/segment"
                            +++ Py.str i +++ ".ts";
                     "-out"; decrypted_dir task +++ "/segment"
                             +++ Py.str i +++ ".ts";
                     "-nosalt"; "-iv"; iv_value attr;
                     "-K"; Py.hex key_bytes]))
    by (intros i; now rewrite (decrypt_command_words task Hd)).
  reflexivity.
Qed.

Lemma stages_of_a_finished_task_witness :
  (forall l, Permutation (last_first l) l) /\
  discovered task_2 /\
  fst (process_task sample_fetch sample_decrypt sample_ffmpeg last_first
         task_2 two_tasks_world) = inr "a 2.0.mp4" /\
  exists key_bytes text attrs attr dl,
    Os.lookup (fs two_tasks_world) (key task_2) = Some (Os.File key_bytes) /\
    Os.lookup (fs two_tasks_world) (playlist task_2) = Some (Os.File text) /\
    utf8_valid text = true /\
    iv_attrs text = attrs ++ [attr] /\
    log (snd (process_task sample_fetch sample_decrypt sample_ffmpeg
                last_first task_2 two_tasks_world))
    = log two_tasks_world
      ++ [Print (NL +++ "Processing " +++ base_name task_2 +++ " "
                 +++ version task_2);
          Print ("Downloading "
                 +++ Py.str (List.length (segment_lines text))
                 +++ " segments...")]
      ++ dl
      ++ [Print "Decrypting segments..."]
      ++ map (fun i =>
                Run ["openssl"; "aes-128-cbc"; "-d";
                     "-in"; downloaded_dir task_2 +++ "/segment"
                            +++ Py.str i +++ ".ts";
                     "-out"; decrypted_dir task_2 +++ "/segment"
                             +++ Py.str i +++ ".ts";
                     "-nosalt"; "-iv"; iv_value attr;
                     "-K"; Py.hex key_bytes])
             (seq 0 (List.length (segment_lines text)))
      ++ [Print ("Creating " +++ output_file task_2);
          Run ["ffmpeg"; "-hide_banner"; "-loglevel"; "error"; "-f";
               "concat"; "-safe"; "0";
               "-i"; decrypted_dir task_2 +++ "/filelist.txt";
               "-c"; "copy"; output_file task_2]] /\
    Permutation (filter is_get dl) (map HttpGet (segment_lines text)) /\
    filter is_run dl = [].
Proof.
  assert (Hr : fst (process_task sample_fetch sample_decrypt sample_ffmpeg
                      last_first task_2 two_tasks_world) = inr "a 2.0.mp4")
    by (vm_compute; reflexivity).
  split; [exact last_first_perm|]. split; [exact task_2_discovered|].
  split; [exact Hr|].
  exact (stages_of_a_finished_task sample_fetch sample_decrypt sample_ffmpeg
           last_first task_2 two_tasks_world "a 2.0.mp4"
           last_first_perm task_2_discovered Hr).
Defined.

(** X17. What an earlier run left in the workspace has no influence on a
    run: [main] returns the same result, prints the same lines and leaves
    the same filesystem as it does when the workspace directory is removed
    beforehand. *)
Theorem leftover_workspace_is_ignored
    (fetch : string -> exn + string)
    (aes_cbc_decrypt : string -> string -> string -> outcome)
    (ffmpeg_concat : Os.filesystem -> list string -> option string)
    (as_completed : list (nat * string) -> list (nat * string))
    (resolve : string -> string) (size_mb : Os.node -> string) (w : world) :
  main fetch aes_cbc_decrypt ffmpeg_concat as_completed resolve size_mb w
  = main fetch aes_cbc_decrypt ffmpeg_concat as_completed resolve size_mb
      (World (Os.rmtree base_dir (fs w)) (log w)).
Proof.
  rewrite !main_spec, !main_body_spec. cbn [fs log].
  rewrite input_dir_survives, rmtree_twice.
  destruct (negb (Os.path_exists (fs w) input_dir)); [|reflexivity].
  cbn [fst snd fs log]. now rewrite cleaned_rmtree.
Qed.

(** X18. Without the input directory [main] raises [FileNotFoundError]
    with the message that names the directory; it prints nothing but the
    two cleanup lines, creates no workspace, and still removes a workspace
    directory that was there. *)
Theorem missing_input_directory_is_an_error
    (fetch : string -> exn + string)
    (aes_cbc_decrypt : string -> string -> string -> outcome)
    (ffmpeg_concat : Os.filesystem -> list string -> option string)
    (as_completed : list (nat * string) -> list (nat * string))
    (resolve : string -> string) (size_mb : Os.node -> string) (w : world) :
  Os.path_exists (fs w) input_dir = false ->
  main fetch aes_cbc_decrypt ffmpeg_concat as_completed resolve size_mb w
  = (inl (FileNotFoundError "Input directory 'inputfiles' not found"),
     World (cleaned (fs w)) (log w ++ cleanup_lines)) /\
  Os.is_dir (cleaned (fs w)) base_dir = false.
Proof.
  intros Hin. split; [|apply cleaned_spec].
  rewrite main_spec, main_body_spec, Hin. reflexivity.
Qed.

Lemma missing_input_directory_is_an_error_witness :
  Os.path_exists (fs download_ready_world) input_dir = false /\
  main sample_fetch sample_decrypt sample_ffmpeg last_first sample_resolve
    sample_size download_ready_world
  = (inl (FileNotFoundError "Input directory 'inputfiles' not found"),
     World (cleaned (fs download_ready_world))
           (log download_ready_world ++ cleanup_lines)) /\
  Os.is_dir (cleaned (fs download_ready_world)) base_dir = false.
Proof.
  assert (Hin : Os.path_exists (fs download_ready_world) input_dir = false)
    by reflexivity.
  split; [exact Hin|].
  exact (missing_input_directory_is_an_error sample_fetch sample_decrypt
           sample_ffmpeg last_first sample_resolve sample_size
           download_ready_world Hin).
Defined.
